(* ===== verification/_CoqProject ===== *)
-Q . S2P
Prelude.v
Types.v
Users.v
Tickets.v
StoreSpec.v
Comments.v
Stats.v
Server.v
Client.v
Wire.v
View.v
Widgets.v
Runtime.v
Interleave.v
Browser.v
Sessions.v
Transport.v
