(* ===== verification/Prelude.v ===== *)
(** * TICKET-BWP: a verification development of the help-desk back end

    The program (repository linuxciberseguridad/TICKET-BWP) is an IT
    help-desk: users file incident tickets, agents take and resolve them,
    admins read aggregate statistics.  Its logic lives in four files:

    - [src/src/types.ts]: the enums [UserRole], [TicketStatus],
      [TicketPriority] and the interfaces [User], [Ticket],
      [TicketComment];
    - [src/src/constants.ts]: categories and the colour tables per status
      and per priority;
    - [src/server.ts]: an Express server holding three pieces of mutable
      state in module scope ([MOCK_USERS], [tickets], [comments]) and the
      eight request handlers of the REST API;
    - [src/src/App.tsx]: the React client: its state hooks, its event
      handlers (which build the request bodies the server receives), two
      effects, and the render that shows the state.

    ** Layout of the development (one file per component)

    - [Prelude.v] (this file): the effect monad [IO] that threads the two
      environment effects of the server, [new Date()] (a clock) and
      [Math.random()] (a random source), through the handlers; the
      environment interface [Env] (a type class) with the law
      [ClockMonotone]; the JavaScript helpers the handlers rely on
      ([js_truthy] for [if (x)] on an optional string, [js_template] for
      [`${x}`], [js_for] for the counting [for] loops); the shared list
      lemmas; the hint databases [tickets] (resolve) and [tickets_rw]
      (rewrite).
    - [Types.v]: the enums with their wire strings ([*_value]) and parsers,
      the records [User], [MockUser], [HistoryEntry], [Ticket],
      [TicketComment], and the colour tables of [constants.ts].
    - [Users.v]: the user directory [MOCK_USERS] as a JavaScript object
      (an insertion-ordered association list with JavaScript's property
      lookup, refining a stdpp [gmap]), its three seeding loops, the
      login handler and the agent listing.
    - [Tickets.v]: the ticket store: the seeded array, [POST /api/tickets]
      ([create_ticket]), [GET /api/tickets] ([list_tickets]),
      [PATCH /api/tickets/:id] ([patch_ticket]), the store invariant and
      its preservation.
    - [StoreSpec.v]: an abstract specification of the ticket store (a
      stdpp [gmap] from identifier to ticket and a creation counter, with
      [spec_create], [spec_patch] and the unordered [spec_list]) and the
      refinement of it by the array of [Tickets.v] through the
      abstraction [to_store], one operation at a time and over whole runs
      ([impl_run] against [spec_run]).
    - [Comments.v]: the comment store ([add_comment], [list_comments]).
    - [Stats.v]: [GET /api/stats] ([stats]) and how each mutation moves
      the counters.
    - [Server.v]: the dispatcher: requests, responses with their HTTP
      codes, [handle] for one request, [run] for a sequence of requests,
      the reachable states of the server as a step relation, and the
      invariant of every reachable state.
    - [Client.v]: the React client: its [useState] hooks as a record, the
      event handlers ([handleLogin], [fetchTickets], [handleCreateTicket],
      [updateTicketStatus], [assignToMe], [handleAddComment], ...) as
      programs of state updates and [fetch] calls (a small free monad
      [Prog] whose [Fetch] node continues with the server's answer), and
      [exec], which runs a handler against the server of [Server.v].
    - [Wire.v]: the HTTP layer between them: the URL and the JSON body
      each [fetch] call writes ([login_fetch], [tickets_fetch],
      [status_fetch], ...), and the Express application of [startServer]
      that reads them ([dispatch]): [express.json()], the route table
      ([routes]) matched as path-to-regexp matches, the decoding of
      [:id], the query parser, the destructuring of [req.body] and
      [req.query] into the handlers' typed fields, and after the routes
      the hosting middleware chosen on [NODE_ENV] ([startServer_config],
      with the port and host of [app.listen]).
    - [View.v]: the render of [App] (lines 333-1033) as a function from
      the client state to a [Result] of the screen: the landing cards,
      the login form, the sidebar, the header, the ticket form with its
      [required] controls, the ticket detail (action bar, comments,
      history timeline) and the overview (admin cards, agent counters,
      ticket table), each control carrying the handler it runs; a
      [charAt(0)] on a missing field raises a [TypeError].
    - [Widgets.v]: the generic components [Badge], [Card], [Button],
      [Input] and [Select] (lines 33-112) as the element each renders:
      the class attribute their template literals build, read as the
      DOM's list of class tokens, the defaults of their destructured
      props, the attributes they forward and the options of a select.
    - [Runtime.v]: React's effects: the two [useEffect] hooks with their
      dependency lists, the rounds of effects after a commit ([settle]),
      an event followed by its effects ([dispatch]).
    - [Interleave.v]: handlers running concurrently: threads suspended at
      their [await]s, a schedule choosing which moves, requests and
      answers delivered in any order.
    - [Browser.v]: the whole application as the user drives it: the
      initial values of the hooks, an event naming a control of the
      rendered screen ([Event], [control]), the handler that control
      carries and its commit (the effects run unless the new render
      throws, which unmounts the page), sessions of events from the
      server's start ([session]); the invariant framework behind the
      session theorems: a record of predicates on updates, requests,
      answers, client and server ([PageInv]), the laws an instance
      discharges handler by handler ([PageInvLaws]) and the theorem that
      an instance holds after any session ([session_ok]).
    - [Sessions.v]: the two instances of that framework (every ticket and
      comment has a creator or author name; the ticket identifiers are
      distinct) and the theorems about whole sessions.
    - [Transport.v]: a third instance, whose requests are those Express
      delivers unchanged: in every session the ids and the role the page
      interpolates into its URLs are URL-safe, so every request the page
      sends reaches the route handler as the model of [Client.v] sends it.

    The files depend on each other in this order; [Server.v] composes the
    stores, [Client.v] composes the client with the server, [View.v] and
    [Runtime.v] add the render and the effects on top, [Interleave.v]
    runs several client handlers against one server, and [Browser.v]
    closes the loop: render, user event, handler, server, effects,
    render.  Interfaces
    between components are the records of [Types.v] (what the stores
    hold and the handlers answer), the request and response types of
    [Server.v] (what the client sends and receives) and the environment
    class [Env] (what the server asks of the process: time and
    randomness).

    ** How state and effects are modelled

    The module-level [let tickets] and [let comments] arrays are explicit
    state: each handler takes the array and returns the new one (a push is
    [++ [x]], an in-place mutation of [tickets[i]] is stdpp's list insert
    [<[i := t]>] at an index that [findIndex] proved in range).  Each call
    to [new Date()] and to [Math.random()] reads the environment: the
    [IO] monad carries the number of readings made so far ([ticks],
    [draws]) and the environment [Env] gives the value of the [n]-th
    reading ([clock_at n], [random_at n]).  A timestamp is the number of
    milliseconds [new Date()] returned; [toISOString] is order preserving
    on it (for years 0 to 9999) and is left abstract.  Request bodies are
    typed by the TypeScript types the handlers declare: an enum field is
    an [option] of the enum, a string field an [option string] ([None] is
    [undefined]); the server does not check either (see the findings).

    ** What the theorems show

    - the enums round-trip through their wire strings;
    - the user directory holds exactly the 27 seeded accounts, login
      answers every seeded username with the account minus its password
      and 401 for every other ordinary name;
    - ticket creation: every field of the new ticket (the identifier
      [T-(1001+n)], [IN_PROGRESS] exactly when an agent is pre-assigned,
      the body's fields, the two timestamps, the one- or two-entry
      history);
    - listing: role-based filtering, as a subsequence of the array (so in
      creation order);
    - patching: every field of the result on every branch (status, the
      agent pair, priority, the history message precedence, [resolvedAt]
      reset on each resolve/close), and not-found leaving the store
      unchanged;
    - comments: a posted comment is answered and listed back after the
      earlier ones of its ticket, and only there;
    - the store invariant (sequential unique identifiers, non-empty and
      chronological histories, timestamps bounded by the clock) holds in
      every reachable server state, under a monotone clock;
    - statistics: how creation and patching move each counter;
    - the client end to end: taking a ticket (and the action panel it
      leaves), changing a ticket's status, filing one and finding it in
      the reloaded list, the agent's inbox, posting a comment, logging
      in, opening a ticket and loading its comments, each as the requests
      the handler sends and the states both sides end in;
    - the store refines its specification: [POST] and [PATCH] on the
      array commute with the keyed map's operations on an invariant store,
      and [GET] answers a permutation of the specification's listing; so
      every run of these operations from an invariant store answers what
      the specification's run answers and ends in its final store;
    - the render: exactly when it throws, the timeline's connectors, the
      agent counters against the badge, the priorities the form sends;
    - the effects: one round settles them (no fetch loop), and a seeded
      login ends on a loaded dashboard that renders;
    - concurrency: for any page, invariant store and ticket, two status
      changes in flight have a schedule that leaves the detail panel on
      the first status while the server holds the second;
    - whole sessions: whatever the user does, the server stays reachable
      and the identifiers of the tickets on the page, the React keys of
      the ticket table, stay pairwise distinct;
      unless a name inherited from [Object.prototype] is typed at the
      login, the page never throws (the data the [charAt] calls read is
      always there: an invariant of both sides carried through every
      handler, answer and effect); a seeded login from any role card
      reaches that account's dashboard; in any session, a user logging in
      after another's logout lands on the ticket the other left open;
    - the HTTP layer: each fetch call of the client is routed by Express
      to the handler with exactly the request the model's handler sends
      (URL, query values, JSON body read back field by field), provided
      the interpolated text is URL-safe; in every session it is, so the
      client's direct requests of [Client.v] are what the server
      receives; requests outside the API's routes go to the hosting
      middleware, malformed escapes and non-object bodies are answered
      400.

    The development records behaviour the spec does not describe or
    contradicts (listed as findings in the manifest, with the theorem
    that shows it where there is one): the agent
    listing carries passwords, names inherited from [Object.prototype] log
    in, comments on unknown tickets are accepted, [resolvedAt] is
    overwritten, the assignment message hides a status change, agents
    never see unassigned tickets, the seeded ticket counts in the
    statistics, a ticket without [creatorName] or a comment without
    [userName] makes the client's render throw, "Resueltos este mes"
    counts every resolved ticket, logging out keeps the previous user's
    data on the page, the role card chosen on the landing page is not
    checked, a [Card] without [className] carries the class
    ["undefined"], [Input] and [Select] drop their caller's
    [className], a request outside the API's routes is answered by the
    hosting middleware rather than the API, a malformed escape in a
    ticket id is answered 400 rather than 404, and the client escapes
    none of the text it puts in its URLs (harmless only because every
    identifier is URL-safe).

    ** Open directions

    The identifier race the spec's section 5 describes needs a server
    that processes requests in parallel, which Express does not do (its
    handlers do not await); a model of such a server would state it.
    The refinement of [StoreSpec.v] covers the ticket store's runs; the
    comment store and the statistics have no abstract specification of
    their own (their handlers are specified directly).

    ** Fuel and what is not modelled

    Every handler is a finite composition of structural list functions,
    and [exec] recurses on the structure of a client program (a [Fetch]
    node's continuation applied to an answer is a structural subterm).
    The only fuel is that of the effect rounds ([settle]); [rounds] is 1
    and the termination theorem of [Runtime.v] shows any fuel of at least
    one round gives the same result.  A schedule of [Interleave.v] and a
    session of [Browser.v] are finite lists; a thread that has finished
    ignores its turns, and a page whose render throws ignores events.
    A commit in [Browser.v] renders once after the handler's last update
    (React 18 batches the updates made after an [await]); the invariant
    behind the no-exception theorem of sessions is preserved by each
    single update ([apply_update_named] of [Sessions.v]), so the states
    in between render too.

    Not modelled: what the Vite middleware and [express.static] answer
    (library code; [Wire.v] stops at the request being passed to them);
    the class names of the views' own elements, icons, animations, the
    static texts of the landing and login pages and the header's search
    field and settings button (they have no handler, so no event reaches
    them); [toLocaleString] formatting of dates; the text of JSON and of
    HTTP messages (a body is a JSON value, a response its status code
    and the value passed to [res.json]); the UTF-8 check of
    [decodeURIComponent] and the nested and repeated keys of the query
    parser (such a query value is outside the handlers' types); a [null]
    field of a JSON body, which destructuring keeps and the handlers
    would store, is read as [undefined] (the model's fields have no
    [null]; the client never sends one); the
    percent-encoding [fetch] applies to characters outside the URL-safe
    set, which no identifier of a session contains; network failures
    (the handlers' [catch] branches only log).  React compares effect
    dependencies by reference; the model compares values.  *)

From stdpp Require Export base list strings pretty sets.

Declare Scope ticket_scope.
Delimit Scope ticket_scope with tk.

Create HintDb tickets discriminated.
Create Rewrite HintDb tickets_rw.

(** ** The environment: clock and random source *)

(** The readings made so far of [new Date()] and of [Math.random()]. *)
Record io := mk_io { ticks : nat; draws : nat }.

(** What the process environment provides: the value of the [n]-th clock
    reading in milliseconds, and the string the [n]-th
    [Math.random().toString(36).substr(2, 9)] produces. *)
Class Env := {
  clock_at : nat → nat;
  random_at : nat → string
}.

(** The law a wall clock obeys between two readings of one process. *)
Class ClockMonotone `{Env} :=
  clock_mono : ∀ i j : nat, i ≤ j → clock_at i ≤ clock_at j.

Definition IO (A : Type) : Type := io → A * io.

Definition io_ret {A} (a : A) : IO A := λ w, (a, w).

Definition io_bind {A B} (m : IO A) (k : A → IO B) : IO B :=
  λ w, let '(a, w') := m w in k a w'.

Notation "'let!' x := m 'in' k" := (io_bind m (λ x, k))
  (at level 10, x binder, m at level 100, k at level 200)
  : ticket_scope.
Open Scope ticket_scope.

Section Effects.
Context `{Env}.

(** [new Date()]. *)
Definition now : IO nat :=
  λ w, (clock_at (ticks w), mk_io (S (ticks w)) (draws w)).

(** [Math.random().toString(36).substr(2, 9)]. *)
Definition random_id : IO string :=
  λ w, (random_at (draws w), mk_io (ticks w) (S (draws w))).
End Effects.

(** ** JavaScript helpers *)

(** [if (x)] on a value that is a string or [undefined]: the empty string
    and [undefined] are falsy. *)
Definition js_truthy (o : option string) : bool :=
  match o with Some s => negb (String.eqb s "") | None => false end.

(** [`${x}`] on a string or [undefined]. *)
Definition js_template (o : option string) : string :=
  match o with Some s => s | None => "undefined" end.

(** [for (let i = 1; i <= n; i++) body(i)] on a state. *)
Definition js_for {St} (n : nat) (body : nat → St → St) (s : St) : St :=
  fold_left (λ acc i, body i acc) (seq 1 n) s.

(** The white-space characters [String.prototype.trim] removes, on the
    ASCII range: tab, line feed, vertical tab, form feed, carriage return
    and space. *)
Definition js_is_space (c : Ascii.ascii) : bool :=
  match Ascii.nat_of_ascii c with 9 | 10 | 11 | 12 | 13 | 32 => true | _ => false end.

Fixpoint drop_spaces (l : list Ascii.ascii) : list Ascii.ascii :=
  match l with
  | c :: l' => if js_is_space c then drop_spaces l' else l
  | [] => []
  end.

(** [s.trim()]. *)
Definition js_trim (s : string) : string :=
  String.string_of_list_ascii
    (rev (drop_spaces (rev (drop_spaces (String.list_ascii_of_string s))))).

(** [arr.filter(p).length]. *)
Definition count_where {A} (p : A → bool) (l : list A) : nat :=
  length (List.filter p l).

(** Timestamps of a history read in order never decrease. *)
Fixpoint nondecreasing (l : list nat) : bool :=
  match l with
  | x :: ((y :: _) as l') => (x <=? y) && nondecreasing l'
  | _ => true
  end.

(** ** Shared lemmas *)

Section IOLemmas.
Context `{Env}.

Lemma io_bind_ret_l {A B} (a : A) (k : A → IO B) w :
  io_bind (io_ret a) k w = k a w.
Proof. reflexivity. Qed.

Lemma now_run w : now w = (clock_at (ticks w), mk_io (S (ticks w)) (draws w)).
Proof. reflexivity. Qed.
End IOLemmas.

Lemma js_truthy_true o : js_truthy o = true ↔ ∃ s, o = Some s ∧ s ≠ "".
Proof.
  destruct o as [s|]; simpl; split.
  - intros Hs. exists s. split; [done|]. intros ->. done.
  - intros (s' & [= <-] & Hne). by destruct (String.eqb_spec s "").
  - done.
  - by intros (? & ? & _).
Qed.

Lemma js_truthy_some s : s ≠ "" → js_truthy (Some s) = true.
Proof. intros Hs. apply js_truthy_true. eauto. Qed.

Lemma js_for_S {St} n (body : nat → St → St) s :
  js_for (S n) body s = body (S n) (js_for n body s).
Proof.
  unfold js_for. rewrite seq_S, fold_left_app. reflexivity.
Qed.

Lemma count_where_app {A} (p : A → bool) l1 l2 :
  count_where p (l1 ++ l2) = count_where p l1 + count_where p l2.
Proof. unfold count_where. by rewrite List.filter_app, length_app. Qed.

Lemma count_where_le {A} (p : A → bool) l : count_where p l ≤ length l.
Proof.
  unfold count_where. induction l as [|x l IH]; simpl; [lia|].
  destruct (p x); simpl; lia.
Qed.

Lemma count_where_single {A} (p : A → bool) x :
  count_where p [x] = if p x then 1 else 0.
Proof. unfold count_where. simpl. by destruct (p x). Qed.

Lemma nondecreasing_snoc l x :
  nondecreasing l = true → Forall (λ y, y ≤ x) l → nondecreasing (l ++ [x]) = true.
Proof.
  induction l as [|a l IH]; [done|]. intros Hl Hall.
  inversion Hall as [|? ? Ha Hall']; subst.
  destruct l as [|b l]; simpl in *.
  - apply andb_true_intro. split; [apply Nat.leb_le; lia | done].
  - apply andb_prop in Hl as [Hab Hl].
    rewrite Hab. simpl. by apply IH.
Qed.

Lemma nondecreasing_head_last l x y :
  nondecreasing l = true → head l = Some x → last l = Some y → x ≤ y.
Proof.
  revert x. induction l as [|a l IH]; intros x Hl Hh Hlast; [done|].
  simpl in Hh. injection Hh as <-.
  destruct l as [|b l]; simpl in *.
  - injection Hlast as <-. lia.
  - apply andb_prop in Hl as [Hab Hl]. apply Nat.leb_le in Hab.
    specialize (IH b Hl eq_refl Hlast). lia.
Qed.

(** [arr.filter(p)] keeps the elements in their order. *)
(** [Array.prototype.filter] respects permutations. *)
#[export] Instance List_filter_Permutation {A} (p : A → bool) :
  Proper ((≡ₚ) ==> (≡ₚ)) (List.filter p).
Proof.
  intros l1 l2 Hp. induction Hp as [|x l1 l2 _ IH|x y l|l1 l2 l3 _ IH1 _ IH2]; simpl.
  - done.
  - destruct (p x); [by constructor | done].
  - destruct (p x), (p y); [apply perm_swap | done..].
  - by etrans.
Qed.

(** [Array.prototype.filter] keeps a sublist, in order. *)
Lemma List_filter_sublist_of {A} (p : A → bool) (l : list A) : sublist (List.filter p l) l.
Proof.
  induction l as [|x l IH]; simpl; [done|].
  destruct (p x); by constructor.
Qed.

Lemma List_filter_sublist {A} (p : A → bool) (l : list A) : List.filter p l ⊆+ l.
Proof.
  induction l as [|x l IH]; simpl; [done|].
  destruct (p x); by constructor.
Qed.

Lemma elem_of_List_filter {A} (p : A → bool) (l : list A) x :
  x ∈ List.filter p l ↔ x ∈ l ∧ p x = true.
Proof. rewrite !list_elem_of_In. apply filter_In. Qed.

(** Strings built from a common literal prefix are equal only when the
    rest is: the identifiers [T-n], [user<i>], ... share this argument. *)
Lemma string_app_inj_l s x y : s +:+ x = s +:+ y → x = y.
Proof. induction s as [|c s IH]; simpl; [done|]. intros [= Heq]. by apply IH. Qed.

(** [existsb] read with stdpp's membership. *)
Lemma existsb_elem_of {A} (f : A → bool) (l : list A) :
  existsb f l = true ↔ ∃ x, x ∈ l ∧ f x = true.
Proof. rewrite existsb_exists. by setoid_rewrite list_elem_of_In. Qed.

(** An indexed map flagging every index but the last: [i !== n - 1]
    for [n] the length, shifted by an offset [k]. *)
Lemma imap_not_last {A} (l : list A) (k : nat) :
  imap (λ i _, negb (k + i =? k + length l - 1)) l =
    replicate (length l - 1) true ++ (if l is [] then [] else [false]).
Proof.
  revert k. induction l as [|x l IH]; intros k; [done|].
  rewrite imap_cons.
  rewrite (imap_ext _ (λ i _, negb (S k + i =? S k + length l - 1))), IH
    by (intros; cbn [compose length]; do 2 f_equal; lia).
  simpl. destruct l as [|y l]; simpl.
  - by rewrite (proj2 (Nat.eqb_eq _ _)) by lia.
  - rewrite (proj2 (Nat.eqb_neq _ _)) by lia. by rewrite Nat.sub_0_r.
Qed.

(** Writing [y] over the element [x] at position [i] moves the count by
    the difference of their indicators. *)
Lemma count_where_insert {A} (p : A → bool) (l : list A) i x y :
  l !! i = Some x →
  count_where p (<[i := y]> l) + (if p x then 1 else 0) = count_where p l + (if p y then 1 else 0).
Proof.
  unfold count_where. revert i. induction l as [|z l IH]; intros [|i] Hi; simpl in *; try done.
  - injection Hi as ->. by destruct (p x), (p y); simpl; lia.
  - specialize (IH i Hi). destruct (p z); simpl; lia.
Qed.

#[export] Hint Rewrite @count_where_app @count_where_single : tickets_rw.
#[export] Hint Resolve js_truthy_some nondecreasing_snoc count_where_le : tickets.

(** Close a decidable goal about closed data by evaluation. *)
Ltac decide_by_eval := apply (bool_decide_unpack _); vm_compute; reflexivity.

(** Unfold the monad on a concrete run. *)
Ltac io_simpl :=
  repeat (unfold io_bind, io_ret, now, random_id in *; simpl in *).

(** ** A concrete environment

    A clock that advances by one millisecond per reading and a random
    source that yields distinct strings: the environment the examples of
    each file evaluate the handlers in. *)
Definition ticking_env : Env :=
  {| clock_at := λ n, n; random_at := λ n, "c" +:+ pretty n |}.

#[export] Instance ticking_env_monotone : @ClockMonotone ticking_env.
Proof. intros i j Hij. exact Hij. Qed.
