(* ===== verification/Types.v ===== *)
(** The data model of [src/src/types.ts] and the tables of
    [src/src/constants.ts]: the three string enums with their wire values,
    the parsers the wire values round-trip through, and the records the
    server stores.  A TypeScript optional field or a field copied from a
    request body that may be missing is an [option]. *)

From S2P Require Import Prelude.

(** ** Enums ([export enum ...] in types.ts) *)

Inductive UserRole := USER | AGENT | ADMIN.

Definition UserRole_value (r : UserRole) : string :=
  match r with USER => "user" | AGENT => "agent" | ADMIN => "admin" end.

Inductive TicketStatus :=
  OPEN | IN_PROGRESS | WAITING | ESCALATED | RESOLVED | CLOSED.

Definition TicketStatus_value (s : TicketStatus) : string :=
  match s with
  | OPEN => "Abierto"
  | IN_PROGRESS => "En Proceso"
  | WAITING => "En Espera del Usuario"
  | ESCALATED => "Escalado"
  | RESOLVED => "Resuelto"
  | CLOSED => "Cerrado"
  end.

Inductive TicketPriority := LOW | MEDIUM | HIGH | CRITICAL.

(** The value of [CRITICAL] is the byte sequence of types.ts as written:
    the UTF-8 text "Cr√≠tica" ("Crítica" once mis-decoded). *)
Definition TicketPriority_value (p : TicketPriority) : string :=
  match p with
  | LOW => "Baja"
  | MEDIUM => "Media"
  | HIGH => "Alta"
  | CRITICAL => "Cr√≠tica"
  end.

#[export] Instance UserRole_eq_dec : EqDecision UserRole.
Proof. solve_decision. Defined.
#[export] Instance TicketStatus_eq_dec : EqDecision TicketStatus.
Proof. solve_decision. Defined.
#[export] Instance TicketPriority_eq_dec : EqDecision TicketPriority.
Proof. solve_decision. Defined.

(** [Object.values(E)]: the enum's constructors in declaration order. *)
Definition TicketStatus_values : list TicketStatus :=
  [OPEN; IN_PROGRESS; WAITING; ESCALATED; RESOLVED; CLOSED].
Definition TicketPriority_values : list TicketPriority :=
  [LOW; MEDIUM; HIGH; CRITICAL].

(** Reading a wire string back as an enum member: the first member whose
    value is the string.  The client's [select]s offer [Object.values] of
    the enum, so the value they submit is read back this way
    ([e.target.value as TicketStatus], the [priority] field of the
    ticket form). *)
Definition enum_of_value {E} (value : E → string) (members : list E) (v : string)
    : option E :=
  snd <$> list_find (λ e, value e = v) members.

Definition TicketStatus_of_value := enum_of_value TicketStatus_value TicketStatus_values.
Definition TicketPriority_of_value := enum_of_value TicketPriority_value TicketPriority_values.

(** ** Records (the interfaces of types.ts) *)

Module User.
Record User := mkUser {
  id : string;
  username : string;
  fullName : string;
  role : UserRole;
  department : string;
  email : string
}.
End User.
Abbreviation User := User.User.

(** [User & { password: string }], the value type of [MOCK_USERS]. *)
Module MockUser.
Record MockUser := mkMockUser {
  id : string;
  username : string;
  password : string;
  fullName : string;
  role : UserRole;
  department : string;
  email : string
}.
End MockUser.
Abbreviation MockUser := MockUser.MockUser.

(** One element of [Ticket.history]. *)
Module HistoryEntry.
Record HistoryEntry := mkHistoryEntry {
  action : string;
  userId : option string;
  userName : option string;
  timestamp : nat
}.
End HistoryEntry.
Abbreviation HistoryEntry := HistoryEntry.HistoryEntry.

#[export] Instance HistoryEntry_eq_dec : EqDecision HistoryEntry.
Proof. solve_decision. Defined.

Module Ticket.
Record Ticket := mkTicket {
  id : string;
  title : option string;
  description : option string;
  status : TicketStatus;
  priority : option TicketPriority;
  category : option string;
  creatorId : option string;
  creatorName : option string;
  creatorEmail : option string;
  creatorDept : option string;
  station : option string;
  area : option string;
  agentId : option string;
  agentName : option string;
  createdAt : nat;
  updatedAt : nat;
  resolvedAt : option nat;
  history : list HistoryEntry
}.

(** The in-place assignments of the PATCH handler, one per statement. *)
Definition set_status (s : TicketStatus) (t : Ticket) : Ticket :=
  mkTicket t.(id) t.(title) t.(description) s t.(priority) t.(category)
    t.(creatorId) t.(creatorName) t.(creatorEmail) t.(creatorDept) t.(station)
    t.(area) t.(agentId) t.(agentName) t.(createdAt) t.(updatedAt)
    t.(resolvedAt) t.(history).

Definition set_agent (aid aname : option string) (t : Ticket) : Ticket :=
  mkTicket t.(id) t.(title) t.(description) t.(status) t.(priority) t.(category)
    t.(creatorId) t.(creatorName) t.(creatorEmail) t.(creatorDept) t.(station)
    t.(area) aid aname t.(createdAt) t.(updatedAt) t.(resolvedAt) t.(history).

Definition set_priority (p : option TicketPriority) (t : Ticket) : Ticket :=
  mkTicket t.(id) t.(title) t.(description) t.(status) p t.(category)
    t.(creatorId) t.(creatorName) t.(creatorEmail) t.(creatorDept) t.(station)
    t.(area) t.(agentId) t.(agentName) t.(createdAt) t.(updatedAt)
    t.(resolvedAt) t.(history).

Definition set_updatedAt (n : nat) (t : Ticket) : Ticket :=
  mkTicket t.(id) t.(title) t.(description) t.(status) t.(priority) t.(category)
    t.(creatorId) t.(creatorName) t.(creatorEmail) t.(creatorDept) t.(station)
    t.(area) t.(agentId) t.(agentName) t.(createdAt) n t.(resolvedAt) t.(history).

Definition set_resolvedAt (n : nat) (t : Ticket) : Ticket :=
  mkTicket t.(id) t.(title) t.(description) t.(status) t.(priority) t.(category)
    t.(creatorId) t.(creatorName) t.(creatorEmail) t.(creatorDept) t.(station)
    t.(area) t.(agentId) t.(agentName) t.(createdAt) t.(updatedAt) (Some n)
    t.(history).

(** [ticket.history.push(e)]. *)
Definition push_history (e : HistoryEntry) (t : Ticket) : Ticket :=
  mkTicket t.(id) t.(title) t.(description) t.(status) t.(priority) t.(category)
    t.(creatorId) t.(creatorName) t.(creatorEmail) t.(creatorDept) t.(station)
    t.(area) t.(agentId) t.(agentName) t.(createdAt) t.(updatedAt)
    t.(resolvedAt) (t.(history) ++ [e]).
End Ticket.
Abbreviation Ticket := Ticket.Ticket.

#[export] Instance Ticket_eq_dec : EqDecision Ticket.
Proof. solve_decision. Defined.

Module TicketComment.
Record TicketComment := mkTicketComment {
  id : string;
  ticketId : string;
  userId : option string;
  userName : option string;
  text : option string;
  createdAt : nat
}.
End TicketComment.
Abbreviation TicketComment := TicketComment.TicketComment.

(** ** constants.ts *)

Definition CATEGORIES : list string :=
  ["Computadora"; "Sistema Operativo"; "Internet"; "Red"; "Hardware";
   "Software"; "Impresoras"; "Accesos / Credenciales"; "Otro"].

Definition PRIORITY_COLORS (p : TicketPriority) : string :=
  match p with
  | LOW => "bg-blue-100 text-blue-800 border-blue-200"
  | MEDIUM => "bg-yellow-100 text-yellow-800 border-yellow-200"
  | HIGH => "bg-orange-100 text-orange-800 border-orange-200"
  | CRITICAL => "bg-red-100 text-red-800 border-red-200"
  end.

Definition STATUS_COLORS (s : TicketStatus) : string :=
  match s with
  | OPEN => "bg-emerald-100 text-emerald-800 border-emerald-200"
  | IN_PROGRESS => "bg-blue-100 text-blue-800 border-blue-200"
  | WAITING => "bg-amber-100 text-amber-800 border-amber-200"
  | ESCALATED => "bg-purple-100 text-purple-800 border-purple-200"
  | RESOLVED => "bg-gray-100 text-gray-800 border-gray-200"
  | CLOSED => "bg-slate-200 text-slate-900 border-slate-300"
  end.

(** ** Lemmas *)

(** Parsing a list of members whose values are pairwise distinct inverts
    the value function: the generic fact behind the three round trips. *)
Lemma enum_of_value_inv {E} (value : E → string) (members : list E) e :
  e ∈ members → NoDup (value <$> members) →
  enum_of_value value members (value e) = Some e.
Proof.
  unfold enum_of_value. induction members as [|x xs IH]; intros Hin Hnd.
  - by apply not_elem_of_nil in Hin.
  - simpl. inversion Hnd as [|? ? Hx Hnd']; subst.
    case_decide as Heq.
    + simpl. f_equal. apply elem_of_cons in Hin as [->|Hin]; [done|].
      exfalso. apply Hx. rewrite Heq. by apply list_elem_of_fmap_2.
    + apply elem_of_cons in Hin as [->|Hin]; [done|].
      rewrite <- (IH Hin Hnd'). by destruct (list_find _ xs) as [[]|].
Qed.

Lemma enum_of_value_sound {E} (value : E → string) members v e :
  enum_of_value value members v = Some e → value e = v ∧ e ∈ members.
Proof.
  unfold enum_of_value. intros Hf.
  destruct (list_find _ members) as [[i y]|] eqn:Hl; simpl in Hf; [|done].
  injection Hf as <-. apply list_find_Some in Hl as (Hy & Hv & _).
  split; [done|]. by eapply list_elem_of_lookup_2.
Qed.

Lemma enum_of_value_iff {E} (value : E → string) members v e :
  e ∈ members → NoDup (value <$> members) →
  enum_of_value value members v = Some e ↔ value e = v.
Proof.
  intros Hin Hnd. split.
  - by intros [? _]%enum_of_value_sound.
  - intros <-. by apply enum_of_value_inv.
Qed.

(** A ticket status is printed to, and parsed back from, exactly its
    wire string ([TicketStatus] values of types.ts are pairwise
    distinct, so each wire string names one status). *)
Lemma TicketStatus_roundtrip v s :
  TicketStatus_of_value v = Some s ↔ TicketStatus_value s = v.
Proof.
  apply enum_of_value_iff; [destruct s | ]; decide_by_eval.
Qed.

(** A ticket priority is printed to, and parsed back from, exactly
    its wire string. *)
Theorem TicketPriority_roundtrip v p :
  TicketPriority_of_value v = Some p ↔ TicketPriority_value p = v.
Proof.
  apply enum_of_value_iff; [destruct p | ]; decide_by_eval.
Qed.

