(* ===== verification/Users.v ===== *)
(** The user directory of [src/server.ts]: [MOCK_USERS], a plain
    JavaScript object used as a dictionary (lines 6-45), the login handler
    [POST /api/auth/login] (lines 74-84) and the agent listing
    [GET /api/agents] (lines 87-90).

    [JsObject] models a JavaScript object with string keys: its own
    properties in insertion order (the order [Object.values] reports for
    non-numeric keys), assignment [o[k] = v] that overwrites in place or
    appends, and property reads [o[k]] that fall back to the properties
    every object inherits from [Object.prototype].  Its own-property view
    refines a stdpp [gmap]. *)

From stdpp Require Import gmap.
From S2P Require Import Prelude Types.

Module JsObject.

Definition obj (V : Type) : Type := list (string * V).

(** [o[k] = v]. *)
Fixpoint obj_set {V} (k : string) (v : V) (o : obj V) : obj V :=
  match o with
  | [] => [(k, v)]
  | (k', v') :: o' =>
      if String.eqb k k' then (k, v) :: o' else (k', v') :: obj_set k v o'
  end.

(** The own property [k] of [o], if any. *)
Fixpoint own_get {V} (k : string) (o : obj V) : option V :=
  match o with
  | [] => None
  | (k', v) :: o' => if String.eqb k k' then Some v else own_get k o'
  end.

(** [Object.values(o)]. *)
Definition obj_values {V} (o : obj V) : list V := snd <$> o.

(** The property names an object literal inherits from
    [Object.prototype]. *)
Definition object_prototype_keys : list string :=
  ["constructor"; "__proto__"; "toString"; "toLocaleString"; "valueOf";
   "hasOwnProperty"; "isPrototypeOf"; "propertyIsEnumerable";
   "__defineGetter__"; "__defineSetter__"; "__lookupGetter__";
   "__lookupSetter__"].

(** What [o[k]] evaluates to. *)
Inductive lookup_result (V : Type) :=
| Own (v : V)
| Inherited (name : string)
| Undefined.
Arguments Own {V} v.
Arguments Inherited {V} name.
Arguments Undefined {V}.

Definition js_get {V} (k : string) (o : obj V) : lookup_result V :=
  match own_get k o with
  | Some v => Own v
  | None =>
      if bool_decide (k ∈ object_prototype_keys) then Inherited k else Undefined
  end.

(** The abstraction: the own properties as a finite map. *)
Definition to_gmap {V} (o : obj V) : gmap string V := list_to_map o.

Section Laws.
Context {V : Type}.
Implicit Types (o : obj V) (v : V).

Lemma own_get_set_eq k v o : own_get k (obj_set k v o) = Some v.
Proof.
  induction o as [|[k' v'] o IH]; simpl.
  - by rewrite String.eqb_refl.
  - destruct (String.eqb_spec k k') as [->|Hne]; simpl.
    + by rewrite String.eqb_refl.
    + apply String.eqb_neq in Hne. by rewrite Hne.
Qed.

Lemma own_get_set_ne k k' v o :
  k ≠ k' → own_get k' (obj_set k v o) = own_get k' o.
Proof.
  intros Hne. induction o as [|[k0 v0] o IH]; simpl.
  - destruct (String.eqb_spec k' k); congruence.
  - destruct (String.eqb_spec k k0) as [->|Hk]; simpl.
    + destruct (String.eqb_spec k' k0); congruence.
    + by rewrite IH.
Qed.

Lemma own_get_to_gmap k o : own_get k o = to_gmap o !! k.
Proof.
  unfold to_gmap. induction o as [|[k' v'] o IH]; simpl.
  - by rewrite lookup_empty.
  - destruct (String.eqb_spec k k') as [->|Hne].
    + by rewrite lookup_insert_eq.
    + by rewrite lookup_insert_ne by congruence.
Qed.

(** Assigning a property the object does not own appends it: the
    property order [Object.values] reports is the insertion order. *)
Lemma obj_set_fresh k v o : own_get k o = None → obj_set k v o = o ++ [(k, v)].
Proof.
  induction o as [|[k' v'] o IH]; simpl; [done|].
  destruct (String.eqb_spec k k'); [done|]. intros Hg. by rewrite IH.
Qed.

(** A counting loop that assigns the property [key i] for each [i]
    leaves every other property as it was. *)
Lemma own_get_js_for_other (key : nat → string) (f : nat → V) n k o :
  (∀ i, 1 ≤ i ≤ n → k ≠ key i) →
  own_get k (js_for n (λ i acc, obj_set (key i) (f i) acc) o) = own_get k o.
Proof.
  intros Hk. induction n as [|n IH]; [done|].
  rewrite js_for_S, own_get_set_ne by (intros Heq; apply (Hk (S n)); [lia|done]).
  apply IH. intros i Hi. apply Hk. lia.
Qed.

(** ... and the property [key i] it assigned last holds [f i]. *)
Lemma own_get_js_for (key : nat → string) (f : nat → V) n i o :
  (∀ i j, key i = key j → i = j) → 1 ≤ i ≤ n →
  own_get (key i) (js_for n (λ i acc, obj_set (key i) (f i) acc) o) = Some (f i).
Proof.
  intros Hinj Hi. induction n as [|n IH]; [lia|].
  rewrite js_for_S. destruct (decide (i = S n)) as [->|Hne].
  - apply own_get_set_eq.
  - rewrite own_get_set_ne by (intros Heq; apply Hne, Hinj; done).
    apply IH. lia.
Qed.

(** A loop over fresh keys appends its values in loop order. *)
Lemma obj_values_js_for (key : nat → string) (f : nat → V) n o :
  (∀ i j, key i = key j → i = j) → (∀ i, own_get (key i) o = None) →
  obj_values (js_for n (λ i acc, obj_set (key i) (f i) acc) o)
  = obj_values o ++ (f <$> seq 1 n).
Proof.
  intros Hinj Hfresh. induction n as [|n IH].
  - by rewrite app_nil_r.
  - rewrite js_for_S, obj_set_fresh.
    + unfold obj_values in *. rewrite fmap_app, IH, seq_S, fmap_app.
      by rewrite app_assoc.
    + rewrite own_get_js_for_other; [apply Hfresh|].
      intros j Hj Heq. apply Hinj in Heq. lia.
Qed.
End Laws.
End JsObject.

Import JsObject.

Module Users.

(** The three seeding loops of server.ts, one record per iteration. *)
Definition user_entry (i : nat) : MockUser :=
  MockUser.mkMockUser ("u" +:+ pretty i) ("user" +:+ pretty i) "password123"
    ("Usuario " +:+ pretty i) USER
    (if Nat.eqb (i mod 2) 0 then "Ventas" else "Marketing")
    ("user" +:+ pretty i +:+ "@enterprise.com").

Definition agent_entry (i : nat) : MockUser :=
  MockUser.mkMockUser ("a" +:+ pretty i) ("agente" +:+ pretty i) "password123"
    ("Agente IT " +:+ pretty i) AGENT "IT Support"
    ("agente" +:+ pretty i +:+ "@enterprise.com").

Definition admin_entry (i : nat) : MockUser :=
  MockUser.mkMockUser ("admin" +:+ pretty i) ("admin" +:+ pretty i) "password123"
    ("Administrador " +:+ pretty i) ADMIN "IT Management"
    ("admin" +:+ pretty i +:+ "@enterprise.com").

Definition user_key (i : nat) : string := "user" +:+ pretty i.
Definition agent_key (i : nat) : string := "agente" +:+ pretty i.
Definition admin_key (i : nat) : string := "admin" +:+ pretty i.

Definition MOCK_USERS : obj MockUser :=
  js_for 3 (λ i o, obj_set (admin_key i) (admin_entry i) o)
    (js_for 4 (λ i o, obj_set (agent_key i) (agent_entry i) o)
      (js_for 20 (λ i o, obj_set (user_key i) (user_entry i) o) [])).

(** [const { password: _, ...userWithoutPassword } = user]. *)
Definition without_password (m : MockUser) : User :=
  User.mkUser m.(MockUser.id) m.(MockUser.username) m.(MockUser.fullName)
    m.(MockUser.role) m.(MockUser.department) m.(MockUser.email).

(** The JSON bodies the login handler sends: a user, the rest-spread of
    a property inherited from [Object.prototype] (no own enumerable
    property, so [{}]), or an error message. *)
Inductive LoginBody :=
| LoginUser (u : User)
| LoginEmpty
| LoginMessage (message : string).

(** A property key: [undefined] converts to ["undefined"]. *)
Definition js_key (o : option string) : string := js_template o.

(** [POST /api/auth/login]: the status code and the body. *)
Definition login (users : obj MockUser) (username : option string) : nat * LoginBody :=
  match js_get (js_key username) users with
  | Own user => (200, LoginUser (without_password user))
  | Inherited _ => (200, LoginEmpty)
  | Undefined => (401, LoginMessage "Usuario no encontrado")
  end.

(** [GET /api/agents]: [Object.values(MOCK_USERS).filter(u => u.role === AGENT)]. *)
Definition list_agents (users : obj MockUser) : list MockUser :=
  List.filter (λ u, bool_decide (u.(MockUser.role) = AGENT)) (obj_values users).

(** [u.role === r]. *)
Definition has_role (r : UserRole) (u : MockUser) : bool :=
  bool_decide (u.(MockUser.role) = r).

End Users.

(** ** Properties of the JavaScript object *)

(** Assignment on a JavaScript object refines insertion into the
    finite map of its own properties. *)
Theorem obj_set_refines_insert {V} (k : string) (v : V) (o : obj V) :
  to_gmap (obj_set k v o) = <[k := v]> (to_gmap o).
Proof.
  apply map_eq. intros k'. rewrite <- own_get_to_gmap.
  destruct (decide (k = k')) as [<-|Hne].
  - by rewrite own_get_set_eq, lookup_insert_eq.
  - by rewrite own_get_set_ne, lookup_insert_ne, own_get_to_gmap.
Qed.

Lemma own_get_None_iff {V} k (o : obj V) : own_get k o = None ↔ k ∉ o.*1.
Proof.
  induction o as [|[k' v] o IH]; simpl.
  - split; [intros _; apply not_elem_of_nil | done].
  - rewrite not_elem_of_cons, <- IH.
    destruct (String.eqb_spec k k'); naive_solver.
Qed.

(** ** Properties of the directory *)

Import Users.

Lemma user_key_inj i j : user_key i = user_key j → i = j.
Proof. intros H%string_app_inj_l. by apply (inj pretty). Qed.
Lemma agent_key_inj i j : agent_key i = agent_key j → i = j.
Proof. intros H%string_app_inj_l. by apply (inj pretty). Qed.
Lemma admin_key_inj i j : admin_key i = admin_key j → i = j.
Proof. intros H%string_app_inj_l. by apply (inj pretty). Qed.

#[local] Hint Resolve user_key_inj agent_key_inj admin_key_inj : tickets.

Lemma MOCK_USERS_user i : 1 ≤ i ≤ 20 → own_get (user_key i) MOCK_USERS = Some (user_entry i).
Proof.
  intros Hi. unfold MOCK_USERS.
  rewrite !own_get_js_for_other
    by (intros j _ Heq; discriminate Heq).
  apply own_get_js_for; [eauto with tickets | lia].
Qed.

Lemma MOCK_USERS_agent i : 1 ≤ i ≤ 4 → own_get (agent_key i) MOCK_USERS = Some (agent_entry i).
Proof.
  intros Hi. unfold MOCK_USERS.
  rewrite own_get_js_for_other by (intros j _ Heq; discriminate Heq).
  apply own_get_js_for; [eauto with tickets | lia].
Qed.

Lemma MOCK_USERS_admin i : 1 ≤ i ≤ 3 → own_get (admin_key i) MOCK_USERS = Some (admin_entry i).
Proof. intros Hi. unfold MOCK_USERS. apply own_get_js_for; [eauto with tickets | lia]. Qed.

Lemma obj_values_MOCK_USERS :
  obj_values MOCK_USERS =
    (user_entry <$> seq 1 20) ++ (agent_entry <$> seq 1 4) ++ (admin_entry <$> seq 1 3).
Proof.
  unfold MOCK_USERS.
  rewrite obj_values_js_for; [| auto with tickets | ].
  2:{ intros i. rewrite own_get_js_for_other, own_get_js_for_other; [done| |].
      - intros j _ Heq. discriminate Heq.
      - intros j _ Heq. discriminate Heq. }
  rewrite obj_values_js_for; [| auto with tickets | ].
  2:{ intros i. rewrite own_get_js_for_other; [done|].
      intros j _ Heq. discriminate Heq. }
  rewrite obj_values_js_for; [| auto with tickets | done].
  by rewrite <- app_assoc.
Qed.

Lemma MOCK_USERS_keys :
  MOCK_USERS.*1 = (user_key <$> seq 1 20) ++ (agent_key <$> seq 1 4) ++ (admin_key <$> seq 1 3).
Proof. vm_compute. reflexivity. Qed.

Lemma prototype_keys_not_seeded k : k ∈ object_prototype_keys → k ∉ MOCK_USERS.*1.
Proof.
  rewrite MOCK_USERS_keys. revert k. apply Forall_forall. decide_by_eval.
Qed.

(** The directory is seeded with 20 accounts of role [user], 4 of role
    [agent] and 3 of role [admin], and nothing else. *)
Theorem MOCK_USERS_roles :
  count_where (has_role USER) (obj_values MOCK_USERS) = 20 ∧
  count_where (has_role AGENT) (obj_values MOCK_USERS) = 4 ∧
  count_where (has_role ADMIN) (obj_values MOCK_USERS) = 3 ∧
  length (obj_values MOCK_USERS) = 27.
Proof. rewrite obj_values_MOCK_USERS. split_and!; reflexivity. Qed.

(** Login with a seeded username ([user1..user20], [agente1..agente4],
    [admin1..admin3]) answers 200 with that account, password removed. *)
Lemma login_seeded i :
  (1 ≤ i ≤ 20 → login MOCK_USERS (Some (user_key i))
                = (200, LoginUser (without_password (user_entry i)))) ∧
  (1 ≤ i ≤ 4 → login MOCK_USERS (Some (agent_key i))
                = (200, LoginUser (without_password (agent_entry i)))) ∧
  (1 ≤ i ≤ 3 → login MOCK_USERS (Some (admin_key i))
                = (200, LoginUser (without_password (admin_entry i)))).
Proof.
  unfold login, js_get, js_key, js_template. split_and!; intros Hi.
  - by rewrite MOCK_USERS_user.
  - by rewrite MOCK_USERS_agent.
  - by rewrite MOCK_USERS_admin.
Qed.

(** Login answers 401 exactly for the usernames that are neither seeded
    nor a property every object inherits from [Object.prototype]. *)
Lemma login_unauthorized_iff name :
  fst (login MOCK_USERS (Some name)) = 401 ↔
  (name ∉ (user_key <$> seq 1 20) ++ (agent_key <$> seq 1 4) ++ (admin_key <$> seq 1 3))
  ∧ name ∉ object_prototype_keys.
Proof.
  rewrite <- MOCK_USERS_keys, <- own_get_None_iff.
  unfold login, js_get, js_key, js_template.
  destruct (own_get name MOCK_USERS); [naive_solver|].
  case_bool_decide; naive_solver.
Qed.

(** Login with the name of a property inherited from
    [Object.prototype] (for example ["constructor"] or ["__proto__"])
    answers 200 with an empty object instead of 401. *)
Theorem login_prototype_key name :
  name ∈ object_prototype_keys → login MOCK_USERS (Some name) = (200, LoginEmpty).
Proof.
  intros Hk. unfold login, js_get, js_key, js_template.
  rewrite (proj2 (own_get_None_iff _ _) (prototype_keys_not_seeded _ Hk)).
  by rewrite bool_decide_eq_true_2.
Qed.

(** ** Witnesses *)

