(* ===== verification/Tickets.v ===== *)
(** The ticket store of [src/server.ts]: the module-level array
    [let tickets] (lines 47-63) and the three handlers that read or change
    it: [POST /api/tickets] (lines 107-140), [GET /api/tickets]
    (lines 93-105) and [PATCH /api/tickets/:id] (lines 142-179).

    Each handler takes the array and returns the new one; the clock reads
    of [new Date()] go through the [IO] monad of the prelude.  The store
    invariant [store_ok] (identifiers [T-1001], [T-1002], ... by position,
    non-empty chronological histories, every timestamp no later than the
    next clock reading) is preserved by every handler under a monotone
    clock. *)

From S2P Require Import Prelude Types.

(** The fields [POST /api/tickets] destructures from [req.body]. *)
Module TicketBody.
Record TicketBody := mkTicketBody {
  title : option string;
  description : option string;
  priority : option TicketPriority;
  category : option string;
  creatorId : option string;
  creatorName : option string;
  creatorEmail : option string;
  creatorDept : option string;
  agentId : option string;
  agentName : option string;
  station : option string;
  area : option string
}.
End TicketBody.
Abbreviation TicketBody := TicketBody.TicketBody.

(** The fields [PATCH /api/tickets/:id] destructures from [req.body]. *)
Module PatchBody.
Record PatchBody := mkPatchBody {
  status : option TicketStatus;
  agentId : option string;
  agentName : option string;
  priority : option TicketPriority;
  userId : option string;
  userName : option string
}.
End PatchBody.
Abbreviation PatchBody := PatchBody.PatchBody.

(** [Array.prototype.findIndex]: the first index whose element satisfies
    [p], or [-1]. *)
Fixpoint findIndex_from {A} (i : Z) (p : A → bool) (l : list A) : Z :=
  match l with
  | [] => (-1)%Z
  | x :: l' => if p x then i else findIndex_from (i + 1)%Z p l'
  end.
Definition findIndex {A} (p : A → bool) (l : list A) : Z := findIndex_from 0 p l.

Module TicketStore.
Section WithEnv.
Context `{Env}.

(** [`T-${1000 + tickets.length + 1}`]. *)
Definition ticket_id (n : nat) : string := "T-" +:+ pretty (1000 + n + 1).

Definition entry (action : string) (uid uname : option string) (ts : nat)
    : HistoryEntry :=
  HistoryEntry.mkHistoryEntry action uid uname ts.

(** [let tickets = [ { id: "T-1001", ... } ]]: the seeded ticket, whose
    three timestamps are read when the module loads. *)
Definition initial_tickets : IO (list Ticket) :=
  let! c := now in
  let! u := now in
  let! h := now in
  io_ret [Ticket.mkTicket "T-1001" (Some "Problema con acceso a VPN")
    (Some "No puedo conectar a la VPN desde mi casa. Sale error de tiempo de espera.")
    OPEN (Some HIGH) (Some "Red") (Some "u1") (Some "Usuario 1")
    (Some "user1@enterprise.com") (Some "Marketing") None None None None c u None
    [entry "Ticket creado" (Some "u1") (Some "Usuario 1") h]].

(** The ticket [POST /api/tickets] builds for a store of [n] tickets:
    three clock readings, a fourth for the assignment entry. *)
Definition new_ticket (n : nat) (b : TicketBody) : IO Ticket :=
  let! c := now in
  let! u := now in
  let! h := now in
  let newTicket :=
    Ticket.mkTicket (ticket_id n) b.(TicketBody.title)
      b.(TicketBody.description)
      (if js_truthy b.(TicketBody.agentId) then IN_PROGRESS else OPEN)
      b.(TicketBody.priority) b.(TicketBody.category) b.(TicketBody.creatorId)
      b.(TicketBody.creatorName) b.(TicketBody.creatorEmail)
      b.(TicketBody.creatorDept) b.(TicketBody.station) b.(TicketBody.area)
      b.(TicketBody.agentId) b.(TicketBody.agentName) c u None
      [entry "Ticket creado" b.(TicketBody.creatorId) b.(TicketBody.creatorName) h] in
  if js_truthy b.(TicketBody.agentId) then
    let! h2 := now in
    io_ret (Ticket.push_history
      (entry ("Asignado a " +:+ js_template b.(TicketBody.agentName) +:+ " al crear")
         b.(TicketBody.creatorId) b.(TicketBody.creatorName) h2) newTicket)
  else io_ret newTicket.

(** [POST /api/tickets]: the created ticket and the new array. *)
Definition create_ticket (b : TicketBody) (tickets : list Ticket)
    : IO (Ticket * list Ticket) :=
  let! newTicket := new_ticket (length tickets) b in
  io_ret (newTicket, tickets ++ [newTicket]).

(** [GET /api/tickets?userId=..&role=..]. *)
Definition list_tickets (userId role : option string) (tickets : list Ticket)
    : list Ticket :=
  if bool_decide (role = Some (UserRole_value ADMIN)) then tickets
  else if bool_decide (role = Some (UserRole_value AGENT)) then
    List.filter (λ t, bool_decide (t.(Ticket.agentId) = userId)) tickets
  else
    List.filter (λ t, bool_decide (t.(Ticket.creatorId) = userId)) tickets.

(** The two answers of the PATCH handler. *)
Inductive PatchResult :=
| Patched (t : Ticket)
| NotFound.

(** The history message of a patch: the status message when the status
    changes, overwritten by the assignment message when an agent is
    given. *)
Definition patch_action (oldStatus : TicketStatus) (b : PatchBody) : string :=
  let action :=
    match b.(PatchBody.status) with
    | Some s =>
        if bool_decide (s ≠ oldStatus)
        then "Estado cambiado a " +:+ TicketStatus_value s
        else "Ticket actualizado"
    | None => "Ticket actualizado"
    end in
  if js_truthy b.(PatchBody.agentId)
  then "Asignado a " +:+ js_template b.(PatchBody.agentName)
  else action.

(** The mutations of [tickets[ticketIndex]] before the clock is read. *)
Definition apply_fields (b : PatchBody) (ticket : Ticket) : Ticket :=
  let t1 :=
    match b.(PatchBody.status) with
    | Some s => Ticket.set_status s ticket
    | None => ticket
    end in
  let t2 :=
    if js_truthy b.(PatchBody.agentId)
    then Ticket.set_agent b.(PatchBody.agentId) b.(PatchBody.agentName) t1
    else t1 in
  match b.(PatchBody.priority) with
  | Some p => Ticket.set_priority (Some p) t2
  | None => t2
  end.

Definition resolves (s : option TicketStatus) : bool :=
  bool_decide (s = Some RESOLVED) || bool_decide (s = Some CLOSED).

(** The body of [if (ticketIndex !== -1)]: the mutations of the stored
    ticket, in the order the handler performs them. *)
Definition update_ticket (b : PatchBody) (ticket : Ticket) : IO Ticket :=
  let oldStatus := ticket.(Ticket.status) in
  let t := apply_fields b ticket in
  let! u := now in
  let t := Ticket.set_updatedAt u t in
  let action := patch_action oldStatus b in
  let! h := now in
  let t := Ticket.push_history
             (entry action b.(PatchBody.userId) b.(PatchBody.userName) h) t in
  if resolves b.(PatchBody.status) then
    let! r := now in io_ret (Ticket.set_resolvedAt r t)
  else io_ret t.

(** [PATCH /api/tickets/:id]: the ticket is found with [findIndex] and
    mutated in place ([tickets[ticketIndex]] is shared with the array). *)
Definition patch_ticket (id : string) (b : PatchBody) (tickets : list Ticket)
    : IO (PatchResult * list Ticket) :=
  let ticketIndex := findIndex (λ t, String.eqb t.(Ticket.id) id) tickets in
  if Z.eqb ticketIndex (-1) then io_ret (NotFound, tickets) else
  match tickets !! Z.to_nat ticketIndex with
  | None => io_ret (NotFound, tickets)
  | Some ticket =>
      let! t := update_ticket b ticket in
      io_ret (Patched t, <[Z.to_nat ticketIndex := t]> tickets)
  end.

(** ** The store invariant *)

(** The timestamps of a ticket's history, in order. *)
Definition stamps (t : Ticket) : list nat :=
  HistoryEntry.timestamp <$> t.(Ticket.history).

(** A ticket whose timestamps were all read before a clock reading
    [bound]: a non-empty chronological history, [createdAt] not after
    [updatedAt]. *)
Definition ticket_ok (bound : nat) (t : Ticket) : Prop :=
  t.(Ticket.history) ≠ [] ∧
  nondecreasing (stamps t) = true ∧
  Forall (λ s, s ≤ bound) (stamps t) ∧
  t.(Ticket.createdAt) ≤ t.(Ticket.updatedAt) ≤ bound ∧
  (∀ r, t.(Ticket.resolvedAt) = Some r → r ≤ bound).

(** The ticket at position [i] has the identifier [T-(1001 + i)], and
    every ticket is [ticket_ok]. *)
Definition store_ok (bound : nat) (ts : list Ticket) : Prop :=
  (∀ i t, ts !! i = Some t → t.(Ticket.id) = ticket_id i) ∧
  Forall (ticket_ok bound) ts.

(** The invariant as a check that evaluates. *)
Definition ticket_okb (bound : nat) (t : Ticket) : bool :=
  negb (bool_decide (t.(Ticket.history) = [])) &&
  nondecreasing (stamps t) &&
  forallb (λ s, s <=? bound) (stamps t) &&
  (t.(Ticket.createdAt) <=? t.(Ticket.updatedAt)) &&
  (t.(Ticket.updatedAt) <=? bound) &&
  (if t.(Ticket.resolvedAt) is Some r then r <=? bound else true).

Fixpoint store_okb_from (bound i : nat) (ts : list Ticket) : bool :=
  match ts with
  | [] => true
  | t :: ts' =>
      String.eqb t.(Ticket.id) (ticket_id i) && ticket_okb bound t &&
      store_okb_from bound (S i) ts'
  end.

Definition store_okb (bound : nat) (ts : list Ticket) : bool :=
  store_okb_from bound 0 ts.

End WithEnv.
End TicketStore.

Import TicketStore.

(** ** findIndex *)

Lemma findIndex_from_spec {A} (p : A → bool) (l : list A) (i : Z) :
  (findIndex_from i p l = (-1)%Z ∧ Forall (λ x, p x = false) l) ∨
  (∃ k x, findIndex_from i p l = (i + Z.of_nat k)%Z ∧ l !! k = Some x ∧ p x = true ∧
          ∀ j y, j < k → l !! j = Some y → p y = false).
Proof.
  revert i. induction l as [|x l IH]; intros i; simpl.
  - left. done.
  - destruct (p x) eqn:Hx.
    + right. exists 0, x. split_and!; [lia|done|done|lia].
    + destruct (IH (i + 1)%Z) as [[-> Hall] | (k & y & -> & Hk & Hy & Hbefore)].
      * left. split; [done|]. by constructor.
      * right. exists (S k), y. split_and!; [lia|done|done|].
        intros [|j] z Hj Hz; simpl in Hz; [by simplify_eq|].
        apply (Hbefore j z); [lia|done].
Qed.

Lemma findIndex_from_list_find {A} (p : A → bool) (l : list A) (i : Z) :
  findIndex_from i p l =
    match list_find (λ x, p x = true) l with
    | Some (k, _) => (i + Z.of_nat k)%Z
    | None => (-1)%Z
    end.
Proof.
  revert i. induction l as [|x l IH]; intros i; simpl; [done|].
  destruct (p x) eqn:Hx; case_decide as Hd; try congruence.
  - simpl. lia.
  - rewrite IH. destruct (list_find _ l) as [[k y]|]; simpl; [lia|done].
Qed.

(** [findIndex] answers [-1] when no element satisfies the predicate,
    and otherwise an index in range [0 <= i < length l] of the first
    element that does. *)
Lemma findIndex_correct {A} (p : A → bool) (l : list A) :
  (findIndex p l = (-1)%Z ∧ Forall (λ x, p x = false) l) ∨
  (∃ k x, findIndex p l = Z.of_nat k ∧ k < length l ∧ l !! k = Some x ∧ p x = true ∧
          ∀ j y, j < k → l !! j = Some y → p y = false).
Proof.
  destruct (findIndex_from_spec p l 0) as [H1 | (k & x & Hk & Hl & Hp & Hb)];
    [by left | right].
  exists k, x. split_and!; [unfold findIndex; lia | | done | done | done].
  by eapply lookup_lt_Some.
Qed.

Lemma findIndex_first {A} (p : A → bool) (l : list A) k x :
  l !! k = Some x → p x = true → (∀ j y, j < k → l !! j = Some y → p y = false) →
  findIndex p l = Z.of_nat k.
Proof.
  intros Hk Hp Hb.
  destruct (findIndex_correct p l) as [[_ Hall] | (k' & x' & -> & _ & Hk' & Hp' & Hb')].
  - rewrite Forall_lookup in Hall. specialize (Hall _ _ Hk). congruence.
  - f_equal. destruct (lt_eq_lt_dec k k') as [[Hlt|]|Hlt]; [|done|].
    + specialize (Hb' _ _ Hlt Hk). congruence.
    + specialize (Hb _ _ Hlt Hk'). congruence.
Qed.

Section Props.
Context `{Env}.

(** ** Creation *)

(** [POST /api/tickets] appends one ticket whose identifier is
    [T-(1001 + n)] for a store of [n] tickets, whose status is
    [IN_PROGRESS] exactly when a (truthy) [agentId] is given and [OPEN]
    otherwise, whose history is ["Ticket creado"] followed, when an agent
    is given, by ["Asignado a <agentName> al crear"], with the body's
    priority, creator and agent, [createdAt] and [updatedAt] read by two
    successive [new Date()] calls, and no [resolvedAt]. *)
Lemma create_ticket_fields (b : TicketBody) (ts : list Ticket) (w : io) :
  let '((t, ts'), w') := create_ticket b ts w in
  ts' = ts ++ [t] ∧
  t.(Ticket.id) = ticket_id (length ts) ∧
  t.(Ticket.status) = (if js_truthy b.(TicketBody.agentId) then IN_PROGRESS else OPEN) ∧
  (HistoryEntry.action <$> t.(Ticket.history)) =
    "Ticket creado" ::
    (if js_truthy b.(TicketBody.agentId)
     then ["Asignado a " +:+ js_template b.(TicketBody.agentName) +:+ " al crear"]
     else []) ∧
  t.(Ticket.priority) = b.(TicketBody.priority) ∧
  t.(Ticket.creatorId) = b.(TicketBody.creatorId) ∧
  t.(Ticket.agentId) = b.(TicketBody.agentId) ∧
  t.(Ticket.createdAt) = clock_at (ticks w) ∧
  t.(Ticket.updatedAt) = clock_at (S (ticks w)) ∧
  t.(Ticket.resolvedAt) = None ∧
  ticks w' = ticks w + (if js_truthy b.(TicketBody.agentId) then 4 else 3).
Proof.
  unfold create_ticket, new_ticket, io_bind, io_ret, now; simpl.
  destruct (js_truthy _); simpl; split_and!; try done; lia.
Qed.

(** The fields [POST /api/tickets] copies from the body unchanged. *)
Lemma create_ticket_copies (b : TicketBody) (ts : list Ticket) (w : io) :
  let t := (create_ticket b ts w).1.1 in
  t.(Ticket.title) = b.(TicketBody.title) ∧
  t.(Ticket.description) = b.(TicketBody.description) ∧
  t.(Ticket.category) = b.(TicketBody.category) ∧
  t.(Ticket.creatorName) = b.(TicketBody.creatorName) ∧
  t.(Ticket.creatorEmail) = b.(TicketBody.creatorEmail) ∧
  t.(Ticket.creatorDept) = b.(TicketBody.creatorDept) ∧
  t.(Ticket.station) = b.(TicketBody.station) ∧
  t.(Ticket.area) = b.(TicketBody.area) ∧
  t.(Ticket.agentName) = b.(TicketBody.agentName).
Proof.
  unfold create_ticket, new_ticket, io_bind, io_ret, now; simpl.
  by destruct (js_truthy _).
Qed.

(** ** Patching *)
(** Patching an identifier no stored ticket has answers not-found,
    leaves the store unchanged and reads no clock. *)
Lemma patch_ticket_absent (id : string) (b : PatchBody) (ts : list Ticket) (w : io) :
  Forall (λ t, t.(Ticket.id) ≠ id) ts →
  patch_ticket id b ts w = ((NotFound, ts), w).
Proof.
  intros Hall. unfold patch_ticket.
  destruct (findIndex_correct (λ t, String.eqb t.(Ticket.id) id) ts)
    as [[-> _] | (k & x & _ & _ & Hk & Hx & _)]; [done|].
  rewrite Forall_lookup in Hall. apply String.eqb_eq in Hx.
  by destruct (Hall _ _ Hk Hx).
Qed.
End Props.

Lemma list_tickets_agent userId (ts : list Ticket) :
  list_tickets userId (Some "agent") ts =
    List.filter (λ t, bool_decide (t.(Ticket.agentId) = userId)) ts.
Proof. reflexivity. Qed.

Lemma list_tickets_user userId (ts : list Ticket) :
  list_tickets userId (Some "user") ts =
    List.filter (λ t, bool_decide (t.(Ticket.creatorId) = userId)) ts.
Proof. reflexivity. Qed.

(** A goal [clock_at a ≤ clock_at b] with [a ≤ b] by arithmetic. *)
Ltac clock_le :=
  repeat match goal with
  | |- clock_at ?a ≤ clock_at ?b => apply clock_mono; lia
  | H : ?x ≤ clock_at ?a |- ?x ≤ clock_at ?b =>
      etrans; [exact H | apply clock_mono; lia]
  end.

Lemma ticket_okb_sound bound t : ticket_okb bound t = true → ticket_ok bound t.
Proof.
  unfold ticket_okb. intros Hb.
  apply andb_prop in Hb as [Hb Hr]. apply andb_prop in Hb as [Hb Hu].
  apply andb_prop in Hb as [Hb Hc]. apply andb_prop in Hb as [Hb Hall].
  apply andb_prop in Hb as [Hne Hnd].
  split_and!; [| done | | by apply Nat.leb_le | by apply Nat.leb_le |].
  - intros Hh. by rewrite Hh, bool_decide_eq_true_2 in Hne.
  - apply Forall_forall. intros x Hx%list_elem_of_In.
    apply Nat.leb_le. exact (proj1 (forallb_forall _ _) Hall x Hx).
  - intros r Hr'. rewrite Hr' in Hr. by apply Nat.leb_le.
Qed.

Lemma store_okb_sound bound ts : store_okb bound ts = true → store_ok bound ts.
Proof.
  unfold store_okb.
  cut (∀ i, store_okb_from bound i ts = true →
         (∀ j t, ts !! j = Some t → t.(Ticket.id) = ticket_id (i + j)) ∧
         Forall (ticket_ok bound) ts).
  { intros Hc Hb. destruct (Hc 0 Hb) as [Hid Hall]. split; [|done]. apply Hid. }
  induction ts as [|t ts IH]; intros i Hb; simpl in Hb.
  - split; [done | constructor].
  - apply andb_prop in Hb as [Hb Hrest]. apply andb_prop in Hb as [Hid Hok].
    destruct (IH (S i) Hrest) as [Hids Hall]. split.
    + intros [|j] t' Hj; simpl in Hj.
      * injection Hj as <-. apply String.eqb_eq in Hid. by rewrite Nat.add_0_r.
      * rewrite (Hids _ _ Hj). f_equal. lia.
    + constructor; [by apply ticket_okb_sound | done].
Qed.

Section Invariant.
Context `{ClockMonotone}.

Lemma ticket_ok_mono b1 b2 t : b1 ≤ b2 → ticket_ok b1 t → ticket_ok b2 t.
Proof.
  intros Hle (Hne & Hnd & Hall & [Hc Hu] & Hr).
  split_and!; [done | done | | lia | lia | ].
  - eapply Forall_impl; [exact Hall|]. simpl. lia.
  - intros r Hr'. specialize (Hr r Hr'). lia.
Qed.

Lemma store_ok_mono b1 b2 ts : b1 ≤ b2 → store_ok b1 ts → store_ok b2 ts.
Proof.
  intros Hle [Hid Hall]. split; [done|].
  eapply Forall_impl; [exact Hall|]. intros t. by apply ticket_ok_mono.
Qed.

(** the mutations of a patch, field by field: the status, the agent
    pair and the priority are overwritten when given (the agent only
    when [agentId] is truthy), [updatedAt] takes the first clock reading,
    one history entry with the patch's action is appended with the
    second, and [resolvedAt] takes a third exactly when the requested
    status is [RESOLVED] or [CLOSED]; the identifier, the creator and
    [createdAt] are kept. *)
Lemma update_ticket_fields (b : PatchBody) (t : Ticket) (w : io) :
  let '(t', w') := update_ticket b t w in
  t'.(Ticket.id) = t.(Ticket.id) ∧
  t'.(Ticket.status) = default t.(Ticket.status) b.(PatchBody.status) ∧
  t'.(Ticket.agentId) =
    (if js_truthy b.(PatchBody.agentId) then b.(PatchBody.agentId) else t.(Ticket.agentId)) ∧
  t'.(Ticket.agentName) =
    (if js_truthy b.(PatchBody.agentId) then b.(PatchBody.agentName) else t.(Ticket.agentName)) ∧
  t'.(Ticket.priority) =
    (if b.(PatchBody.priority) is Some p then Some p else t.(Ticket.priority)) ∧
  t'.(Ticket.creatorId) = t.(Ticket.creatorId) ∧
  t'.(Ticket.createdAt) = t.(Ticket.createdAt) ∧
  t'.(Ticket.updatedAt) = clock_at (ticks w) ∧
  t'.(Ticket.history) = t.(Ticket.history) ++
    [entry (patch_action t.(Ticket.status) b) b.(PatchBody.userId) b.(PatchBody.userName)
           (clock_at (S (ticks w)))] ∧
  t'.(Ticket.resolvedAt) =
    (if resolves b.(PatchBody.status) then Some (clock_at (S (S (ticks w))))
     else t.(Ticket.resolvedAt)) ∧
  ticks w' = ticks w + (if resolves b.(PatchBody.status) then 3 else 2).
Proof.
  unfold update_ticket, apply_fields, io_bind, io_ret, now; simpl.
  destruct (PatchBody.status b), (js_truthy _), (PatchBody.priority b), (resolves _);
    simpl; split_and!; try done; lia.
Qed.

Lemma update_ticket_ok b t w :
  ticket_ok (clock_at (ticks w)) t →
  let '(t', w') := update_ticket b t w in
  ticket_ok (clock_at (ticks w')) t' ∧ t'.(Ticket.id) = t.(Ticket.id) ∧ ticks w ≤ ticks w'.
Proof.
  intros (Hne & Hnd & Hall & Hcu & Hr).
  pose proof (update_ticket_fields b t w) as Hspec.
  destruct (update_ticket b t w) as [t' w'].
  destruct Hspec as (Hid & _ & _ & _ & _ & _ & Hc & Hu & Hh & Hres & Hw).
  assert (Hw2 : S (S (ticks w)) ≤ ticks w') by (rewrite Hw; destruct (resolves _); lia).
  assert (clock_at (ticks w) ≤ clock_at (ticks w')) by clock_le.
  unfold ticket_ok. split_and!; [| | | | | | done | lia].
  - rewrite Hh. by destruct (Ticket.history t).
  - unfold stamps in *. rewrite Hh, fmap_app. apply nondecreasing_snoc; [done|].
    eapply Forall_impl; [exact Hall|]. simpl. intros x Hx. clock_le.
  - unfold stamps in *. rewrite Hh, fmap_app. apply Forall_app. split.
    + eapply Forall_impl; [exact Hall|]. simpl. lia.
    + constructor; [simpl; clock_le | constructor].
  - rewrite Hc, Hu. lia.
  - rewrite Hu. clock_le.
  - intros r. rewrite Hres. destruct (resolves _).
    + intros [= <-]. clock_le.
    + intros Hr'. specialize (Hr r Hr'). lia.
Qed.
End Invariant.

Section StoreProps.
Context `{ClockMonotone}.

(** The two outcomes of a patch: not found with nothing changed, or the
    first ticket with the identifier updated in place. *)
Lemma patch_ticket_cases id b ts w :
  (patch_ticket id b ts w = ((NotFound, ts), w) ∧ Forall (λ t, t.(Ticket.id) ≠ id) ts) ∨
  ∃ i t, ts !! i = Some t ∧ t.(Ticket.id) = id ∧
    (∀ j t', j < i → ts !! j = Some t' → t'.(Ticket.id) ≠ id) ∧
    patch_ticket id b ts w =
      let '(t', w') := update_ticket b t w in ((Patched t', <[i := t']> ts), w').
Proof.
  unfold patch_ticket.
  destruct (findIndex_correct (λ t, String.eqb t.(Ticket.id) id) ts)
    as [[-> Hall] | (k & x & -> & _ & Hk & Hx & Hb)].
  { left. split; [done|]. eapply Forall_impl; [exact Hall|]. simpl.
    intros t Ht Heq. by rewrite Heq, String.eqb_refl in Ht. }
  right. exists k, x. split_and!; [done | by apply String.eqb_eq | |].
  - intros j t' Hj Ht' Heq. specialize (Hb j t' Hj Ht'). simpl in Hb.
    rewrite Heq, String.eqb_refl in Hb. done.
  - rewrite Nat2Z.id, Hk. destruct (Z.eqb_spec (Z.of_nat k) (-1)); [lia|].
    unfold io_bind. by destruct (update_ticket b x w).
Qed.

Lemma ticket_id_inj i j : ticket_id i = ticket_id j → i = j.
Proof. intros Heq%string_app_inj_l. apply (inj pretty) in Heq. lia. Qed.
End StoreProps.

Section Preservation.
Context `{ClockMonotone}.

Lemma store_ok_snoc bound ts t :
  store_ok bound ts → t.(Ticket.id) = ticket_id (length ts) → ticket_ok bound t →
  store_ok bound (ts ++ [t]).
Proof.
  intros [Hid Hall] Ht Hok. split.
  - intros i t' Hi. apply lookup_app_Some in Hi as [Hi | [Hge Hi]]; [by apply Hid|].
    apply list_lookup_singleton_Some in Hi as [Hi ->]. rewrite Ht. f_equal. lia.
  - apply Forall_app. by split; [|constructor].
Qed.

Lemma store_ok_insert bound ts i t t' :
  store_ok bound ts → ts !! i = Some t → t'.(Ticket.id) = t.(Ticket.id) →
  ticket_ok bound t' → store_ok bound (<[i := t']> ts).
Proof.
  intros [Hid Hall] Hi Ht Hok. split.
  - intros j t'' Hj. destruct (decide (i = j)) as [<-|Hne].
    + rewrite list_lookup_insert_eq in Hj by (by eapply lookup_lt_Some).
      injection Hj as <-. rewrite Ht. by apply Hid.
    + rewrite list_lookup_insert_ne in Hj by done. by apply Hid.
  - by apply Forall_insert.
Qed.

(** the seeded array satisfies the store invariant. *)
Lemma initial_tickets_ok (w0 : io) :
  let '(ts, w) := initial_tickets w0 in store_ok (clock_at (ticks w)) ts.
Proof.
  unfold initial_tickets, io_bind, io_ret, now; simpl. split.
  - intros i t Hi. apply list_lookup_singleton_Some in Hi as [-> <-]. reflexivity.
  - repeat constructor; simpl; try done; clock_le.
Qed.

(** creating a ticket preserves the store invariant. *)
Lemma create_ticket_preserves (b : TicketBody) (ts : list Ticket) (w : io) :
  store_ok (clock_at (ticks w)) ts →
  let '((t, ts'), w') := create_ticket b ts w in store_ok (clock_at (ticks w')) ts'.
Proof.
  intros Hok. unfold create_ticket, new_ticket, io_bind, io_ret, now; simpl.
  destruct (js_truthy _); simpl;
    (apply store_ok_snoc; [eapply store_ok_mono; [|exact Hok]; clock_le | done |]);
    unfold ticket_ok, stamps; simpl; split_and!; try done; try clock_le;
    try (intros r [=]); repeat constructor; try clock_le.
  apply andb_true_intro. split; [apply Nat.leb_le; clock_le | done].
Qed.

(** patching preserves the store invariant. *)
Lemma patch_ticket_preserves (id : string) (b : PatchBody) (ts : list Ticket) (w : io) :
  store_ok (clock_at (ticks w)) ts →
  let '((r, ts'), w') := patch_ticket id b ts w in store_ok (clock_at (ticks w')) ts'.
Proof.
  intros Hok.
  destruct (patch_ticket_cases id b ts w) as [[-> _] | (i & t & Hi & _ & _ & ->)]; [done|].
  pose proof (update_ticket_ok b t w) as Hu.
  destruct (update_ticket b t w) as [t' w'].
  destruct Hu as (Ht' & Hid & Hw); [by eapply Forall_lookup_1; [apply Hok|]|].
  eapply store_ok_insert; [| exact Hi | done | done].
  eapply store_ok_mono; [|exact Hok]. clock_le.
Qed.

(** Identifiers numbered by position are pairwise distinct. *)
Lemma ids_by_position_NoDup (ts : list Ticket) :
  (∀ i t, ts !! i = Some t → t.(Ticket.id) = ticket_id i) → NoDup (Ticket.id <$> ts).
Proof.
  intros Hid. apply NoDup_alt. intros i j x Hi Hj.
  rewrite list_lookup_fmap in Hi, Hj.
  destruct (ts !! i) as [ti|] eqn:Hti, (ts !! j) as [tj|] eqn:Htj; simplify_eq/=.
  apply ticket_id_inj. rewrite <- (Hid _ _ Hti), <- (Hid _ _ Htj). congruence.
Qed.

End Preservation.

Section Behaviour.
Context `{ClockMonotone}.

(** in a store satisfying the invariant, [PATCH /api/tickets/T-(1001+i)]
    updates the ticket at position [i] in place and answers it; the rest
    of the array is unchanged. *)
Lemma patch_ticket_located bound (ts : list Ticket) i t (b : PatchBody) (w : io) :
  store_ok bound ts → ts !! i = Some t →
  patch_ticket (ticket_id i) b ts w =
    let '(t', w') := update_ticket b t w in ((Patched t', <[i := t']> ts), w').
Proof.
  intros [Hid Hall] Hi.
  destruct (patch_ticket_cases (ticket_id i) b ts w)
    as [[_ Hnone] | (j & tj & Hj & Htj & _ & ->)].
  - rewrite Forall_lookup in Hnone. by destruct (Hnone _ _ Hi (Hid _ _ Hi)).
  - rewrite (Hid _ _ Hj) in Htj. apply ticket_id_inj in Htj as ->.
    by rewrite Hi in Hj; injection Hj as ->.
Qed.

(** C6: a patch that both changes the status and assigns an agent records a
    single history line, the assignment message: the status change is
    not recorded. *)
Theorem patch_action_assignment_wins (oldStatus s : TicketStatus) (b : PatchBody) :
  b.(PatchBody.status) = Some s → s ≠ oldStatus → js_truthy b.(PatchBody.agentId) = true →
  patch_action oldStatus b = "Asignado a " +:+ js_template b.(PatchBody.agentName).
Proof. intros _ _ Ha. unfold patch_action. by rewrite Ha. Qed.

(** C7: [resolvedAt] is not set once: resolving a ticket and then closing
    it stamps [resolvedAt] with the first patch's third clock reading and
    then overwrites it with the second patch's. *)
Theorem resolvedAt_reset (t : Ticket) (uid uname : option string) (w : io) :
  let '(t1, w1) := update_ticket (PatchBody.mkPatchBody (Some RESOLVED) None None None uid uname) t w in
  let '(t2, w2) := update_ticket (PatchBody.mkPatchBody (Some CLOSED) None None None uid uname) t1 w1 in
  t1.(Ticket.resolvedAt) = Some (clock_at (ticks w + 2)) ∧
  t2.(Ticket.resolvedAt) = Some (clock_at (ticks w + 5)).
Proof.
  pose proof (update_ticket_fields (PatchBody.mkPatchBody (Some RESOLVED) None None None uid uname) t w)
    as Hs1.
  destruct (update_ticket _ t w) as [t1 w1].
  pose proof (update_ticket_fields (PatchBody.mkPatchBody (Some CLOSED) None None None uid uname) t1 w1)
    as Hs2.
  destruct (update_ticket _ t1 w1) as [t2 w2].
  destruct Hs1 as (_ & _ & _ & _ & _ & _ & _ & _ & _ & Hr1 & Hw1).
  destruct Hs2 as (_ & _ & _ & _ & _ & _ & _ & _ & _ & Hr2 & _).
  simpl in *. rewrite Hr1, Hr2, Hw1. split; do 2 f_equal; lia.
Qed.

(** Every ticket of an invariant store has a non-empty history whose
    last timestamp is not earlier than its first nor later than the
    bound. *)
Lemma ticket_ok_history bound (t : Ticket) :
  ticket_ok bound t →
  ∃ s1 s2, head (stamps t) = Some s1 ∧ last (stamps t) = Some s2 ∧ s1 ≤ s2 ≤ bound.
Proof.
  intros (Hne & Hnd & Hb & _).
  destruct (stamps t) as [|x l] eqn:Hs.
  - unfold stamps in Hs. apply fmap_nil_inv in Hs. done.
  - destruct (last (x :: l)) as [y|] eqn:Hl; [|by rewrite last_cons in Hl; destruct (last l)].
    exists x, y. split_and!; [done|done| by eapply nondecreasing_head_last |].
    rewrite Forall_forall in Hb. by apply Hb, last_Some_elem_of.
Qed.

(** C10: [GET /api/tickets] answers the whole array to [role=admin], the
    tickets whose [agentId] is the query's [userId] to [role=agent], and
    to any other role (or none) the tickets whose [creatorId] is
    [userId]; the answer is a subsequence of the array ([sublist], which
    keeps the order), so the listing is in creation order. *)
Theorem list_tickets_spec (userId role : option string) (ts : list Ticket) :
  (role = Some "admin" → list_tickets userId role ts = ts) ∧
  (role = Some "agent" → ∀ t, t ∈ list_tickets userId role ts ↔
                              t ∈ ts ∧ t.(Ticket.agentId) = userId) ∧
  (role ≠ Some "admin" → role ≠ Some "agent" →
     ∀ t, t ∈ list_tickets userId role ts ↔ t ∈ ts ∧ t.(Ticket.creatorId) = userId) ∧
  sublist (list_tickets userId role ts) ts.
Proof.
  unfold list_tickets; simpl.
  split_and!; intros; repeat case_bool_decide; simplify_eq;
    rewrite ?elem_of_List_filter, ?bool_decide_eq_true; try done;
    apply List_filter_sublist_of.
Qed.
End Behaviour.

(** ** Witnesses: the theorems applied to the seeded store, in the
    environment whose clock advances one millisecond per reading. *)

#[local] Existing Instance ticking_env.

Lemma patch_action_assignment_wins_witness :
  patch_action OPEN
    (PatchBody.mkPatchBody (Some IN_PROGRESS) (Some "a1") (Some "Agente IT 1") None
       (Some "a1") (Some "Agente IT 1"))
  = "Asignado a Agente IT 1".
Proof. apply (patch_action_assignment_wins OPEN IN_PROGRESS); done. Defined.

Lemma list_tickets_spec_witness :
  ∃ t, fst (initial_tickets (mk_io 0 0)) = [t] ∧
  (t ∈ list_tickets (Some "u1") (Some "user") (fst (initial_tickets (mk_io 0 0))) ↔
   t ∈ fst (initial_tickets (mk_io 0 0)) ∧ t.(Ticket.creatorId) = Some "u1").
Proof.
  eexists; split; [reflexivity|].
  apply (list_tickets_spec (Some "u1") (Some "user")); discriminate.
Defined.
