(* ===== verification/StoreSpec.v ===== *)
(** An abstract specification of the ticket store of [src/server.ts] and
    the refinement theorem from the array implementation of [Tickets.v]
    to it.

    The specification keeps the tickets in a finite map from identifier
    to ticket, with the number of tickets created so far: creating a
    ticket inserts it under a fresh identifier, patching looks the
    identifier up and replaces the ticket found.  The implementation keeps
    an array, finds a ticket with [findIndex] (the first one with the
    identifier) and numbers new tickets by the array's length.  The
    abstraction function reads the array as the map from each identifier
    to the first ticket carrying it, and its length as the counter; each
    operation of the array commutes with its specification through it.
    Listing is specified without an order (a finite map has none): the
    array's listing is a permutation of the specification's.  A run, a
    sequence of the three operations, is then simulated step by step:
    the invariant of [Tickets.v] is preserved along it, so each step
    commutes with the abstraction. *)

From stdpp Require Import gmap.
From S2P Require Import Prelude Types Tickets.
Import TicketStore.

Module StoreSpec.

Record Store := mkStore {
  byId : gmap string Ticket;
  count : nat
}.

Section WithEnv.
Context `{Env}.

(** Creating: the ticket numbered after the ones created so far, under
    its identifier. *)
Definition spec_create (b : TicketBody) (st : Store) : IO (Ticket * Store) :=
  let! t := new_ticket st.(count) b in
  io_ret (t, mkStore (<[t.(Ticket.id) := t]> st.(byId)) (S st.(count))).

(** Patching: the ticket stored under the identifier, updated. *)
Definition spec_patch (id : string) (b : PatchBody) (st : Store) : IO (PatchResult * Store) :=
  match st.(byId) !! id with
  | None => io_ret (NotFound, st)
  | Some t =>
      let! t' := update_ticket b t in
      io_ret (Patched t', mkStore (<[id := t']> st.(byId)) st.(count))
  end.
End WithEnv.

(** Who sees a ticket: an administrator every ticket, an agent the
    tickets assigned to the agent, anyone else the tickets the user
    created. *)
Definition visible (uid role : option string) (t : Ticket) : bool :=
  if bool_decide (role = Some (UserRole_value ADMIN)) then true
  else if bool_decide (role = Some (UserRole_value AGENT))
  then bool_decide (t.(Ticket.agentId) = uid)
  else bool_decide (t.(Ticket.creatorId) = uid).

(** Listing: the stored tickets the caller sees, in no given order. *)
Definition spec_list (uid role : option string) (st : Store) : list Ticket :=
  List.filter (visible uid role) (snd <$> map_to_list st.(byId)).

(** The array read as identifier-ticket pairs, in order. *)
Definition keyed (ts : list Ticket) : list (string * Ticket) :=
  (λ t, (t.(Ticket.id), t)) <$> ts.

(** The abstraction function: [list_to_map] lets the first pair with a
    key win, as [findIndex] does. *)
Definition to_store (ts : list Ticket) : Store :=
  mkStore (list_to_map (keyed ts)) (length ts).
End StoreSpec.

Import StoreSpec.

(** ** The map of an array *)

Definition has_id (id : string) (t : Ticket) : bool := String.eqb t.(Ticket.id) id.

(** Looking an identifier up in the map of an array finds the first
    ticket carrying it. *)
Lemma lookup_keyed ts id :
  (list_to_map (keyed ts) : gmap string Ticket) !! id =
    snd <$> list_find (λ t, has_id id t = true) ts.
Proof.
  induction ts as [|t ts IH]; simpl; [done|].
  unfold has_id at 1. case_decide as Hd.
  - apply String.eqb_eq in Hd as ->. by rewrite lookup_insert_eq.
  - rewrite lookup_insert_ne; [|intros Heq; apply Hd; by apply String.eqb_eq].
    rewrite IH. by destruct (list_find _ ts) as [[]|].
Qed.

(** Replacing the first ticket with an identifier by another ticket with
    that identifier replaces the map's entry. *)
Lemma keyed_insert_first ts id k t t' :
  list_find (λ x, has_id id x = true) ts = Some (k, t) → t'.(Ticket.id) = id →
  list_to_map (keyed (<[k := t']> ts)) = <[id := t']> (list_to_map (keyed ts)) :> gmap string Ticket.
Proof.
  intros Hf Hid. revert k Hf. induction ts as [|x ts IH]; intros k Hf; simpl in Hf; [done|].
  unfold has_id at 1 in Hf. case_decide as Hd.
  - injection Hf as <- <-. apply String.eqb_eq in Hd.
    simpl. rewrite Hid, Hd. by rewrite insert_insert_eq.
  - destruct (list_find _ ts) as [[k' y]|] eqn:Hf'; simpl in Hf; [|done].
    injection Hf as <- <-. simpl. rewrite (IH k') by done.
    apply insert_insert_ne. intros Heq. apply Hd, String.eqb_eq. by rewrite Heq.
Qed.

(** Appending a ticket whose identifier no ticket has adds its entry. *)
Lemma keyed_snoc_fresh ts t :
  t.(Ticket.id) ∉ Ticket.id <$> ts →
  list_to_map (keyed (ts ++ [t])) = <[t.(Ticket.id) := t]> (list_to_map (keyed ts))
    :> gmap string Ticket.
Proof.
  induction ts as [|x ts IH]; intros Hfresh; simpl; [done|].
  rewrite fmap_cons, elem_of_cons in Hfresh.
  rewrite IH by naive_solver. apply insert_insert_ne. naive_solver.
Qed.

(** ** The operations commute with the abstraction *)

Section Refinement.
Context `{Env}.

Lemma new_ticket_id n b w : (new_ticket n b w).1.(Ticket.id) = ticket_id n.
Proof. unfold new_ticket, io_bind, io_ret, now; simpl. by destruct (js_truthy _). Qed.

(** The identifier [POST] gives is not in an invariant store. *)
Lemma store_ok_fresh bound ts : store_ok bound ts → ticket_id (length ts) ∉ Ticket.id <$> ts.
Proof.
  intros [Hid _] (t & Ht & Hin)%list_elem_of_fmap.
  apply list_elem_of_lookup_1 in Hin as (i & Hi).
  rewrite (Hid _ _ Hi) in Ht. apply ticket_id_inj in Ht.
  apply lookup_lt_Some in Hi. lia.
Qed.

(** [PATCH] on the array is [spec_patch] on its map, whatever the array. *)
Lemma patch_refines id b ts w :
  let '((r, ts'), w') := patch_ticket id b ts w in
  spec_patch id b (to_store ts) w = ((r, to_store ts'), w').
Proof.
  unfold patch_ticket, spec_patch, findIndex. rewrite findIndex_from_list_find. simpl.
  rewrite lookup_keyed. unfold has_id.
  destruct (list_find _ ts) as [[k t]|] eqn:Hf; simpl; [|done].
  rewrite (proj2 (Z.eqb_neq _ _)) by lia.
  replace (Z.to_nat (0 + Z.of_nat k)) with k by lia.
  pose proof Hf as (Hk & Hp & _)%list_find_Some. rewrite Hk.
  pose proof (update_ticket_fields b t w) as Hu.
  unfold io_bind, io_ret. destruct (update_ticket b t w) as [t' w']. destruct Hu as [Hid _].
  unfold to_store. rewrite length_insert, (keyed_insert_first ts id k t t'); [done..|].
  rewrite Hid. by apply String.eqb_eq.
Qed.

(** [POST] on the array is [spec_create] on its map when the new
    identifier is fresh. *)
Lemma create_refines b ts w :
  ticket_id (length ts) ∉ Ticket.id <$> ts →
  let '((t, ts'), w') := create_ticket b ts w in
  spec_create b (to_store ts) w = ((t, to_store ts'), w').
Proof.
  intros Hfresh. unfold create_ticket, spec_create, io_bind, io_ret; simpl.
  pose proof (new_ticket_id (length ts) b w) as Hid.
  destruct (new_ticket (length ts) b w) as [t w']. simpl in Hid.
  unfold to_store. rewrite length_app, keyed_snoc_fresh by (by rewrite Hid). simpl.
  rewrite Nat.add_1_r. by rewrite Hid.
Qed.

(** The role filter of [GET] is the visibility of the specification. *)
Lemma list_tickets_visible uid role ts : list_tickets uid role ts = List.filter (visible uid role) ts.
Proof.
  unfold list_tickets, visible. repeat case_bool_decide; [|done..].
  induction ts as [|t ts IH]; simpl; [done | by f_equal].
Qed.

(** [GET] on an array whose identifiers are distinct lists, up to order,
    what [spec_list] lists on its map. *)
Lemma list_refines uid role ts :
  NoDup (Ticket.id <$> ts) → list_tickets uid role ts ≡ₚ spec_list uid role (to_store ts).
Proof.
  intros Hnd. rewrite list_tickets_visible. unfold spec_list, to_store; simpl.
  rewrite map_to_list_to_map.
  - unfold keyed. by rewrite <- list_fmap_compose, list_fmap_id.
  - unfold keyed. by rewrite <- list_fmap_compose.
Qed.

(** The three store operations commute with the abstraction on an
    invariant store. *)
Lemma array_refines_keyed_store (bound : nat) (ts : list Ticket) :
  store_ok bound ts →
  (∀ b w, let '((t, ts'), w') := create_ticket b ts w in
          spec_create b (to_store ts) w = ((t, to_store ts'), w')) ∧
  (∀ id b w, let '((r, ts'), w') := patch_ticket id b ts w in
          spec_patch id b (to_store ts) w = ((r, to_store ts'), w')) ∧
  (∀ uid role, list_tickets uid role ts ≡ₚ spec_list uid role (to_store ts)).
Proof.
  intros Hok. split_and!; intros.
  - apply create_refines. by eapply store_ok_fresh.
  - apply patch_refines.
  - apply list_refines, ids_by_position_NoDup, Hok.
Qed.
End Refinement.

(** ** Runs of store operations

    The handlers of [src/server.ts] reach the store through three
    operations; a run is a sequence of them, each one seeing the store
    and the clock the previous one left. *)

Inductive StoreOp :=
| OpCreate (b : TicketBody)
| OpPatch (id : string) (b : PatchBody)
| OpList (uid role : option string).

Inductive StoreAnswer :=
| Created (t : Ticket)
| PatchAnswer (r : PatchResult)
| Listed (l : list Ticket).

(** Answers agree when equal, listings when they hold the same tickets. *)
Definition answer_equiv (a1 a2 : StoreAnswer) : Prop :=
  match a1, a2 with
  | Listed l1, Listed l2 => l1 ≡ₚ l2
  | _, _ => a1 = a2
  end.

Section Runs.
Context `{Env}.

(** A run on the array of [TicketStore]. *)
Fixpoint impl_run (ops : list StoreOp) (ts : list Ticket) (w : io)
    : list StoreAnswer * list Ticket * io :=
  match ops with
  | [] => ([], ts, w)
  | OpCreate b :: ops' =>
      let '((t, ts1), w1) := create_ticket b ts w in
      let '(a, ts2, w2) := impl_run ops' ts1 w1 in (Created t :: a, ts2, w2)
  | OpPatch id b :: ops' =>
      let '((r, ts1), w1) := patch_ticket id b ts w in
      let '(a, ts2, w2) := impl_run ops' ts1 w1 in (PatchAnswer r :: a, ts2, w2)
  | OpList uid role :: ops' =>
      let '(a, ts2, w2) := impl_run ops' ts w in (Listed (list_tickets uid role ts) :: a, ts2, w2)
  end.

(** The same run on the keyed specification. *)
Fixpoint spec_run (ops : list StoreOp) (st : Store) (w : io) : list StoreAnswer * Store * io :=
  match ops with
  | [] => ([], st, w)
  | OpCreate b :: ops' =>
      let '((t, st1), w1) := spec_create b st w in
      let '(a, st2, w2) := spec_run ops' st1 w1 in (Created t :: a, st2, w2)
  | OpPatch id b :: ops' =>
      let '((r, st1), w1) := spec_patch id b st w in
      let '(a, st2, w2) := spec_run ops' st1 w1 in (PatchAnswer r :: a, st2, w2)
  | OpList uid role :: ops' =>
      let '(a, st2, w2) := spec_run ops' st w in (Listed (spec_list uid role st) :: a, st2, w2)
  end.
End Runs.

Section RunRefinement.
Context `{ClockMonotone}.

(** C11: the array implementation of the ticket store refines the keyed
    specification over whole runs: from a store satisfying the invariant,
    any sequence of [POST], [PATCH] and [GET] operations on the array
    gives the answers the specification's run gives on the array's
    abstraction ([GET] up to the order of the listing), ends in an array
    whose abstraction is the specification's final store, and leaves the
    same clock and random readings. *)
Theorem store_runs_refine (ops : list StoreOp) (ts : list Ticket) (w : io) :
  store_ok (clock_at (ticks w)) ts →
  let '(a1, ts', w') := impl_run ops ts w in
  let '(a2, st', w'') := spec_run ops (to_store ts) w in
  Forall2 answer_equiv a1 a2 ∧ st' = to_store ts' ∧ w'' = w'.
Proof.
  revert ts w. induction ops as [|op ops IH]; intros ts w Hok; [done|].
  destruct (array_refines_keyed_store _ _ Hok) as (Hc & Hp & Hl).
  destruct op as [b|id b|uid role]; simpl.
  - specialize (Hc b w). pose proof (create_ticket_preserves b ts w Hok) as Hok'.
    destruct (create_ticket b ts w) as [[t ts1] w1]. rewrite Hc.
    specialize (IH ts1 w1 Hok').
    destruct (impl_run ops ts1 w1) as [[a ts2] w2], (spec_run ops _ w1) as [[a' st2] w2'].
    destruct IH as (? & -> & ->). by split; [constructor|].
  - specialize (Hp id b w). pose proof (patch_ticket_preserves id b ts w Hok) as Hok'.
    destruct (patch_ticket id b ts w) as [[r ts1] w1]. rewrite Hp.
    specialize (IH ts1 w1 Hok').
    destruct (impl_run ops ts1 w1) as [[a ts2] w2], (spec_run ops _ w1) as [[a' st2] w2'].
    destruct IH as (? & -> & ->). by split; [constructor|].
  - specialize (IH ts w Hok).
    destruct (impl_run ops ts w) as [[a ts2] w2], (spec_run ops _ w) as [[a' st2] w2'].
    destruct IH as (? & -> & ->). split; [constructor; [apply Hl|]|]; done.
Qed.
End RunRefinement.

#[local] Existing Instance ticking_env.

Lemma store_runs_refine_witness :
  store_ok (clock_at (ticks (snd (initial_tickets (mk_io 0 0))))) (fst (initial_tickets (mk_io 0 0))) ∧
  let '(a1, ts', w') := impl_run
      [OpCreate (TicketBody.mkTicketBody (Some "Printer") None None None (Some "u3") (Some "Ana")
                   None None None None None None);
       OpPatch "T-1002" (PatchBody.mkPatchBody (Some RESOLVED) None None None (Some "u2") None);
       OpList (Some "u1") (Some "admin")]
      (fst (initial_tickets (mk_io 0 0))) (snd (initial_tickets (mk_io 0 0))) in
  let '(a2, st', w'') := spec_run
      [OpCreate (TicketBody.mkTicketBody (Some "Printer") None None None (Some "u3") (Some "Ana")
                   None None None None None None);
       OpPatch "T-1002" (PatchBody.mkPatchBody (Some RESOLVED) None None None (Some "u2") None);
       OpList (Some "u1") (Some "admin")]
      (to_store (fst (initial_tickets (mk_io 0 0)))) (snd (initial_tickets (mk_io 0 0))) in
  Forall2 answer_equiv a1 a2 ∧ st' = to_store ts' ∧ w'' = w'.
Proof.
  assert (Hok : store_ok (clock_at (ticks (snd (initial_tickets (mk_io 0 0)))))
                  (fst (initial_tickets (mk_io 0 0))))
    by (apply store_okb_sound; vm_compute; reflexivity).
  split; [exact Hok|]. apply (store_runs_refine _ _ _ Hok).
Defined.
