(* ===== verification/Comments.v ===== *)
(** The comment store of [src/server.ts]: the module-level array
    [let comments] (line 65), [GET /api/tickets/:id/comments]
    (lines 182-185) and [POST /api/tickets/:id/comments] (lines 187-200).
    A comment's identifier is a draw of the random source, its timestamp a
    clock reading; the ticket identifier is the URL parameter, never
    checked against the ticket store. *)

From S2P Require Import Prelude Types.

(** The fields [POST /api/tickets/:id/comments] destructures from
    [req.body]. *)
Module CommentBody.
Record CommentBody := mkCommentBody {
  userId : option string;
  userName : option string;
  text : option string
}.
End CommentBody.
Abbreviation CommentBody := CommentBody.CommentBody.

Module CommentStore.
Section WithEnv.
Context `{Env}.

(** [POST /api/tickets/:id/comments]: the object literal evaluates
    [Math.random()] for [id] before [new Date()] for [createdAt]. *)
Definition add_comment (id : string) (b : CommentBody) (comments : list TicketComment)
    : IO (TicketComment * list TicketComment) :=
  let! cid := random_id in
  let! c := now in
  let newComment :=
    TicketComment.mkTicketComment cid id b.(CommentBody.userId)
      b.(CommentBody.userName) b.(CommentBody.text) c in
  io_ret (newComment, comments ++ [newComment]).

(** [GET /api/tickets/:id/comments]. *)
Definition list_comments (id : string) (comments : list TicketComment)
    : list TicketComment :=
  List.filter (λ c, String.eqb c.(TicketComment.ticketId) id) comments.
End WithEnv.
End CommentStore.

Import CommentStore.

Lemma list_comments_snoc id' (cs : list TicketComment) (c : TicketComment) :
  list_comments id' (cs ++ [c]) =
    list_comments id' cs ++ (if String.eqb c.(TicketComment.ticketId) id' then [c] else []).
Proof.
  unfold list_comments. rewrite List.filter_app. simpl.
  by destruct (String.eqb _ id').
Qed.

Section Props.
Context `{Env}.

(** Adding a comment to ticket [id] appends it to the comments listed
    for [id], after the ones already there, and leaves the listing of
    every other ticket unchanged; the comment carries the next random
    draw as identifier and the next clock reading as timestamp. *)
Lemma add_comment_list (id id' : string) (b : CommentBody)
    (cs : list TicketComment) (w : io) :
  let '((c, cs'), w') := add_comment id b cs w in
  c.(TicketComment.id) = random_at (draws w) ∧
  c.(TicketComment.createdAt) = clock_at (ticks w) ∧
  list_comments id' cs' =
    list_comments id' cs ++ (if String.eqb id id' then [c] else []).
Proof.
  unfold add_comment, io_bind, io_ret, random_id, now; simpl.
  split_and!; [done|done|]. apply list_comments_snoc.
Qed.
End Props.
