(* ===== verification/Stats.v ===== *)
(** The statistics handler [GET /api/stats] of [src/server.ts]
    (lines 203-217): six counters computed afresh from the ticket array on
    each call.  The theorems say how the two mutations of the ticket
    store, creating and patching, move each counter. *)

From S2P Require Import Prelude Types Tickets.

Module Stats.
(** The [byPriority] object, keyed by the priority values. *)
Record ByPriority := mkByPriority {
  Baja : nat;
  Media : nat;
  Alta : nat;
  Critica : nat
}.

Record Stats := mkStats {
  total : nat;
  open : nat;
  inProgress : nat;
  resolved : nat;
  byPriority : ByPriority
}.
End Stats.
Abbreviation Stats := Stats.Stats.

(** [t.status === s]. *)
Definition has_status (s : TicketStatus) (t : Ticket) : bool :=
  bool_decide (t.(Ticket.status) = s).

(** [t.priority === p]. *)
Definition has_priority (p : TicketPriority) (t : Ticket) : bool :=
  bool_decide (t.(Ticket.priority) = Some p).

(** [GET /api/stats]. *)
Definition stats (tickets : list Ticket) : Stats :=
  Stats.mkStats (length tickets)
    (count_where (has_status OPEN) tickets)
    (count_where (has_status IN_PROGRESS) tickets)
    (count_where (λ t, has_status RESOLVED t || has_status CLOSED t) tickets)
    (Stats.mkByPriority
       (count_where (has_priority LOW) tickets)
       (count_where (has_priority MEDIUM) tickets)
       (count_where (has_priority HIGH) tickets)
       (count_where (has_priority CRITICAL) tickets)).

Import TicketStore.

(** How appending one ticket moves each counter. *)
Lemma stats_snoc (ts : list Ticket) (t : Ticket) :
  let s := stats ts in
  let s' := stats (ts ++ [t]) in
  let one b := if b : bool then 1 else 0 in
  Stats.total s' = Stats.total s + 1 ∧
  Stats.open s' = Stats.open s + one (has_status OPEN t) ∧
  Stats.inProgress s' = Stats.inProgress s + one (has_status IN_PROGRESS t) ∧
  Stats.resolved s' = Stats.resolved s + one (has_status RESOLVED t || has_status CLOSED t) ∧
  Stats.Baja (Stats.byPriority s') = Stats.Baja (Stats.byPriority s) + one (has_priority LOW t) ∧
  Stats.Media (Stats.byPriority s') = Stats.Media (Stats.byPriority s) + one (has_priority MEDIUM t) ∧
  Stats.Alta (Stats.byPriority s') = Stats.Alta (Stats.byPriority s) + one (has_priority HIGH t) ∧
  Stats.Critica (Stats.byPriority s') =
    Stats.Critica (Stats.byPriority s) + one (has_priority CRITICAL t).
Proof.
  unfold stats; simpl. rewrite length_app. autorewrite with tickets_rw.
  split_and!; simpl; lia || reflexivity.
Qed.

Section WithEnv.
Context `{Env}.

(** C9: creating a ticket adds one to [total], one to [inProgress] when
    an agent is pre-assigned and to [open] otherwise, nothing to
    [resolved], and one to the counter of the body's priority (none when
    the body has no priority). *)
Theorem stats_create (b : TicketBody) (ts : list Ticket) (w : io) :
  let '((t, ts'), w') := create_ticket b ts w in
  let s := stats ts in
  let s' := stats ts' in
  let bump p := if bool_decide (b.(TicketBody.priority) = Some p) then 1 else 0 in
  let assigned := js_truthy b.(TicketBody.agentId) in
  Stats.total s' = Stats.total s + 1 ∧
  Stats.open s' = Stats.open s + (if assigned then 0 else 1) ∧
  Stats.inProgress s' = Stats.inProgress s + (if assigned then 1 else 0) ∧
  Stats.resolved s' = Stats.resolved s ∧
  Stats.Baja (Stats.byPriority s') = Stats.Baja (Stats.byPriority s) + bump LOW ∧
  Stats.Media (Stats.byPriority s') = Stats.Media (Stats.byPriority s) + bump MEDIUM ∧
  Stats.Alta (Stats.byPriority s') = Stats.Alta (Stats.byPriority s) + bump HIGH ∧
  Stats.Critica (Stats.byPriority s') = Stats.Critica (Stats.byPriority s) + bump CRITICAL.
Proof.
  pose proof (create_ticket_fields b ts w) as Hs.
  destruct (create_ticket b ts w) as [[t ts'] w'].
  destruct Hs as (-> & _ & Hst & _ & Hp & _).
  pose proof (stats_snoc ts t) as Hn. cbv zeta in *.
  unfold has_status, has_priority in Hn. rewrite Hst, Hp in Hn.
  revert Hn. destruct (js_truthy _); simpl; intros Hn;
    repeat case_bool_decide; simplify_eq; lia.
Qed.
End WithEnv.

Section Patch.
Context `{ClockMonotone}.

(** C8: patching the ticket at position [i] of an invariant store leaves
    [total] unchanged and moves each counter by the patched ticket alone:
    every status and priority counter loses the old ticket if it counted
    it and gains the new one if it counts it.  The new ticket has the
    requested status and priority, when given. *)
Theorem stats_patch bound (i : nat) (b : PatchBody) (ts : list Ticket) (t : Ticket) (w : io) :
  store_ok bound ts → ts !! i = Some t →
  let '((r, ts'), _) := patch_ticket (ticket_id i) b ts w in
  ∃ t', r = Patched t' ∧
    t'.(Ticket.status) = default t.(Ticket.status) b.(PatchBody.status) ∧
    t'.(Ticket.priority) = (if b.(PatchBody.priority) is Some p then Some p else t.(Ticket.priority)) ∧
    let s := stats ts in
    let s' := stats ts' in
    let one (f : Ticket → bool) x := if f x then 1 else 0 in
    Stats.total s' = Stats.total s ∧
    Stats.open s' + one (has_status OPEN) t = Stats.open s + one (has_status OPEN) t' ∧
    Stats.inProgress s' + one (has_status IN_PROGRESS) t =
      Stats.inProgress s + one (has_status IN_PROGRESS) t' ∧
    Stats.resolved s' + one (λ x, has_status RESOLVED x || has_status CLOSED x) t =
      Stats.resolved s + one (λ x, has_status RESOLVED x || has_status CLOSED x) t' ∧
    Stats.Baja (Stats.byPriority s') + one (has_priority LOW) t =
      Stats.Baja (Stats.byPriority s) + one (has_priority LOW) t' ∧
    Stats.Media (Stats.byPriority s') + one (has_priority MEDIUM) t =
      Stats.Media (Stats.byPriority s) + one (has_priority MEDIUM) t' ∧
    Stats.Alta (Stats.byPriority s') + one (has_priority HIGH) t =
      Stats.Alta (Stats.byPriority s) + one (has_priority HIGH) t' ∧
    Stats.Critica (Stats.byPriority s') + one (has_priority CRITICAL) t =
      Stats.Critica (Stats.byPriority s) + one (has_priority CRITICAL) t'.
Proof.
  intros Hok Hi. rewrite (patch_ticket_located _ _ _ _ _ _ Hok Hi).
  pose proof (update_ticket_fields b t w) as Hu.
  destruct (update_ticket b t w) as [t' w']. destruct Hu as (_ & Hst & _ & _ & Hp & _).
  exists t'. split_and!; [done..|]. unfold stats; simpl. rewrite length_insert.
  split_and!; [done|..];
    match goal with |- count_where ?p _ + _ = _ => by apply (count_where_insert p) end.
Qed.
End Patch.

#[local] Existing Instance ticking_env.

Lemma stats_patch_witness :
  ∃ t, store_ok 3 (fst (initial_tickets (mk_io 0 0))) ∧ fst (initial_tickets (mk_io 0 0)) !! 0 = Some t ∧
  let b := PatchBody.mkPatchBody (Some RESOLVED) None None (Some LOW) (Some "a1")
             (Some "Agente IT 1") in
  let ts := fst (initial_tickets (mk_io 0 0)) in
  let w := mk_io 3 0 in
  let '((r, ts'), _) := patch_ticket (ticket_id 0) b ts w in
  ∃ t', r = Patched t' ∧
    t'.(Ticket.status) = default t.(Ticket.status) b.(PatchBody.status) ∧
    t'.(Ticket.priority) = (if b.(PatchBody.priority) is Some p then Some p else t.(Ticket.priority)) ∧
    let s := stats ts in
    let s' := stats ts' in
    let one (f : Ticket → bool) x := if f x then 1 else 0 in
    Stats.total s' = Stats.total s ∧
    Stats.open s' + one (has_status OPEN) t = Stats.open s + one (has_status OPEN) t' ∧
    Stats.inProgress s' + one (has_status IN_PROGRESS) t =
      Stats.inProgress s + one (has_status IN_PROGRESS) t' ∧
    Stats.resolved s' + one (λ x, has_status RESOLVED x || has_status CLOSED x) t =
      Stats.resolved s + one (λ x, has_status RESOLVED x || has_status CLOSED x) t' ∧
    Stats.Baja (Stats.byPriority s') + one (has_priority LOW) t =
      Stats.Baja (Stats.byPriority s) + one (has_priority LOW) t' ∧
    Stats.Media (Stats.byPriority s') + one (has_priority MEDIUM) t =
      Stats.Media (Stats.byPriority s) + one (has_priority MEDIUM) t' ∧
    Stats.Alta (Stats.byPriority s') + one (has_priority HIGH) t =
      Stats.Alta (Stats.byPriority s) + one (has_priority HIGH) t' ∧
    Stats.Critica (Stats.byPriority s') + one (has_priority CRITICAL) t =
      Stats.Critica (Stats.byPriority s) + one (has_priority CRITICAL) t'.
Proof.
  eexists.
  assert (Hok : store_ok 3 (fst (initial_tickets (mk_io 0 0))))
    by (apply store_okb_sound; vm_compute; reflexivity).
  split_and!; [exact Hok | reflexivity |]. intros b ts w.
  exact (stats_patch 3 0 b ts _ w Hok eq_refl).
Defined.
