(* ===== verification/Server.v ===== *)
(** The request dispatcher of [src/server.ts] ([startServer], lines
    67-217): the server state (the two mutable arrays; [MOCK_USERS] is
    never written after seeding), the eight routes as a [Request] type,
    the responses with their status codes, [handle] for one request, [run]
    for a sequence of requests handled one after the other (Node runs each
    synchronous handler to completion), and the reachable states as a
    step relation.  The global invariant: every reachable state's ticket
    store satisfies [store_ok] against the next clock reading. *)

From S2P Require Import Prelude Types Users Tickets Comments Stats.
Import JsObject Users TicketStore CommentStore.

Module Server.

Record Server := mkServer {
  tickets : list Ticket;
  comments : list TicketComment
}.

(** The routes registered on the Express app, with the request data each
    handler reads. *)
Inductive Request :=
| Login (username : option string)
| GetAgents
| GetTickets (userId role : option string)
| PostTicket (b : TicketBody)
| PatchTicket (id : string) (b : PatchBody)
| GetComments (id : string)
| PostComment (id : string) (b : CommentBody)
| GetStats.

(** The values handed to [res.json]. *)
Inductive Body :=
| BLogin (b : LoginBody)
| BUsers (us : list MockUser)
| BTickets (ts : list Ticket)
| BTicket (t : Ticket)
| BMessage (message : string)
| BComments (cs : list TicketComment)
| BComment (c : TicketComment)
| BStats (s : Stats).

Record Response := mkResponse { code : nat; body : Body }.

Section WithEnv.
Context `{Env}.

(** The module-level state when [startServer] runs. *)
Definition init : IO Server :=
  let! ts := initial_tickets in io_ret (mkServer ts []).

Definition handle (r : Request) (s : Server) : IO (Response * Server) :=
  match r with
  | Login u =>
      let '(c, b) := login MOCK_USERS u in io_ret (mkResponse c (BLogin b), s)
  | GetAgents => io_ret (mkResponse 200 (BUsers (list_agents MOCK_USERS)), s)
  | GetTickets uid role =>
      io_ret (mkResponse 200 (BTickets (list_tickets uid role s.(tickets))), s)
  | PostTicket b =>
      let! res := create_ticket b s.(tickets) in
      io_ret (mkResponse 201 (BTicket res.1), mkServer res.2 s.(comments))
  | PatchTicket id b =>
      let! res := patch_ticket id b s.(tickets) in
      match res.1 with
      | Patched t => io_ret (mkResponse 200 (BTicket t), mkServer res.2 s.(comments))
      | NotFound =>
          io_ret (mkResponse 404 (BMessage "Ticket no encontrado"),
                  mkServer res.2 s.(comments))
      end
  | GetComments id =>
      io_ret (mkResponse 200 (BComments (list_comments id s.(comments))), s)
  | PostComment id b =>
      let! res := add_comment id b s.(comments) in
      io_ret (mkResponse 201 (BComment res.1), mkServer s.(tickets) res.2)
  | GetStats => io_ret (mkResponse 200 (BStats (stats s.(tickets))), s)
  end.

(** Requests handled one after the other. *)
Fixpoint run (rs : list Request) (s : Server) : IO (list Response * Server) :=
  match rs with
  | [] => io_ret ([], s)
  | r :: rs' =>
      let! res := handle r s in
      let! rest := run rs' res.2 in
      io_ret (res.1 :: rest.1, rest.2)
  end.

(** The states the server can be in, with the environment readings
    made so far. *)
Inductive reachable : Server → io → Prop :=
| reachable_init w0 s w : init w0 = (s, w) → reachable s w
| reachable_step s w r resp s' w' :
    reachable s w → handle r s w = ((resp, s'), w') → reachable s' w'.

(** The global invariant: the ticket store is [store_ok] against the
    next clock reading. *)
Definition server_ok (s : Server) (w : io) : Prop :=
  store_ok (clock_at (ticks w)) s.(tickets).

(** The routes that only read the state. *)
Definition is_query (r : Request) : bool :=
  match r with
  | PostTicket _ | PatchTicket _ _ | PostComment _ _ => false
  | _ => true
  end.
End WithEnv.
End Server.

Import Server.

Section Props.
Context `{ClockMonotone}.

Lemma handle_preserves r s w resp s' w' :
  server_ok s w → handle r s w = ((resp, s'), w') → server_ok s' w'.
Proof.
  unfold server_ok. intros Hok Hh.
  destruct r as [u| |uid role|b|id b|id|id b|]; simpl in Hh; unfold io_ret in Hh.
  - destruct (login _ _). by simplify_eq.
  - by simplify_eq.
  - by simplify_eq.
  - pose proof (create_ticket_preserves b (tickets s) w Hok) as Hp.
    unfold io_bind in Hh. destruct (create_ticket b (tickets s) w) as [[t ts] w1].
    by simplify_eq/=.
  - pose proof (patch_ticket_preserves id b (tickets s) w Hok) as Hp.
    unfold io_bind in Hh. destruct (patch_ticket id b (tickets s) w) as [[[t|] ts] w1];
      by simplify_eq/=.
  - by simplify_eq.
  - unfold io_bind, add_comment, io_bind, random_id, now, io_ret in Hh. simpl in Hh.
    simplify_eq/=. eapply store_ok_mono; [|exact Hok]. clock_le.
  - by simplify_eq.
Qed.
End Props.

Section Theorems.
Context `{ClockMonotone}.

(** Module initialisation establishes the invariant. *)
Lemma init_server_ok w0 s w : init w0 = (s, w) → server_ok s w.
Proof.
  intros Hinit. pose proof (initial_tickets_ok w0) as Hok. unfold init, io_bind, io_ret in Hinit.
  destruct (initial_tickets w0) as [ts w1]. unfold server_ok. by simplify_eq/=.
Qed.

(** C1: under a monotone clock (the section's [ClockMonotone]: no
    [new Date()] reading is earlier than the one before), every
    reachable server state satisfies the store invariant: identifiers
    [T-(1001+i)] by position, non-empty chronological histories, all
    timestamps no later than the next clock reading. *)
Theorem reachable_server_ok (s : Server) (w : io) : reachable s w → server_ok s w.
Proof.
  induction 1; [by eapply init_server_ok | by eapply handle_preserves].
Qed.

Lemma run_cons r rs s w :
  run (r :: rs) s w =
    let '((resp, s1), w1) := handle r s w in
    let '((resps, s2), w2) := run rs s1 w1 in ((resp :: resps, s2), w2).
Proof.
  simpl. unfold io_bind, io_ret.
  destruct (handle r s w) as [[resp s1] w1]. simpl.
  by destruct (run rs s1 w1) as [[resps s2] w2].
Qed.

Lemma handle_post_ticket b s w :
  handle (PostTicket b) s w =
    let '((t, ts), w') := create_ticket b s.(tickets) w in
    ((mkResponse 201 (BTicket t), mkServer ts s.(comments)), w').
Proof. simpl. unfold io_bind, io_ret. by destruct (create_ticket b (tickets s) w) as [[]]. Qed.

(** On an invariant store, [PATCH] of the identifier of position [i]
    answers 200 with the ticket updated in place. *)
Lemma handle_patch_located i b s w t :
  server_ok s w → s.(tickets) !! i = Some t →
  handle (PatchTicket (ticket_id i) b) s w =
    let '(t', w') := update_ticket b t w in
    ((mkResponse 200 (BTicket t'), mkServer (<[i := t']> s.(tickets)) s.(comments)), w').
Proof.
  intros Hok Hi. cbn [handle]. unfold io_bind.
  rewrite (patch_ticket_located _ _ _ _ _ _ Hok Hi). by destruct (update_ticket b t w).
Qed.

(** C3: [POST /api/tickets] answers 201 with the created ticket and
    appends it to the store, comments untouched.  Every field of the new
    ticket is determined: its identifier is [T-(1001 + n)] for a store
    of [n] tickets; its status is [IN_PROGRESS] exactly when a truthy
    [agentId] is given and [OPEN] otherwise; title, description,
    priority, category, the four creator fields, station, area and the
    agent pair are the body's, whatever they are; [createdAt] and
    [updatedAt] are two successive clock readings and [resolvedAt] is
    unset; the history is the entry "Ticket creado" by the creator at
    the third reading, followed, when an agent is given, by
    "Asignado a <agentName> al crear" by the creator at the fourth. *)
Theorem post_ticket_spec (b : TicketBody) (s : Server) (w : io) :
  let '((resp, s'), w') := handle (PostTicket b) s w in
  ∃ t, resp = mkResponse 201 (BTicket t) ∧
    s'.(tickets) = s.(tickets) ++ [t] ∧ s'.(comments) = s.(comments) ∧
    t.(Ticket.id) = ticket_id (length s.(tickets)) ∧
    t.(Ticket.status) = (if js_truthy b.(TicketBody.agentId) then IN_PROGRESS else OPEN) ∧
    t.(Ticket.title) = b.(TicketBody.title) ∧
    t.(Ticket.description) = b.(TicketBody.description) ∧
    t.(Ticket.priority) = b.(TicketBody.priority) ∧
    t.(Ticket.category) = b.(TicketBody.category) ∧
    t.(Ticket.creatorId) = b.(TicketBody.creatorId) ∧
    t.(Ticket.creatorName) = b.(TicketBody.creatorName) ∧
    t.(Ticket.creatorEmail) = b.(TicketBody.creatorEmail) ∧
    t.(Ticket.creatorDept) = b.(TicketBody.creatorDept) ∧
    t.(Ticket.station) = b.(TicketBody.station) ∧
    t.(Ticket.area) = b.(TicketBody.area) ∧
    t.(Ticket.agentId) = b.(TicketBody.agentId) ∧
    t.(Ticket.agentName) = b.(TicketBody.agentName) ∧
    t.(Ticket.createdAt) = clock_at (ticks w) ∧
    t.(Ticket.updatedAt) = clock_at (S (ticks w)) ∧
    t.(Ticket.resolvedAt) = None ∧
    t.(Ticket.history) =
      entry "Ticket creado" b.(TicketBody.creatorId) b.(TicketBody.creatorName)
        (clock_at (S (S (ticks w)))) ::
      (if js_truthy b.(TicketBody.agentId)
       then [entry ("Asignado a " +:+ js_template b.(TicketBody.agentName) +:+ " al crear")
               b.(TicketBody.creatorId) b.(TicketBody.creatorName) (clock_at (S (S (S (ticks w)))))]
       else []).
Proof.
  rewrite handle_post_ticket.
  unfold create_ticket, new_ticket, io_bind, io_ret, now; simpl.
  destruct (js_truthy _); eexists; split_and!; reflexivity.
Qed.

(** C2: [PATCH /api/tickets/T-(1001+i)] on a server in an invariant state
    answers 200 with the updated ticket, written back at position [i].
    Every field of the result is determined: the status and the
    priority are overwritten when given; [agentId] and [agentName] are
    both overwritten when [agentId] is truthy, [agentName] with the
    body's value even when that is missing; [updatedAt] takes the next
    clock reading; one history entry is appended (the action of
    [patch_action], by the body's user, at the reading after); and
    [resolvedAt] is stamped with the third reading exactly when the
    requested status is [RESOLVED] or [CLOSED].  Identifier, title,
    description, category, the creator fields, station, area and
    [createdAt] are the stored ticket's. *)
Theorem patch_ticket_spec (i : nat) (b : PatchBody) (s : Server) (w : io) (t : Ticket) :
  server_ok s w → s.(tickets) !! i = Some t →
  let '((resp, s'), w') := handle (PatchTicket (ticket_id i) b) s w in
  ∃ t', resp = mkResponse 200 (BTicket t') ∧
    s'.(tickets) = <[i := t']> s.(tickets) ∧ s'.(comments) = s.(comments) ∧
    t'.(Ticket.status) = default t.(Ticket.status) b.(PatchBody.status) ∧
    t'.(Ticket.agentId) =
      (if js_truthy b.(PatchBody.agentId) then b.(PatchBody.agentId) else t.(Ticket.agentId)) ∧
    t'.(Ticket.agentName) =
      (if js_truthy b.(PatchBody.agentId) then b.(PatchBody.agentName) else t.(Ticket.agentName)) ∧
    t'.(Ticket.priority) =
      (if b.(PatchBody.priority) is Some p then Some p else t.(Ticket.priority)) ∧
    t'.(Ticket.updatedAt) = clock_at (ticks w) ∧
    t'.(Ticket.history) = t.(Ticket.history) ++
      [entry (patch_action t.(Ticket.status) b) b.(PatchBody.userId) b.(PatchBody.userName)
             (clock_at (S (ticks w)))] ∧
    t'.(Ticket.resolvedAt) =
      (if resolves b.(PatchBody.status) then Some (clock_at (S (S (ticks w))))
       else t.(Ticket.resolvedAt)) ∧
    t'.(Ticket.id) = t.(Ticket.id) ∧ t'.(Ticket.title) = t.(Ticket.title) ∧
    t'.(Ticket.description) = t.(Ticket.description) ∧
    t'.(Ticket.category) = t.(Ticket.category) ∧
    t'.(Ticket.creatorId) = t.(Ticket.creatorId) ∧
    t'.(Ticket.creatorName) = t.(Ticket.creatorName) ∧
    t'.(Ticket.creatorEmail) = t.(Ticket.creatorEmail) ∧
    t'.(Ticket.creatorDept) = t.(Ticket.creatorDept) ∧
    t'.(Ticket.station) = t.(Ticket.station) ∧ t'.(Ticket.area) = t.(Ticket.area) ∧
    t'.(Ticket.createdAt) = t.(Ticket.createdAt).
Proof.
  intros Hok Hi. cbn [handle]. unfold io_bind.
  rewrite (patch_ticket_located _ _ _ _ _ _ Hok Hi).
  unfold update_ticket, apply_fields, io_bind, io_ret, now; simpl.
  destruct (PatchBody.status b), (js_truthy _), (PatchBody.priority b), (resolves _);
    eexists; split_and!; reflexivity.
Qed.

(** Handling any sequence of requests from a reachable state, one
    after the other, ends in a reachable state. *)
Theorem run_reachable (rs : list Request) s w resps s' w' :
  reachable s w → run rs s w = ((resps, s'), w') → reachable s' w'.
Proof.
  revert s w resps. induction rs as [|r rs IH]; intros s w resps Hr Hrun.
  - simpl in Hrun. unfold io_ret in Hrun. by simplify_eq.
  - rewrite run_cons in Hrun.
    destruct (handle r s w) as [[resp s1] w1] eqn:Hh.
    destruct (run rs s1 w1) as [[resps' s2] w2] eqn:Hrs. simplify_eq.
    eapply IH; [|exact Hrs]. by eapply reachable_step.
Qed.

(** The login, agents, ticket listing, comment listing and statistics
    routes change neither the state nor the environment readings. *)
Lemma query_readonly (r : Request) (s : Server) (w : io) :
  is_query r = true → ∃ resp, handle r s w = ((resp, s), w).
Proof.
  destruct r; simpl; intros Hq; try done; try (eexists; reflexivity).
  destruct (login _ _). eexists. reflexivity.
Qed.

(** C4: [PATCH] on an identifier no stored ticket has answers 404 with the
    message "Ticket no encontrado" and changes neither the state nor the
    environment readings. *)
Theorem patch_unknown_404 (id : string) (b : PatchBody) (s : Server) (w : io) :
  Forall (λ t, t.(Ticket.id) ≠ id) s.(tickets) →
  handle (PatchTicket id b) s w =
    ((mkResponse 404 (BMessage "Ticket no encontrado"), s), w).
Proof.
  intros Hall. simpl. unfold io_bind.
  rewrite (patch_ticket_absent id b (tickets s) w Hall). by destruct s.
Qed.

(** C5: a comment posted to ticket [id] is answered 201 with the
    comment built from the body (the next random draw as identifier, the
    next clock reading as [createdAt], the body's user and text), and
    the ticket store is untouched; listing the comments of any ticket
    afterwards answers 200 with the ones listed before, followed by the
    new comment exactly when the ticket listed is [id]. *)
Theorem comment_roundtrip (id : string) (b : CommentBody) (s : Server) (w : io) :
  let cm := TicketComment.mkTicketComment (random_at (draws w)) id b.(CommentBody.userId)
              b.(CommentBody.userName) b.(CommentBody.text) (clock_at (ticks w)) in
  let '((resp, s'), w') := handle (PostComment id b) s w in
  resp = mkResponse 201 (BComment cm) ∧ s'.(tickets) = s.(tickets) ∧
  ∀ id', (handle (GetComments id') s' w').1.1 =
           mkResponse 200 (BComments (list_comments id' s.(comments) ++
                                      (if String.eqb id id' then [cm] else []))).
Proof.
  cbn [handle]. unfold io_bind, add_comment, io_bind, random_id, now, io_ret. simpl.
  split_and!; [done | done |]. intros id'. by rewrite list_comments_snoc.
Qed.


(** From the seeded store, creating three tickets of priorities
    [Baja], [Alta], [Alta] and then asking for the statistics answers
    [total = 4], [Baja = 1] and [Alta = 3]: the seeded ticket [T-1001]
    has priority [Alta] and is counted too. *)
Theorem stats_after_three_creations (b1 b2 b3 : TicketBody) (w0 : io) :
  b1.(TicketBody.priority) = Some LOW → b2.(TicketBody.priority) = Some HIGH →
  b3.(TicketBody.priority) = Some HIGH →
  let '(s0, w) := init w0 in
  let '((resps, s'), w') :=
    run [PostTicket b1; PostTicket b2; PostTicket b3; GetStats] s0 w in
  last resps = Some (mkResponse 200 (BStats (stats s'.(tickets)))) ∧
  Stats.total (stats s'.(tickets)) = 4 ∧
  Stats.Baja (Stats.byPriority (stats s'.(tickets))) = 1 ∧
  Stats.Alta (Stats.byPriority (stats s'.(tickets))) = 3.
Proof.
  intros H1 H2 H3. unfold init, io_bind, io_ret.
  destruct (initial_tickets w0) as [ts0 w] eqn:Hi.
  assert (Hs0 : Stats.total (stats ts0) = 1 ∧
                Stats.Baja (Stats.byPriority (stats ts0)) = 0 ∧
                Stats.Alta (Stats.byPriority (stats ts0)) = 1).
  { unfold initial_tickets, io_bind, io_ret in Hi. simplify_eq/=. done. }
  rewrite run_cons, handle_post_ticket. simpl tickets.
  pose proof (create_ticket_fields b1 ts0 w) as E1.
  destruct (create_ticket b1 ts0 w) as [[t1 ts1] w1].
  rewrite run_cons, handle_post_ticket. simpl tickets.
  pose proof (create_ticket_fields b2 ts1 w1) as E2.
  destruct (create_ticket b2 ts1 w1) as [[t2 ts2] w2].
  rewrite run_cons, handle_post_ticket. simpl tickets.
  pose proof (create_ticket_fields b3 ts2 w2) as E3.
  destruct (create_ticket b3 ts2 w2) as [[t3 ts3] w3]. simpl.
  destruct E1 as (-> & _ & _ & _ & P1 & _), E2 as (-> & _ & _ & _ & P2 & _),
           E3 as (-> & _ & _ & _ & P3 & _).
  pose proof (stats_snoc ts0 t1) as S1. pose proof (stats_snoc (ts0 ++ [t1]) t2) as S2.
  pose proof (stats_snoc ((ts0 ++ [t1]) ++ [t2]) t3) as S3. cbv zeta in S1, S2, S3.
  unfold has_priority in S1, S2, S3. rewrite P1, H1 in S1. rewrite P2, H2 in S2.
  rewrite P3, H3 in S3. simpl in S1, S2, S3.
  split_and!; [done | | |]; unfold stats in *; simpl in *; lia.
Qed.
End Theorems.

(** ** Witnesses: the seeded server in the environment whose clock
    advances one millisecond per reading. *)

#[local] Existing Instance ticking_env.

Lemma reachable_server_ok_witness :
  reachable (fst (init (mk_io 0 0))) (snd (init (mk_io 0 0))) ∧
  server_ok (fst (init (mk_io 0 0))) (snd (init (mk_io 0 0))).
Proof.
  assert (Hr : reachable (fst (init (mk_io 0 0))) (snd (init (mk_io 0 0)))).
  { apply (reachable_init (mk_io 0 0)). reflexivity. }
  split; [exact Hr | exact (reachable_server_ok _ _ Hr)].
Defined.

Lemma patch_ticket_spec_witness :
  ∃ t, (fst (init (mk_io 0 0))).(tickets) !! 0 = Some t ∧
  server_ok (fst (init (mk_io 0 0))) (mk_io 3 0) ∧
  let b := PatchBody.mkPatchBody (Some RESOLVED) (Some "a1") (Some "Agente IT 1") (Some LOW)
             (Some "a1") (Some "Agente IT 1") in
  let s := fst (init (mk_io 0 0)) in
  let w := mk_io 3 0 in
  let '((resp, s'), w') := handle (PatchTicket (ticket_id 0) b) s w in
  ∃ t', resp = mkResponse 200 (BTicket t') ∧
    s'.(tickets) = <[0 := t']> s.(tickets) ∧ s'.(comments) = s.(comments) ∧
    t'.(Ticket.status) = default t.(Ticket.status) b.(PatchBody.status) ∧
    t'.(Ticket.agentId) =
      (if js_truthy b.(PatchBody.agentId) then b.(PatchBody.agentId) else t.(Ticket.agentId)) ∧
    t'.(Ticket.agentName) =
      (if js_truthy b.(PatchBody.agentId) then b.(PatchBody.agentName) else t.(Ticket.agentName)) ∧
    t'.(Ticket.priority) =
      (if b.(PatchBody.priority) is Some p then Some p else t.(Ticket.priority)) ∧
    t'.(Ticket.updatedAt) = clock_at (ticks w) ∧
    t'.(Ticket.history) = t.(Ticket.history) ++
      [entry (patch_action t.(Ticket.status) b) b.(PatchBody.userId) b.(PatchBody.userName)
             (clock_at (S (ticks w)))] ∧
    t'.(Ticket.resolvedAt) =
      (if resolves b.(PatchBody.status) then Some (clock_at (S (S (ticks w))))
       else t.(Ticket.resolvedAt)) ∧
    t'.(Ticket.id) = t.(Ticket.id) ∧ t'.(Ticket.title) = t.(Ticket.title) ∧
    t'.(Ticket.description) = t.(Ticket.description) ∧
    t'.(Ticket.category) = t.(Ticket.category) ∧
    t'.(Ticket.creatorId) = t.(Ticket.creatorId) ∧
    t'.(Ticket.creatorName) = t.(Ticket.creatorName) ∧
    t'.(Ticket.creatorEmail) = t.(Ticket.creatorEmail) ∧
    t'.(Ticket.creatorDept) = t.(Ticket.creatorDept) ∧
    t'.(Ticket.station) = t.(Ticket.station) ∧ t'.(Ticket.area) = t.(Ticket.area) ∧
    t'.(Ticket.createdAt) = t.(Ticket.createdAt).
Proof.
  eexists. split; [reflexivity|].
  assert (Hok : server_ok (fst (init (mk_io 0 0))) (mk_io 3 0)).
  { apply store_okb_sound. vm_compute. reflexivity. }
  split; [exact Hok|]. intros b s w.
  exact (patch_ticket_spec 0 b s w _ Hok eq_refl).
Defined.

Lemma patch_unknown_404_witness :
  handle (PatchTicket "T-2000" (PatchBody.mkPatchBody (Some CLOSED) None None None None None))
    (fst (init (mk_io 0 0))) (mk_io 3 0) =
  ((mkResponse 404 (BMessage "Ticket no encontrado"), fst (init (mk_io 0 0))), mk_io 3 0).
Proof. apply patch_unknown_404. decide_by_eval. Defined.


