(* ===== verification/Client.v ===== *)
(** The React client of [src/src/App.tsx] (lines 115-331 and the action
    guards of lines 704-737): its state (the [useState] hooks), the event
    handlers that call the API, and what they do with the answers.

    A handler is a [Prog]: a sequence of React state updates ([setX(v)],
    the [Update] type) and [fetch] calls, each continued by what the
    handler does with the server's [Response].  [exec] runs a program
    against the server model of [Server.v], so the theorems of this file
    are end-to-end: a click in the client, the requests it sends, the
    handlers of the server and the state both sides end in.  Calls that
    the handlers start without [await] ([fetchTickets()], [fetchStats()])
    run after the handler's own request, in the order they are called;
    the network does not fail.  The JSX markup is not modelled. *)

From S2P Require Import Prelude Types Users Tickets Comments Stats Server.
Import JsObject Users TicketStore CommentStore Server.

Module Client.

(** The user object the client keeps: the JSON body of the login answer,
    whose fields are [undefined] when the answer was [{}]. *)
Module ClientUser.
Record ClientUser := mkClientUser {
  id : option string;
  username : option string;
  fullName : option string;
  role : option string;
  department : option string;
  email : option string
}.
End ClientUser.
Abbreviation ClientUser := ClientUser.ClientUser.

#[export] Instance ClientUser_eq_dec : EqDecision ClientUser.
Proof. solve_decision. Defined.

Definition user_of_login (b : LoginBody) : option ClientUser :=
  match b with
  | LoginUser u =>
      Some (ClientUser.mkClientUser (Some u.(User.id)) (Some u.(User.username))
              (Some u.(User.fullName)) (Some (UserRole_value u.(User.role)))
              (Some u.(User.department)) (Some u.(User.email)))
  | LoginEmpty => Some (ClientUser.mkClientUser None None None None None None)
  | LoginMessage _ => None
  end.

Inductive View := Landing | LoginView | Dashboard.

#[export] Instance View_eq_dec : EqDecision View.
Proof. solve_decision. Defined.

(** The [useState] hooks of [App]. *)
Record ClientState := mkClientState {
  view : View;
  selectedRole : option UserRole;
  user : option ClientUser;
  tickets : list Ticket;
  selectedTicket : option Ticket;
  isCreating : bool;
  stats : option Stats;
  loading : bool;
  commentText : string;
  comments : list TicketComment;
  agents : list MockUser;
  selectedStation : string;
  availableAreas : list string
}.

(** The setters the handlers call. *)
Inductive Update :=
| SetView (v : View)
| SetSelectedRole (r : option UserRole)
| SetUser (u : option ClientUser)
| SetTickets (ts : list Ticket)
| SetSelectedTicket (t : option Ticket)
| SetIsCreating (b : bool)
| SetStats (s : option Stats)
| SetLoading (b : bool)
| SetCommentText (s : string)
| SetComments (cs : list TicketComment)
| SetAgents (a : list MockUser)
| SetSelectedStation (s : string)
| SetAvailableAreas (a : list string).

Definition apply_update (u : Update) (c : ClientState) : ClientState :=
  let 'mkClientState v r us ts sel cr st ld ct cms ag ss ar := c in
  match u with
  | SetView v' => mkClientState v' r us ts sel cr st ld ct cms ag ss ar
  | SetSelectedRole r' => mkClientState v r' us ts sel cr st ld ct cms ag ss ar
  | SetUser us' => mkClientState v r us' ts sel cr st ld ct cms ag ss ar
  | SetTickets ts' => mkClientState v r us ts' sel cr st ld ct cms ag ss ar
  | SetSelectedTicket sel' => mkClientState v r us ts sel' cr st ld ct cms ag ss ar
  | SetIsCreating cr' => mkClientState v r us ts sel cr' st ld ct cms ag ss ar
  | SetStats st' => mkClientState v r us ts sel cr st' ld ct cms ag ss ar
  | SetLoading ld' => mkClientState v r us ts sel cr st ld' ct cms ag ss ar
  | SetCommentText ct' => mkClientState v r us ts sel cr st ld ct' cms ag ss ar
  | SetComments cms' => mkClientState v r us ts sel cr st ld ct cms' ag ss ar
  | SetAgents ag' => mkClientState v r us ts sel cr st ld ct cms ag' ss ar
  | SetSelectedStation ss' => mkClientState v r us ts sel cr st ld ct cms ag ss' ar
  | SetAvailableAreas ar' => mkClientState v r us ts sel cr st ld ct cms ag ss ar'
  end.

(** A handler: state updates and requests, each request continued by what
    is done with its answer. *)
Inductive Prog :=
| Done
| Upd (u : Update) (k : Prog)
| Fetch (r : Request) (k : Response → Prog).

(** [p] and then [q]: a call started after [p]'s last step. *)
Fixpoint seq_prog (p q : Prog) : Prog :=
  match p with
  | Done => q
  | Upd u k => Upd u (seq_prog k q)
  | Fetch r k => Fetch r (λ res, seq_prog (k res) q)
  end.

(** [res.ok]: a status code in [200, 299]. *)
Definition res_ok (res : Response) : bool := (200 <=? res.(code)) && (res.(code) <=? 299).

Section WithEnv.
Context `{Env}.

(** The client and the server, one request at a time. *)
Fixpoint exec (p : Prog) (c : ClientState) (s : Server) : IO (ClientState * Server) :=
  match p with
  | Done => io_ret (c, s)
  | Upd u k => exec k (apply_update u c) s
  | Fetch r k =>
      let! res := handle r s in
      exec (k res.1) c res.2
  end.
End WithEnv.

(** [STATION_AREAS] of [App]. *)
Definition STATION_AREAS : obj (list string) :=
  [("Estación 1", ["Ventas"; "Auditoría"; "Caja"]);
   ("Estación 2", ["Almacén"; "Logística"; "Despacho"]);
   ("Estación 3", ["Recursos Humanos"; "Contabilidad"; "Legal"]);
   ("Estación 4", ["Gerencia"; "Dirección"; "IT"])].

(** [handleStationChange]: the station [select] offers the four own keys
    of [STATION_AREAS] and the empty option. *)
Definition handleStationChange (station : string) : Prog :=
  Upd (SetSelectedStation station)
    (Upd (SetAvailableAreas
            (match js_get station STATION_AREAS with Own a => a | _ => [] end)) Done).

(** The fields [handleCreateTicket] reads with [formData.get]; [None] is
    a field the form did not submit. *)
Module TicketForm.
Record TicketForm := mkTicketForm {
  title : option string;
  description : option string;
  priority : option string;
  category : option string;
  station : option string;
  area : option string;
  agentId : option string
}.
End TicketForm.
Abbreviation TicketForm := TicketForm.TicketForm.

(** [handleLogin]. *)
Definition handleLogin (username : string) : Prog :=
  Upd (SetLoading true)
    (Fetch (Login (Some username)) (λ res,
       seq_prog
         (if res_ok res then
            match res.(body) with
            | BLogin b => Upd (SetUser (user_of_login b)) (Upd (SetView Dashboard) Done)
            | _ => Done
            end
          else Done)
         (Upd (SetLoading false) Done))).

(** [fetchTickets], with the [user] of the render that created it. *)
Definition fetchTickets (c : ClientState) : Prog :=
  match c.(user) with
  | None => Done
  | Some u =>
      Fetch (GetTickets (Some (js_template u.(ClientUser.id)))
                        (Some (js_template u.(ClientUser.role))))
        (λ res, match res.(body) with
                | BTickets ts => Upd (SetTickets ts) Done
                | _ => Upd (SetTickets []) Done
                end)
  end.

(** [fetchStats]: only for a user whose role is [admin]. *)
Definition fetchStats (c : ClientState) : Prog :=
  if bool_decide ((c.(user) ≫= ClientUser.role) = Some (UserRole_value ADMIN)) then
    Fetch GetStats (λ res, match res.(body) with
                           | BStats st => Upd (SetStats (Some st)) Done
                           | _ => Done
                           end)
  else Done.

Definition fetchComments (ticketId : string) : Prog :=
  Fetch (GetComments ticketId) (λ res, match res.(body) with
                                       | BComments cs => Upd (SetComments cs) Done
                                       | _ => Upd (SetComments []) Done
                                       end).

Definition fetchAgents : Prog :=
  Fetch GetAgents (λ res, match res.(body) with
                          | BUsers us => Upd (SetAgents us) Done
                          | _ => Done
                          end).

(** [handleAddComment]. *)
Definition handleAddComment (c : ClientState) : Prog :=
  match c.(user), c.(selectedTicket) with
  | Some u, Some t =>
      if String.eqb (js_trim c.(commentText)) "" then Done else
      Fetch (PostComment t.(Ticket.id)
               (CommentBody.mkCommentBody u.(ClientUser.id) u.(ClientUser.fullName)
                  (Some c.(commentText))))
        (λ res, if res_ok res
                then Upd (SetCommentText "") (fetchComments t.(Ticket.id))
                else Done)
  | _, _ => Done
  end.

(** The [newTicket] object [handleCreateTicket] posts: the agent is
    looked up in the listed agents, the priority is the wire value the
    [select] submitted. *)
Definition ticket_body (c : ClientState) (u : ClientUser) (f : TicketForm) : TicketBody :=
  let agent := List.find (λ a, bool_decide (Some a.(MockUser.id) = f.(TicketForm.agentId)))
                 c.(agents) in
  TicketBody.mkTicketBody f.(TicketForm.title) f.(TicketForm.description)
    (f.(TicketForm.priority) ≫= TicketPriority_of_value) f.(TicketForm.category)
    u.(ClientUser.id) u.(ClientUser.fullName) u.(ClientUser.email)
    u.(ClientUser.department) (MockUser.id <$> agent) (MockUser.fullName <$> agent)
    f.(TicketForm.station) f.(TicketForm.area).

Definition handleCreateTicket (c : ClientState) (f : TicketForm) : Prog :=
  match c.(user) with
  | None => Done
  | Some u =>
      Fetch (PostTicket (ticket_body c u f))
        (λ res, if res_ok res then Upd (SetIsCreating false) (fetchTickets c) else Done)
  end.

(** [updateTicketStatus]. *)
Definition updateTicketStatus (c : ClientState) (ticketId : string) (status : TicketStatus)
    : Prog :=
  match c.(user) with
  | None => Done
  | Some u =>
      Fetch (PatchTicket ticketId
               (PatchBody.mkPatchBody (Some status) None None None
                  u.(ClientUser.id) u.(ClientUser.fullName)))
        (λ res, if res_ok res then
                  match res.(body) with
                  | BTicket t =>
                      Upd (SetSelectedTicket (Some t))
                        (seq_prog (fetchTickets c) (fetchStats c))
                  | _ => Done
                  end
                else Done)
  end.

(** [assignToMe]: the "Tomar Ticket" button. *)
Definition assignToMe (c : ClientState) (ticketId : string) : Prog :=
  match c.(user) with
  | None => Done
  | Some u =>
      Fetch (PatchTicket ticketId
               (PatchBody.mkPatchBody (Some IN_PROGRESS) u.(ClientUser.id)
                  u.(ClientUser.fullName) None u.(ClientUser.id) u.(ClientUser.fullName)))
        (λ res, if res_ok res then
                  match res.(body) with
                  | BTicket t => Upd (SetSelectedTicket (Some t)) (fetchTickets c)
                  | _ => Done
                  end
                else Done)
  end.

(** The [useEffect] on [[view, user]]: entering the dashboard loads the
    tickets, the statistics and the agents. *)
Definition dashboard_effect (c : ClientState) : Prog :=
  match c.(view) with
  | Dashboard => seq_prog (fetchTickets c) (seq_prog (fetchStats c) fetchAgents)
  | _ => Done
  end.

(** The guards of the ticket detail's action bar. *)
Definition show_actions (c : ClientState) (t : Ticket) : bool :=
  negb (bool_decide ((c.(user) ≫= ClientUser.role) = Some (UserRole_value USER))) &&
  negb (bool_decide (t.(Ticket.status) = CLOSED)).

Definition show_take (t : Ticket) : bool := negb (js_truthy t.(Ticket.agentId)).

Definition show_agent_buttons (c : ClientState) (t : Ticket) : bool :=
  bool_decide (t.(Ticket.agentId) = c.(user) ≫= ClientUser.id).
End Client.

Import Client.

Section Exec.
Context `{Env}.

Lemma exec_seq_prog p q c s w :
  exec (seq_prog p q) c s w =
    let '((c1, s1), w1) := exec p c s w in exec q c1 s1 w1.
Proof.
  revert c s w. induction p as [|u k IH|r k IH]; intros c s w; simpl.
  - done.
  - apply IH.
  - unfold io_bind. destruct (handle r s w) as [[res s1] w1]. apply IH.
Qed.

(** [fetchTickets] reads the server and stores the listing the role
    filter of the server answers. *)
Lemma exec_fetchTickets c c1 s w :
  exec (fetchTickets c) c1 s w =
    ((match c.(user) with
      | None => c1
      | Some u =>
          apply_update (SetTickets (list_tickets (Some (js_template u.(ClientUser.id)))
                                      (Some (js_template u.(ClientUser.role)))
                                      s.(Server.tickets))) c1
      end, s), w).
Proof. unfold fetchTickets. by destruct (user c). Qed.

Lemma exec_fetchStats c c1 s w :
  exec (fetchStats c) c1 s w =
    ((if bool_decide ((c.(user) ≫= ClientUser.role) = Some (UserRole_value ADMIN))
      then apply_update (SetStats (Some (Stats.stats s.(Server.tickets)))) c1 else c1, s), w).
Proof. unfold fetchStats. by case_bool_decide. Qed.

(** Filing a ticket: the server appends the ticket built from the form,
    and the client closes the form and reloads its list. *)
Lemma exec_handleCreateTicket c u f s w :
  c.(user) = Some u →
  exec (handleCreateTicket c f) c s w =
    let '((t, ts), w1) := create_ticket (ticket_body c u f) s.(Server.tickets) w in
    exec (fetchTickets c) (apply_update (SetIsCreating false) c)
      (mkServer ts s.(Server.comments)) w1.
Proof.
  intros Hu. unfold handleCreateTicket. rewrite Hu. cbn [exec]. unfold io_bind.
  rewrite handle_post_ticket. by destruct (create_ticket _ _ _) as [[t ts] w1].
Qed.

End Exec.

Section EndToEnd.
Context `{ClockMonotone}.

(** A request [PATCH /api/tickets/T-(1001+i)] from the client, on a
    server in an invariant state whose position [i] holds [t]: the server
    answers 200 with [t] updated and stores it back at position [i]. *)
Lemma exec_patch_located (b : PatchBody) (k : Response → Prog) c s w i t :
  server_ok s w → s.(Server.tickets) !! i = Some t →
  exec (Fetch (PatchTicket (ticket_id i) b) k) c s w =
    let '(t', w1) := update_ticket b t w in
    exec (k (mkResponse 200 (BTicket t'))) c
      (mkServer (<[i := t']> s.(Server.tickets)) s.(Server.comments)) w1.
Proof.
  intros Hok Hi. cbn [exec handle]. unfold io_bind.
  rewrite (patch_ticket_located _ _ _ _ _ _ Hok Hi).
  by destruct (update_ticket b t w).
Qed.

(** C25: the "Tomar Ticket" button, end to end: for a logged-in user with
    a (truthy) id, on a server in an invariant state, taking the ticket
    [T-(1001+i)] updates position [i] of the server's array in place:
    the ticket's agent becomes the user, its status [IN_PROGRESS], and
    exactly one history entry is appended, the assignment message (the
    status change is not recorded); the client shows the updated
    ticket. *)
Theorem assignToMe_end_to_end (c : ClientState) (u : ClientUser) (s : Server) (w : io)
    (i : nat) (t : Ticket) :
  c.(user) = Some u → js_truthy u.(ClientUser.id) = true →
  server_ok s w → s.(Server.tickets) !! i = Some t →
  let '((c', s'), w') := exec (assignToMe c (ticket_id i)) c s w in
  ∃ t', s'.(Server.tickets) = <[i := t']> s.(Server.tickets) ∧
    c'.(selectedTicket) = Some t' ∧
    t'.(Ticket.agentId) = u.(ClientUser.id) ∧
    t'.(Ticket.agentName) = u.(ClientUser.fullName) ∧
    t'.(Ticket.status) = IN_PROGRESS ∧
    (HistoryEntry.action <$> t'.(Ticket.history)) =
      (HistoryEntry.action <$> t.(Ticket.history)) ++
      ["Asignado a " +:+ js_template u.(ClientUser.fullName)].
Proof.
  intros Hu Hid Hok Hi. unfold assignToMe. rewrite Hu, (exec_patch_located _ _ _ _ _ _ _ Hok Hi).
  pose proof (update_ticket_fields
    (PatchBody.mkPatchBody (Some IN_PROGRESS) (ClientUser.id u) (ClientUser.fullName u) None
       (ClientUser.id u) (ClientUser.fullName u)) t w) as Hs.
  destruct (update_ticket _ t w) as [t' w1]. simpl.
  rewrite exec_fetchTickets, Hu. simpl.
  destruct Hs as (_ & Hst & Hag & Han & _ & _ & _ & _ & Hh & _).
  simpl in *. rewrite Hid in Hag, Han.
  exists t'. split_and!; try done.
  - by destruct c.
  - rewrite Hh, fmap_app. unfold patch_action. simpl. by rewrite Hid.
Qed.

(** An agent's ticket list holds exactly the tickets already
    assigned to that agent: a ticket created without an agent appears in
    no agent's list (only the admin's whole-array listing shows it). *)
Lemma agent_inbox_only_assigned (c : ClientState) (u : ClientUser) (a : string)
    (s : Server) (w : io) :
  c.(user) = Some u → u.(ClientUser.role) = Some (UserRole_value AGENT) →
  u.(ClientUser.id) = Some a →
  let '((c', s'), w') := exec (fetchTickets c) c s w in
  s' = s ∧ w' = w ∧
  ∀ t, t ∈ c'.(tickets) ↔ t ∈ s.(Server.tickets) ∧ t.(Ticket.agentId) = Some a.
Proof.
  intros Hu Hr Hi. rewrite exec_fetchTickets, Hu, Hr, Hi. simpl.
  split_and!; [done | done |]. intros t. destruct c; simpl.
  rewrite list_tickets_agent, elem_of_List_filter, bool_decide_eq_true. done.
Qed.

(** C26: a user who files a ticket from the form finds it in their list
    afterwards, and that list holds only tickets they created. *)
Theorem create_then_listed (c : ClientState) (u : ClientUser) (uid : string)
    (f : TicketForm) (s : Server) (w : io) :
  c.(user) = Some u → u.(ClientUser.role) = Some (UserRole_value USER) →
  u.(ClientUser.id) = Some uid →
  let '((c', s'), w') := exec (handleCreateTicket c f) c s w in
  ∃ t, s'.(Server.tickets) = s.(Server.tickets) ++ [t] ∧
    t.(Ticket.creatorId) = Some uid ∧ c'.(isCreating) = false ∧
    t ∈ c'.(tickets) ∧ ∀ t', t' ∈ c'.(tickets) → t'.(Ticket.creatorId) = Some uid.
Proof.
  intros Hu Hr Hi. rewrite (exec_handleCreateTicket _ _ _ _ _ Hu).
  pose proof (create_ticket_fields (ticket_body c u f) (Server.tickets s) w) as Hc.
  destruct (create_ticket _ _ _) as [[t ts'] w1].
  destruct Hc as (-> & _ & _ & _ & _ & Hcr & _). simpl in Hcr.
  rewrite exec_fetchTickets, Hu, Hr, Hi. simpl. rewrite list_tickets_user.
  exists t. destruct c; simpl. rewrite Hi in Hcr.
  split_and!; [done | done | done | |].
  - apply elem_of_List_filter. split; [apply elem_of_app; right; by left|].
    by apply bool_decide_eq_true.
  - intros t' [_ Ht']%elem_of_List_filter. by apply bool_decide_eq_true in Ht'.
Qed.

(** C27: a ticket filed from the form is created [IN_PROGRESS] exactly when
    the form's agent id is the id of one of the agents the client listed
    (and that id is not empty), and [OPEN] otherwise; its priority is
    the [select]'s wire value read back as a priority. *)
Theorem handleCreateTicket_status (c : ClientState) (u : ClientUser) (f : TicketForm)
    (s : Server) (w : io) :
  c.(user) = Some u →
  let '((c', s'), w') := exec (handleCreateTicket c f) c s w in
  ∃ t, s'.(Server.tickets) = s.(Server.tickets) ++ [t] ∧
    (t.(Ticket.status) = IN_PROGRESS ↔
       ∃ a, a ∈ c.(agents) ∧ Some a.(MockUser.id) = f.(TicketForm.agentId) ∧
            a.(MockUser.id) ≠ "") ∧
    t.(Ticket.priority) = f.(TicketForm.priority) ≫= TicketPriority_of_value.
Proof.
  intros Hu. rewrite (exec_handleCreateTicket _ _ _ _ _ Hu).
  pose proof (create_ticket_fields (ticket_body c u f) (Server.tickets s) w) as Hc.
  destruct (create_ticket _ _ _) as [[t ts'] w1].
  destruct Hc as (-> & _ & Hst & _ & Hp & _). simpl in Hst, Hp.
  rewrite exec_fetchTickets. exists t. split_and!; [done | | done].
  rewrite Hst. clear Hst Hp.
  destruct (List.find _ (agents c)) as [a|] eqn:Hf; simpl.
  - apply List.find_some in Hf as [Ha Heq%bool_decide_eq_true].
    destruct (String.eqb_spec (MockUser.id a) "") as [Hnil|Hnil]; simpl; split.
    + done.
    + intros (a' & _ & Heq' & Hne). rewrite <- Heq in Heq'. simplify_eq. congruence.
    + intros _. exists a. split_and!; [by apply list_elem_of_In | done | done].
    + done.
  - split; [done|]. intros (a & Ha & Heq & _).
    apply list_elem_of_In in Ha. eapply List.find_none in Hf; [|exact Ha].
    by apply bool_decide_eq_false in Hf.
Qed.

(** C28: posting a comment: a blank text (white space only) sends nothing
    and changes nothing; otherwise the comment is stored under the
    selected ticket with the user as author, the text box is cleared and
    the client shows the ticket's comments as the server lists them. *)
Theorem handleAddComment_spec (c : ClientState) (u : ClientUser) (t : Ticket)
    (s : Server) (w : io) :
  c.(user) = Some u → c.(selectedTicket) = Some t →
  let '((c', s'), w') := exec (handleAddComment c) c s w in
  if String.eqb (js_trim c.(commentText)) "" then c' = c ∧ s' = s ∧ w' = w
  else s'.(Server.tickets) = s.(Server.tickets) ∧ c'.(commentText) = "" ∧
       c'.(comments) = list_comments t.(Ticket.id) s'.(Server.comments) ∧
       ∃ cm, s'.(Server.comments) = s.(Server.comments) ++ [cm] ∧
             cm.(TicketComment.ticketId) = t.(Ticket.id) ∧
             cm.(TicketComment.userId) = u.(ClientUser.id) ∧
             cm.(TicketComment.text) = Some c.(commentText).
Proof.
  intros Hu Ht. unfold handleAddComment. rewrite Hu, Ht.
  destruct (String.eqb _ "") eqn:Hb; [done|].
  cbn [exec handle]. unfold io_bind, add_comment, io_bind, random_id, now, io_ret. simpl.
  destruct c; simpl. split_and!; [done | done | done |].
  by eexists.
Qed.

(** C29: logging in from the form reads no clock and changes nothing on the
    server; it always ends with [loading] off.  A seeded username enters
    the dashboard with that account (password removed); a name that is
    neither seeded nor inherited from [Object.prototype] leaves the user
    and the view as they were; an inherited name (["constructor"], ...)
    enters the dashboard with a user object that has no field. *)
Theorem handleLogin_outcome (c : ClientState) (name : string) (s : Server) (w : io) :
  let '((c', s'), w') := exec (handleLogin name) c s w in
  s' = s ∧ w' = w ∧ c'.(loading) = false ∧
  (∀ m, own_get name MOCK_USERS = Some m →
        c'.(user) = user_of_login (LoginUser (without_password m)) ∧ c'.(view) = Dashboard) ∧
  (own_get name MOCK_USERS = None → name ∉ object_prototype_keys →
        c'.(user) = c.(user) ∧ c'.(view) = c.(view)) ∧
  (name ∈ object_prototype_keys →
        c'.(user) = Some (ClientUser.mkClientUser None None None None None None) ∧
        c'.(view) = Dashboard).
Proof.
  unfold handleLogin. cbn [exec handle]. unfold login, js_get, js_key, js_template.
  destruct (own_get name MOCK_USERS) as [m|] eqn:Hm.
  - destruct c; simpl. split_and!; try done.
    + by intros m' [= <-].
    + intros Hk. apply prototype_keys_not_seeded, own_get_None_iff in Hk. congruence.
  - case_bool_decide as Hk; destruct c; simpl; split_and!; done.
Qed.
(** C30: changing a ticket's status from the action panel, end to end:
    for a logged-in user, on a server in an invariant state, the ticket
    [T-(1001+i)] is updated in place with the new status, its agent
    untouched, one history entry ("Estado cambiado a ..." when the status
    differs, "Ticket actualizado" otherwise) and [resolvedAt] stamped when
    the new status is resolved or closed; the client then shows the
    updated ticket, reloads its list with the role filter, and an admin
    also reloads the statistics. *)
Theorem updateTicketStatus_end_to_end (c : ClientState) (u : ClientUser) (s : Server)
    (w : io) (i : nat) (t : Ticket) (st : TicketStatus) :
  c.(user) = Some u → server_ok s w → s.(Server.tickets) !! i = Some t →
  let '((c', s'), w') := exec (updateTicketStatus c (ticket_id i) st) c s w in
  ∃ t', s'.(Server.tickets) = <[i := t']> s.(Server.tickets) ∧
    c'.(selectedTicket) = Some t' ∧
    t'.(Ticket.status) = st ∧ t'.(Ticket.agentId) = t.(Ticket.agentId) ∧
    (HistoryEntry.action <$> t'.(Ticket.history)) =
      (HistoryEntry.action <$> t.(Ticket.history)) ++
      [if bool_decide (st ≠ t.(Ticket.status)) then "Estado cambiado a " +:+ TicketStatus_value st
       else "Ticket actualizado"] ∧
    t'.(Ticket.resolvedAt) =
      (if resolves (Some st) then Some (clock_at (ticks w + 2)) else t.(Ticket.resolvedAt)) ∧
    c'.(tickets) = list_tickets (Some (js_template u.(ClientUser.id)))
                     (Some (js_template u.(ClientUser.role))) s'.(Server.tickets) ∧
    c'.(stats) = (if bool_decide (u.(ClientUser.role) = Some (UserRole_value ADMIN))
                  then Some (Stats.stats s'.(Server.tickets)) else c.(stats)).
Proof.
  intros Hu Hok Hi. unfold updateTicketStatus. rewrite Hu, (exec_patch_located _ _ _ _ _ _ _ Hok Hi).
  pose proof (update_ticket_fields
    (PatchBody.mkPatchBody (Some st) None None None (ClientUser.id u) (ClientUser.fullName u)) t w)
    as Hs.
  destruct (update_ticket _ t w) as [t' w1]. simpl.
  rewrite exec_seq_prog, exec_fetchTickets, Hu. simpl. rewrite exec_fetchStats, Hu. simpl.
  destruct Hs as (_ & Hst & Hag & _ & _ & _ & _ & _ & Hh & Hr & _). simpl in *.
  exists t'. destruct c; simpl.
  rewrite Hh, fmap_app, Hr. replace (ticks w + 2) with (S (S (ticks w))) by lia.
  by destruct (bool_decide (ClientUser.role u = _)).
Qed.

(** After "Tomar Ticket" the action panel of the taken ticket no
    longer offers to take it and shows the buttons of the assigned agent
    to the user who took it; the actions stay visible to every role but
    [user]. *)
Lemma assignToMe_switches_panel (c : ClientState) (u : ClientUser) (s : Server) (w : io)
    (i : nat) (t : Ticket) :
  c.(user) = Some u → js_truthy u.(ClientUser.id) = true →
  server_ok s w → s.(Server.tickets) !! i = Some t →
  let '((c', s'), w') := exec (assignToMe c (ticket_id i)) c s w in
  ∃ t', c'.(selectedTicket) = Some t' ∧
    show_take t' = false ∧ show_agent_buttons c' t' = true ∧
    show_actions c' t' = negb (bool_decide (u.(ClientUser.role) = Some (UserRole_value USER))).
Proof.
  intros Hu Hid Hok Hi. unfold assignToMe. rewrite Hu, (exec_patch_located _ _ _ _ _ _ _ Hok Hi).
  pose proof (update_ticket_fields
    (PatchBody.mkPatchBody (Some IN_PROGRESS) (ClientUser.id u) (ClientUser.fullName u) None
       (ClientUser.id u) (ClientUser.fullName u)) t w) as Hs.
  destruct (update_ticket _ t w) as [t' w1]. simpl.
  rewrite exec_fetchTickets, Hu. simpl.
  destruct Hs as (_ & Hst & Hag & _). simpl in *. rewrite Hid in Hag.
  exists t'. destruct c; simpl in *; subst.
  unfold show_take, show_agent_buttons, show_actions; simpl.
  rewrite Hag, Hst, Hid. split_and!; try done.
  - by rewrite bool_decide_eq_true.
  - by rewrite (bool_decide_eq_false_2 (IN_PROGRESS = CLOSED)), andb_true_r.
Qed.
End EndToEnd.

(** ** Witnesses: a logged-in client against the seeded server, in the
    environment whose clock advances one millisecond per reading. *)

#[local] Existing Instance ticking_env.

Lemma assignToMe_end_to_end_witness :
  let u := ClientUser.mkClientUser (Some "admin1") (Some "admin1") (Some "Administrador 1")
             (Some "admin") (Some "IT Management") (Some "admin1@enterprise.com") in
  let c := mkClientState Dashboard None (Some u) [] None false None false "" [] [] "" [] in
  ∃ t, (fst (init (mk_io 0 0))).(Server.tickets) !! 0 = Some t ∧
  let '((c', s'), w') := exec (assignToMe c (ticket_id 0)) c (fst (init (mk_io 0 0))) (mk_io 3 0) in
  ∃ t', s'.(Server.tickets) = <[0 := t']> (fst (init (mk_io 0 0))).(Server.tickets) ∧
    c'.(selectedTicket) = Some t' ∧
    t'.(Ticket.agentId) = u.(ClientUser.id) ∧ t'.(Ticket.agentName) = u.(ClientUser.fullName) ∧
    t'.(Ticket.status) = IN_PROGRESS ∧
    (HistoryEntry.action <$> t'.(Ticket.history)) =
      (HistoryEntry.action <$> t.(Ticket.history)) ++
      ["Asignado a " +:+ js_template u.(ClientUser.fullName)].
Proof.
  intros u c. eexists. split; [reflexivity|].
  apply assignToMe_end_to_end; [reflexivity | reflexivity | | reflexivity].
  apply store_okb_sound. vm_compute. reflexivity.
Defined.

Lemma create_then_listed_witness :
  let u := ClientUser.mkClientUser (Some "u5") (Some "user5") (Some "Usuario 5")
             (Some "user") (Some "Marketing") (Some "user5@enterprise.com") in
  let c := mkClientState Dashboard None (Some u) [] None true None false "" [] [] "" [] in
  let f := TicketForm.mkTicketForm (Some "Impresora atascada") (Some "No imprime")
             (Some "Media") (Some "Impresoras") (Some "Estación 2") (Some "Almacén") (Some "") in
  let '((c', s'), w') := exec (handleCreateTicket c f) c (fst (init (mk_io 0 0))) (mk_io 3 0) in
  ∃ t, s'.(Server.tickets) = (fst (init (mk_io 0 0))).(Server.tickets) ++ [t] ∧
    t.(Ticket.creatorId) = Some "u5" ∧ c'.(isCreating) = false ∧
    t ∈ c'.(tickets) ∧ ∀ t', t' ∈ c'.(tickets) → t'.(Ticket.creatorId) = Some "u5".
Proof. intros u c f. apply (create_then_listed c u "u5"); reflexivity. Defined.

Lemma handleCreateTicket_status_witness :
  let u := ClientUser.mkClientUser (Some "u5") (Some "user5") (Some "Usuario 5")
             (Some "user") (Some "Marketing") (Some "user5@enterprise.com") in
  let c := mkClientState Dashboard None (Some u) [] None true None false "" []
             (list_agents MOCK_USERS) "" [] in
  let f := TicketForm.mkTicketForm (Some "Sin VPN") None (Some "Alta") (Some "Red")
             None None (Some "a3") in
  let '((c', s'), w') := exec (handleCreateTicket c f) c (fst (init (mk_io 0 0))) (mk_io 3 0) in
  ∃ t, s'.(Server.tickets) = (fst (init (mk_io 0 0))).(Server.tickets) ++ [t] ∧
    (t.(Ticket.status) = IN_PROGRESS ↔
       ∃ a, a ∈ c.(agents) ∧ Some a.(MockUser.id) = f.(TicketForm.agentId) ∧
            a.(MockUser.id) ≠ "") ∧
    t.(Ticket.priority) = f.(TicketForm.priority) ≫= TicketPriority_of_value.
Proof. intros u c f. apply (handleCreateTicket_status c u). reflexivity. Defined.

Lemma handleAddComment_spec_witness :
  let u := ClientUser.mkClientUser (Some "u1") (Some "user1") (Some "Usuario 1")
             (Some "user") (Some "Marketing") (Some "user1@enterprise.com") in
  ∃ t, (fst (init (mk_io 0 0))).(Server.tickets) !! 0 = Some t ∧
  let c := mkClientState Dashboard None (Some u) [] (Some t) false None false "  " [] [] "" [] in
  let '((c', s'), w') := exec (handleAddComment c) c (fst (init (mk_io 0 0))) (mk_io 3 0) in
  if String.eqb (js_trim c.(commentText)) "" then
    c' = c ∧ s' = fst (init (mk_io 0 0)) ∧ w' = mk_io 3 0
  else s'.(Server.tickets) = (fst (init (mk_io 0 0))).(Server.tickets) ∧
       c'.(commentText) = "" ∧
       c'.(comments) = list_comments t.(Ticket.id) s'.(Server.comments) ∧
       ∃ cm, s'.(Server.comments) = (fst (init (mk_io 0 0))).(Server.comments) ++ [cm] ∧
             cm.(TicketComment.ticketId) = t.(Ticket.id) ∧
             cm.(TicketComment.userId) = u.(ClientUser.id) ∧
             cm.(TicketComment.text) = Some c.(commentText).
Proof.
  intros u. eexists. split; [reflexivity|]. intros c.
  apply handleAddComment_spec; reflexivity.
Defined.

Lemma updateTicketStatus_end_to_end_witness :
  let u := ClientUser.mkClientUser (Some "admin1") (Some "admin1") (Some "Administrador 1")
             (Some "admin") (Some "IT Management") (Some "admin1@enterprise.com") in
  let c := mkClientState Dashboard None (Some u) [] None false None false "" [] [] "" [] in
  ∃ t, (fst (init (mk_io 0 0))).(Server.tickets) !! 0 = Some t ∧
  let '((c', s'), w') := exec (updateTicketStatus c (ticket_id 0) RESOLVED) c
                              (fst (init (mk_io 0 0))) (mk_io 3 0) in
  ∃ t', s'.(Server.tickets) = <[0 := t']> (fst (init (mk_io 0 0))).(Server.tickets) ∧
    c'.(selectedTicket) = Some t' ∧
    t'.(Ticket.status) = RESOLVED ∧ t'.(Ticket.agentId) = t.(Ticket.agentId) ∧
    (HistoryEntry.action <$> t'.(Ticket.history)) =
      (HistoryEntry.action <$> t.(Ticket.history)) ++
      [if bool_decide (RESOLVED ≠ t.(Ticket.status))
       then "Estado cambiado a " +:+ TicketStatus_value RESOLVED else "Ticket actualizado"] ∧
    t'.(Ticket.resolvedAt) =
      (if resolves (Some RESOLVED) then Some (clock_at (3 + 2)) else t.(Ticket.resolvedAt)) ∧
    c'.(tickets) = list_tickets (Some (js_template u.(ClientUser.id)))
                     (Some (js_template u.(ClientUser.role))) s'.(Server.tickets) ∧
    c'.(stats) = (if bool_decide (u.(ClientUser.role) = Some (UserRole_value ADMIN))
                  then Some (Stats.stats s'.(Server.tickets)) else c.(stats)).
Proof.
  intros u c. eexists. split; [reflexivity|].
  apply (updateTicketStatus_end_to_end c u _ (mk_io 3 0)); [reflexivity | | reflexivity].
  apply store_okb_sound. vm_compute. reflexivity.
Defined.

