(* ===== verification/Wire.v ===== *)
(** The HTTP layer between the page ([src/src/App.tsx]) and the server
    ([src/server.ts]): what a [fetch] call of the client writes (a method,
    a URL built by a template literal, a body built by [JSON.stringify] of
    an object literal) and how [startServer]'s Express application reads
    it (the [express.json()] body parser, the route table with its path
    patterns, the query string of [GET /api/tickets], the destructuring
    of [req.body]) before a handler of [Server.v] runs with a [Request].
    A request no route matches goes on to the hosting middleware: Vite in
    development, [express.static("dist")] in production.

    What Express does is modelled as its documentation and sources
    describe it, for the parts this application uses: route paths are
    matched case-insensitively, with an optional trailing slash, a
    [:param] matching one non-empty segment that is then passed through
    [decodeURIComponent] (a malformed escape answers 400); [app.get]
    also answers [HEAD]; the query parser splits on [&] and [=] and
    decodes [+] and escapes; [express.json()] parses a JSON body (a body
    that is not an object or an array answers 400) and leaves [{}] when
    there is none.  Not modelled: the UTF-8 validity check of
    [decodeURIComponent], nested ([a[b]=c]) and repeated query keys
    (their values are arrays or objects, which the handlers' typed
    fields cannot hold: such a request is [Untyped]), and the text of the
    JSON: a body is a JSON value. *)

From S2P Require Import Prelude Types Users Tickets Comments Stats Server Client.
Import JsObject Users TicketStore CommentStore Server Client.
From Stdlib Require Import Ascii.

Module Wire.

(** ** Characters and strings *)

(** [s.split(sep)]. *)
Fixpoint split_on (sep : Ascii.ascii) (s : string) : list string :=
  match s with
  | EmptyString => [EmptyString]
  | String c s' =>
      if Ascii.eqb c sep then EmptyString :: split_on sep s'
      else match split_on sep s' with
           | x :: xs => String c x :: xs
           | [] => [String c EmptyString]
           end
  end.

(** The text before the first [sep] and, if there is one, the text after
    it. *)
Fixpoint break_at (sep : Ascii.ascii) (s : string) : string * option string :=
  match s with
  | EmptyString => (EmptyString, None)
  | String c s' =>
      if Ascii.eqb c sep then (EmptyString, Some s')
      else let '(a, b) := break_at sep s' in (String c a, b)
  end.

Definition hex_digit (c : Ascii.ascii) : option nat :=
  let n := Ascii.nat_of_ascii c in
  if (48 <=? n) && (n <=? 57) then Some (n - 48)
  else if (65 <=? n) && (n <=? 70) then Some (n - 55)
  else if (97 <=? n) && (n <=? 102) then Some (n - 87)
  else None.

(** [decodeURIComponent], byte by byte: [%XX] is the byte [XX]; a [%]
    not followed by two hexadecimal digits is a [URIError]. *)
Fixpoint pct_decode (s : string) : option string :=
  match s with
  | EmptyString => Some EmptyString
  | String c s' =>
      if Ascii.eqb c "%" then
        match s' with
        | String h1 (String h2 s'') =>
            match hex_digit h1, hex_digit h2 with
            | Some a, Some b => String (Ascii.ascii_of_nat (16 * a + b)) <$> pct_decode s''
            | _, _ => None
            end
        | _ => None
        end
      else String c <$> pct_decode s'
  end%char.

Definition ascii_lower (c : Ascii.ascii) : Ascii.ascii :=
  let n := Ascii.nat_of_ascii c in
  if (65 <=? n) && (n <=? 90) then Ascii.ascii_of_nat (n + 32) else c.

Fixpoint string_lower (s : string) : string :=
  match s with
  | EmptyString => EmptyString
  | String c s' => String (ascii_lower c) (string_lower s')
  end.

(** ** JSON values *)

Inductive Json :=
| JNull
| JBool (b : bool)
| JNum (z : Z)
| JStr (s : string)
| JArr (l : list Json)
| JObj (fields : list (string * Json)).

(** [JSON.parse] of an object: each member assigned in order, so a
    repeated name keeps its last value. *)
Definition json_object (fields : list (string * Json)) : obj Json :=
  foldl (λ o '(k, v), obj_set k v o) [] fields.

(** ** Requests on the wire *)

Inductive Method := GET | HEAD | POST | PATCH | OtherMethod (m : string).

#[export] Instance Method_eq_dec : EqDecision Method.
Proof. solve_decision. Defined.

Record HttpRequest := mkHttp {
  method : Method;
  url : string;
  json : option Json
}.

(** Where the application sends a request. *)
Inductive Hosting := ViteMiddleware | StaticFiles (root : string).

(** What the application does with a request: a route handler runs with
    the request data it reads; Express answers an error status before
    any handler; a route handler runs on a field whose value is not of
    the type the handler's TypeScript declares (an array, an object, a
    number, or a string that is no member of the enum), which the model's
    requests cannot hold; no route matches and the hosting middleware
    takes it. *)
Inductive Outcome :=
| Handled (r : Request)
| Rejected (code : nat)
| Untyped
| PassedOn (h : Hosting).

(** ** The Express application of [startServer] *)

(** A segment of a route path: a literal or a [:param]. *)
Inductive Seg := Lit (s : string) | Param.

(** The path-to-regexp match of a route path against the segments of a
    request path: literals case-insensitively, a parameter on a
    non-empty segment, one trailing slash allowed; the raw parameters. *)
Fixpoint match_segs (pat : list Seg) (segs : list string) : option (list string) :=
  match pat, segs with
  | [], [] => Some []
  | [], [s] => if String.eqb s "" then Some [] else None
  | Lit l :: pat', s :: segs' =>
      if String.eqb (string_lower s) l then match_segs pat' segs' else None
  | Param :: pat', s :: segs' =>
      if String.eqb s "" then None else cons s <$> match_segs pat' segs'
  | _, _ => None
  end.

(** A URL as a request carries it: the fragment is not sent; the path
    segments after the leading slash, and the query string. *)
Definition url_parts (u : string) : option (list string) * string :=
  let '(path, q) := break_at "?" (break_at "#" u).1 in
  (match split_on "/" path with
   | EmptyString :: segs => Some segs
   | _ => None
   end, default EmptyString q).

Definition plus_to_space (s : string) : string :=
  String.string_of_list_ascii
    ((λ c, if Ascii.eqb c "+" then " "%char else c) <$> String.list_ascii_of_string s).

(** The query parser's decoding of a key or a value: [+] is a space, then
    [decodeURIComponent], the text as written when that fails. *)
Definition qs_decode (s : string) : string :=
  default (plus_to_space s) (pct_decode (plus_to_space s)).

Definition qs_pair (part : string) : string * string :=
  match break_at "=" part with
  | (k, Some v) => (qs_decode k, qs_decode v)
  | (k, None) => (qs_decode k, EmptyString)
  end.

(** [req.query]: the [key=value] pairs between the [&]s, in order; an
    empty key is dropped. *)
Definition qs_parse (q : string) : list (string * string) :=
  filter (λ kv, kv.1 ≠ EmptyString) (qs_pair <$> split_on "&" q).

Definition has_bracket (k : string) : bool :=
  existsb (λ c, Ascii.eqb c "[") (String.list_ascii_of_string k).

(** [req.query[k]] as the handler reads it, a string or [undefined];
    [None] when the query makes it an array (the key is repeated) or
    when a key with brackets makes an object. *)
Definition query_get (q : list (string * string)) (k : string) : option (option string) :=
  if existsb (λ kv, has_bracket kv.1) q then None
  else match filter (λ kv, kv.1 = k) q with
       | [] => Some None
       | [(_, v)] => Some (Some v)
       | _ => None
       end.

(** [express.json()]: the [req.body] the handlers read; [None] when the
    parser answers 400 (in strict mode a JSON text that is neither an
    object nor an array); [{}] when the request has no body. *)
Definition parsed_body (b : option Json) : option (obj Json) :=
  match b with
  | None => Some []
  | Some (JObj fs) => Some (json_object fs)
  | Some (JArr _) => Some []
  | Some _ => None
  end.

(** A destructured field [const { k } = req.body] read at the type the
    model gives it: a string, or [undefined] (a [null] is read as
    [undefined]); [None] for a value of another type. *)
Definition str_field (b : obj Json) (k : string) : option (option string) :=
  match js_get k b with
  | Own (JStr s) => Some (Some s)
  | Own JNull | Undefined => Some None
  | _ => None
  end.

(** An enum field: a string that is the value of a member. *)
Definition enum_field {E} (of_value : string → option E) (b : obj Json) (k : string)
    : option (option E) :=
  match js_get k b with
  | Own (JStr s) => Some <$> of_value s
  | Own JNull | Undefined => Some None
  | _ => None
  end.

(** [const { username } = req.body] (line 75). *)
Definition login_request (b : obj Json) : option Request :=
  username ← str_field b "username"; Some (Login username).

(** [const { userId, role } = req.query] (line 94). *)
Definition tickets_request (q : list (string * string)) : option Request :=
  userId ← query_get q "userId"; role ← query_get q "role"; Some (GetTickets userId role).

(** [const { title, ..., area } = req.body] (line 108). *)
Definition ticket_body_of (b : obj Json) : option TicketBody :=
  title ← str_field b "title"; description ← str_field b "description";
  priority ← enum_field TicketPriority_of_value b "priority";
  category ← str_field b "category"; creatorId ← str_field b "creatorId";
  creatorName ← str_field b "creatorName"; creatorEmail ← str_field b "creatorEmail";
  creatorDept ← str_field b "creatorDept"; agentId ← str_field b "agentId";
  agentName ← str_field b "agentName"; station ← str_field b "station";
  area ← str_field b "area";
  Some (TicketBody.mkTicketBody title description priority category creatorId creatorName
          creatorEmail creatorDept agentId agentName station area).

(** [const { status, agentId, agentName, priority, userId, userName } =
    req.body] (line 144). *)
Definition patch_body_of (b : obj Json) : option PatchBody :=
  status ← enum_field TicketStatus_of_value b "status";
  agentId ← str_field b "agentId"; agentName ← str_field b "agentName";
  priority ← enum_field TicketPriority_of_value b "priority";
  userId ← str_field b "userId"; userName ← str_field b "userName";
  Some (PatchBody.mkPatchBody status agentId agentName priority userId userName).

(** [const { userId, userName, text } = req.body] (line 189). *)
Definition comment_body_of (b : obj Json) : option CommentBody :=
  userId ← str_field b "userId"; userName ← str_field b "userName"; text ← str_field b "text";
  Some (CommentBody.mkCommentBody userId userName text).

Record Route := mkRoute {
  route_method : Method;
  route_path : list Seg;
  route_handler : list string → list (string * string) → obj Json → option Request
}.

(** The routes [startServer] registers, in order, with the request data
    each handler reads ([req.params], [req.query], [req.body]). *)
Definition routes : list Route :=
  [mkRoute POST [Lit "api"; Lit "auth"; Lit "login"] (λ _ _ b, login_request b);
   mkRoute GET [Lit "api"; Lit "agents"] (λ _ _ _, Some GetAgents);
   mkRoute GET [Lit "api"; Lit "tickets"] (λ _ q _, tickets_request q);
   mkRoute POST [Lit "api"; Lit "tickets"] (λ _ _ b, PostTicket <$> ticket_body_of b);
   mkRoute PATCH [Lit "api"; Lit "tickets"; Param]
     (λ ps _ b, match ps with [id] => PatchTicket id <$> patch_body_of b | _ => None end);
   mkRoute GET [Lit "api"; Lit "tickets"; Param; Lit "comments"]
     (λ ps _ _, match ps with [id] => Some (GetComments id) | _ => None end);
   mkRoute POST [Lit "api"; Lit "tickets"; Param; Lit "comments"]
     (λ ps _ b, match ps with [id] => PostComment id <$> comment_body_of b | _ => None end);
   mkRoute GET [Lit "api"; Lit "stats"] (λ _ _ _, Some GetStats)].

(** A route registered with [app.get] also answers [HEAD]. *)
Definition handles (registered requested : Method) : bool :=
  bool_decide (requested = registered) || bool_decide (registered = GET ∧ requested = HEAD).

(** The first route whose method and path match, with the raw
    parameters. *)
Fixpoint find_route (m : Method) (segs : list string) (rs : list Route)
    : option (Route * list string) :=
  match rs with
  | [] => None
  | rt :: rs' =>
      match (if handles rt.(route_method) m then match_segs rt.(route_path) segs else None) with
      | Some raw => Some (rt, raw)
      | None => find_route m segs rs'
      end
  end.

(** The application: the JSON parser, the router, the hosting
    middleware after the routes. *)
Definition dispatch (mw : Hosting) (h : HttpRequest) : Outcome :=
  match parsed_body h.(json) with
  | None => Rejected 400
  | Some b =>
      let '(segs, q) := url_parts h.(url) in
      match segs ≫= λ ss, find_route h.(method) ss routes with
      | None => PassedOn mw
      | Some (rt, raw) =>
          match mapM pct_decode raw with
          | None => Rejected 400
          | Some ps =>
              match rt.(route_handler) ps (qs_parse q) b with
              | Some r => Handled r
              | None => Untyped
              end
          end
      end
  end.

Definition PORT : nat := 3000.

Record AppConfig := mkAppConfig {
  port : nat;
  host : string;
  fallback : Hosting
}.

(** [if (process.env.NODE_ENV !== "production") app.use(vite.middlewares)
    else app.use(express.static("dist")); app.listen(PORT, "0.0.0.0")]. *)
Definition startServer_config (NODE_ENV : option string) : AppConfig :=
  mkAppConfig PORT "0.0.0.0"
    (if bool_decide (NODE_ENV = Some "production") then StaticFiles "dist" else ViteMiddleware).

(** The server process as the page reaches it. *)
Definition serve (NODE_ENV : option string) (h : HttpRequest) : Outcome :=
  dispatch (startServer_config NODE_ENV).(fallback) h.

(** ** What the client's [fetch] calls write *)

(** A property of an object literal given to [JSON.stringify]: left out
    when its value is [undefined]. *)
Definition json_prop (k : string) (v : option string) : list (string * Json) :=
  if v is Some s then [(k, JStr s)] else [].

(** A property whose value is [formData.get(k)]: [null] for a field the
    form did not submit. *)
Definition form_prop (k : string) (v : option string) : list (string * Json) :=
  [(k, if v is Some s then JStr s else JNull)].

(** [handleLogin]: [fetch('/api/auth/login', { method: 'POST', body:
    JSON.stringify({ username }) })]. *)
Definition login_fetch (username : string) : HttpRequest :=
  mkHttp POST "/api/auth/login" (Some (JObj [("username", JStr username)])).

(** [fetchTickets]: [fetch(`/api/tickets?userId=${user.id}&role=${user.role}`)]. *)
Definition tickets_fetch (u : ClientUser) : HttpRequest :=
  mkHttp GET ("/api/tickets?userId=" +:+ js_template u.(ClientUser.id) +:+
              "&role=" +:+ js_template u.(ClientUser.role)) None.

Definition stats_fetch : HttpRequest := mkHttp GET "/api/stats" None.

Definition agents_fetch : HttpRequest := mkHttp GET "/api/agents" None.

(** [fetchComments]: [fetch(`/api/tickets/${ticketId}/comments`)]. *)
Definition comments_fetch (ticketId : string) : HttpRequest :=
  mkHttp GET ("/api/tickets/" +:+ ticketId +:+ "/comments") None.

(** [handleAddComment]: the body [{ userId: user.id, userName:
    user.fullName, text: commentText }]. *)
Definition add_comment_fetch (u : ClientUser) (t : Ticket) (commentText : string) : HttpRequest :=
  mkHttp POST ("/api/tickets/" +:+ t.(Ticket.id) +:+ "/comments")
    (Some (JObj (json_prop "userId" u.(ClientUser.id) ++ json_prop "userName" u.(ClientUser.fullName) ++
                 [("text", JStr commentText)]))).

(** [handleCreateTicket]: the [newTicket] literal, the form's fields as
    [formData.get] returns them and the agent found in [agents]. *)
Definition newTicket (c : ClientState) (u : ClientUser) (f : TicketForm) : Json :=
  let agent := List.find (λ a, bool_decide (Some a.(MockUser.id) = f.(TicketForm.agentId)))
                 c.(agents) in
  JObj (form_prop "title" f.(TicketForm.title) ++ form_prop "description" f.(TicketForm.description) ++
        form_prop "priority" f.(TicketForm.priority) ++ form_prop "category" f.(TicketForm.category) ++
        json_prop "creatorId" u.(ClientUser.id) ++ json_prop "creatorName" u.(ClientUser.fullName) ++
        json_prop "creatorEmail" u.(ClientUser.email) ++
        json_prop "creatorDept" u.(ClientUser.department) ++
        form_prop "station" f.(TicketForm.station) ++ form_prop "area" f.(TicketForm.area) ++
        json_prop "agentId" (MockUser.id <$> agent) ++
        json_prop "agentName" (MockUser.fullName <$> agent)).

Definition create_fetch (c : ClientState) (u : ClientUser) (f : TicketForm) : HttpRequest :=
  mkHttp POST "/api/tickets" (Some (newTicket c u f)).

(** [updateTicketStatus]: [{ status, userId: user.id, userName:
    user.fullName }] to [`/api/tickets/${ticketId}`]. *)
Definition status_fetch (u : ClientUser) (ticketId : string) (status : TicketStatus) : HttpRequest :=
  mkHttp PATCH ("/api/tickets/" +:+ ticketId)
    (Some (JObj ([("status", JStr (TicketStatus_value status))] ++
                 json_prop "userId" u.(ClientUser.id) ++ json_prop "userName" u.(ClientUser.fullName)))).

(** [assignToMe]: [{ agentId: user.id, agentName: user.fullName, status:
    TicketStatus.IN_PROGRESS, userId: user.id, userName: user.fullName }]. *)
Definition assign_fetch (u : ClientUser) (ticketId : string) : HttpRequest :=
  mkHttp PATCH ("/api/tickets/" +:+ ticketId)
    (Some (JObj (json_prop "agentId" u.(ClientUser.id) ++ json_prop "agentName" u.(ClientUser.fullName) ++
                 [("status", JStr (TicketStatus_value IN_PROGRESS))] ++
                 json_prop "userId" u.(ClientUser.id) ++ json_prop "userName" u.(ClientUser.fullName)))).

(** A form whose priority, if any, is the value of a member: what the
    priority [select], whose options are [Object.values(TicketPriority)],
    submits. *)
Definition form_typed (f : TicketForm) : Prop :=
  ∀ v, f.(TicketForm.priority) = Some v → is_Some (TicketPriority_of_value v).

(** Each [fetch] call of the client, with the request the model's
    handler ([Client.v]) passes to the server for it. *)
Inductive fetch_call : Request → HttpRequest → Prop :=
| call_login name : fetch_call (Login (Some name)) (login_fetch name)
| call_tickets u :
    fetch_call (GetTickets (Some (js_template u.(ClientUser.id))) (Some (js_template u.(ClientUser.role))))
      (tickets_fetch u)
| call_stats : fetch_call GetStats stats_fetch
| call_agents : fetch_call GetAgents agents_fetch
| call_comments id : fetch_call (GetComments id) (comments_fetch id)
| call_add_comment u t text :
    fetch_call (PostComment t.(Ticket.id)
                  (CommentBody.mkCommentBody u.(ClientUser.id) u.(ClientUser.fullName) (Some text)))
      (add_comment_fetch u t text)
| call_create c u f : form_typed f → fetch_call (PostTicket (ticket_body c u f)) (create_fetch c u f)
| call_status u id st :
    fetch_call (PatchTicket id (PatchBody.mkPatchBody (Some st) None None None
                                  u.(ClientUser.id) u.(ClientUser.fullName)))
      (status_fetch u id st)
| call_assign u id :
    fetch_call (PatchTicket id (PatchBody.mkPatchBody (Some IN_PROGRESS) u.(ClientUser.id)
                                  u.(ClientUser.fullName) None u.(ClientUser.id) u.(ClientUser.fullName)))
      (assign_fetch u id).

(** ** Text a template literal can put in a URL unchanged *)

(** The characters that end a path segment, a query pair, a key or a
    URL ([/ ? # & =]), that start an escape or a space ([% +]), that
    make a query key an object ([[ ]]), or that [fetch] escapes
    (double quote, [< > ` { } | \ ^ ']), by code. *)
Definition url_reserved : list nat :=
  [47; 63; 35; 38; 61; 37; 43; 91; 93; 34; 60; 62; 96; 123; 125; 124; 92; 94; 39].

Definition url_char (c : Ascii.ascii) : bool :=
  let n := Ascii.nat_of_ascii c in
  (33 <=? n) && (n <=? 126) && negb (bool_decide (n ∈ url_reserved)).

Fixpoint str_forall (p : Ascii.ascii → bool) (s : string) : bool :=
  match s with
  | EmptyString => true
  | String c s' => p c && str_forall p s'
  end.

(** Text a query value can be. *)
Definition query_safe (s : string) : bool := str_forall url_char s.

(** Text a path segment can be: not empty and not a dot segment, which
    [fetch] would resolve. *)
Definition segment_safe (s : string) : bool :=
  query_safe s && negb (bool_decide (s ∈ [""; "."; ".."])).

(** The text the request puts in its URL is safe. *)
Definition params_safe (r : Request) : bool :=
  match r with
  | GetTickets uid role => query_safe (js_template uid) && query_safe (js_template role)
  | PatchTicket id _ | GetComments id | PostComment id _ => segment_safe id
  | _ => true
  end.

End Wire.

Import Wire.

(** ** Safe text goes through the URL unchanged *)

Lemma url_char_ne c sep :
  url_char c = true → Ascii.nat_of_ascii sep ∈ url_reserved → Ascii.eqb c sep = false.
Proof.
  intros Hc Hs. destruct (Ascii.eqb_spec c sep) as [->|]; [|done].
  unfold url_char in Hc. rewrite bool_decide_true in Hc by done. by rewrite andb_false_r in Hc.
Qed.

(** The separators the lemmas below split on. *)
Ltac reserved := apply (bool_decide_unpack _); vm_compute; reflexivity.

(** Text without the character [sep]. *)
Fixpoint no_char (sep : Ascii.ascii) (s : string) : bool :=
  match s with
  | EmptyString => true
  | String c s' => negb (Ascii.eqb c sep) && no_char sep s'
  end.

Lemma no_char_safe sep s :
  Ascii.nat_of_ascii sep ∈ url_reserved → query_safe s = true → no_char sep s = true.
Proof.
  intros Hs. induction s as [|c s IH]; simpl; [done|].
  intros (Hc & Hq)%andb_prop. by rewrite url_char_ne, IH.
Qed.

(** [+:+] does not unfold by [simpl]: its two equations. *)
Lemma string_app_nil_l t : "" +:+ t = t.
Proof. done. Qed.

Lemma string_app_cons c s t : String c s +:+ t = String c (s +:+ t).
Proof. done. Qed.

Lemma string_app_nil_r s : s +:+ "" = s.
Proof. induction s as [|c s IH]; [done|]. by rewrite string_app_cons, IH. Qed.

Lemma no_char_app sep a b : no_char sep (a +:+ b) = no_char sep a && no_char sep b.
Proof.
  induction a as [|c a IH]; [done|]. rewrite string_app_cons. simpl. by rewrite IH, andb_assoc.
Qed.

Lemma split_on_no_char sep s : no_char sep s = true → split_on sep s = [s].
Proof.
  induction s as [|c s IH]; simpl; [done|].
  intros (Hc & Hs)%andb_prop. apply negb_true_iff in Hc. by rewrite Hc, IH.
Qed.

Lemma split_on_app_sep sep a b :
  no_char sep a = true → split_on sep (a +:+ String sep b) = a :: split_on sep b.
Proof.
  induction a as [|c a IH]; [intros _; simpl; by rewrite Ascii.eqb_refl|].
  rewrite string_app_cons. simpl. intros (Hc & Ha)%andb_prop. apply negb_true_iff in Hc. by rewrite Hc, IH.
Qed.

Lemma break_at_no_char sep s : no_char sep s = true → break_at sep s = (s, None).
Proof.
  induction s as [|c s IH]; simpl; [done|].
  intros (Hc & Hs)%andb_prop. apply negb_true_iff in Hc. by rewrite Hc, IH.
Qed.

Lemma break_at_app_sep sep a b :
  no_char sep a = true → break_at sep (a +:+ String sep b) = (a, Some b).
Proof.
  induction a as [|c a IH]; [intros _; simpl; by rewrite Ascii.eqb_refl|].
  rewrite string_app_cons. simpl. intros (Hc & Ha)%andb_prop. apply negb_true_iff in Hc. by rewrite Hc, IH.
Qed.

(** The path [/s1/s2/.../sn]. *)
Fixpoint path_of (segs : list string) : string :=
  match segs with
  | [] => ""
  | s :: segs' => String "/" (s +:+ path_of segs')
  end.

(** A path segment as the lemmas below need it: no [/ ? #]. *)
Definition plain_segment (s : string) : bool :=
  no_char "/" s && no_char "?" s && no_char "#" s.

Lemma plain_segment_safe s : query_safe s = true → plain_segment s = true.
Proof. intros Hq. unfold plain_segment. by rewrite !no_char_safe by (done || reserved). Qed.

Lemma no_char_path_of sep segs :
  Ascii.eqb "/" sep = false → Forall (λ s, no_char sep s = true) segs → no_char sep (path_of segs) = true.
Proof.
  intros Hsep Hall. induction Hall as [|s segs Hs Hall IH]; [done|]. cbn [path_of no_char].
  by rewrite Hsep, no_char_app, Hs, IH.
Qed.

Lemma split_on_path_of s segs :
  Forall (λ s, no_char "/" s = true) (s :: segs) → split_on "/" (s +:+ path_of segs) = s :: segs.
Proof.
  revert s. induction segs as [|s' segs IH]; intros s Hall; simpl.
  - rewrite string_app_nil_r. apply split_on_no_char. by inversion Hall.
  - inversion Hall as [|? ? Hs Hall']. rewrite split_on_app_sep by done. by rewrite IH.
Qed.

(** A URL whose path is [/s1/.../sn] and whose query is [q]. *)
Lemma url_parts_query segs q :
  segs ≠ [] → Forall (λ s, plain_segment s = true) segs → no_char "#" q = true →
  url_parts (path_of segs +:+ String "?" q) = (Some segs, q).
Proof.
  intros Hne Hall Hq. unfold url_parts.
  assert (Forall (λ s, no_char "/" s = true ∧ no_char "?" s = true ∧ no_char "#" s = true) segs)
    as Hall'.
  { eapply Forall_impl; [exact Hall|]. intros s Hs. unfold plain_segment in Hs.
    by repeat apply andb_prop in Hs as [Hs ?]. }
  rewrite (break_at_no_char "#").
  2:{ rewrite no_char_app. simpl. rewrite Hq, andb_true_r.
      apply no_char_path_of; [done|]. eapply Forall_impl; [exact Hall'|]. naive_solver. }
  simpl. rewrite break_at_app_sep.
  2:{ apply no_char_path_of; [done|]. eapply Forall_impl; [exact Hall'|]. naive_solver. }
  destruct segs as [|s segs]; [done|]. simpl. rewrite split_on_path_of; [done|].
  eapply Forall_impl; [exact Hall'|]. naive_solver.
Qed.

Lemma url_parts_path segs :
  segs ≠ [] → Forall (λ s, plain_segment s = true) segs → url_parts (path_of segs) = (Some segs, "").
Proof.
  intros Hne Hall. unfold url_parts.
  assert (Forall (λ s, no_char "/" s = true ∧ no_char "?" s = true ∧ no_char "#" s = true) segs)
    as Hall'.
  { eapply Forall_impl; [exact Hall|]. intros s Hs. unfold plain_segment in Hs.
    by repeat apply andb_prop in Hs as [Hs ?]. }
  rewrite (break_at_no_char "#"); simpl; [rewrite (break_at_no_char "?")|].
  2,3: apply no_char_path_of; [done|]; eapply Forall_impl; [exact Hall'|]; naive_solver.
  destruct segs as [|s segs]; [done|]. simpl. rewrite split_on_path_of; [done|].
  eapply Forall_impl; [exact Hall'|]. naive_solver.
Qed.

Lemma pct_decode_safe s : query_safe s = true → pct_decode s = Some s.
Proof.
  induction s as [|c s IH]; simpl; [done|].
  intros (Hc & Hq)%andb_prop. rewrite (url_char_ne c "%") by (done || reserved).
  by rewrite IH.
Qed.

Lemma qs_decode_safe s : query_safe s = true → qs_decode s = s.
Proof.
  intros Hq. unfold qs_decode.
  assert (plus_to_space s = s) as ->; [|by rewrite pct_decode_safe].
  unfold plus_to_space. induction s as [|c s IH]; simpl in *; [done|].
  apply andb_prop in Hq as [Hc Hq]. rewrite (url_char_ne c "+") by (done || reserved).
  f_equal. by apply IH.
Qed.

(** ** Reading back an object [JSON.stringify] wrote *)

(** The last value a member list gives a name. *)
Fixpoint json_last (k : string) (fs : list (string * Json)) : option Json :=
  match fs with
  | [] => None
  | (k', v) :: fs' => from_option Some (if String.eqb k k' then Some v else None) (json_last k fs')
  end.

Lemma own_get_json_object k fs : own_get k (json_object fs) = json_last k fs.
Proof.
  unfold json_object. cut (∀ o, own_get k (foldl (λ o '(k', v), obj_set k' v o) o fs) =
                                from_option Some (own_get k o) (json_last k fs)).
  { intros H. rewrite H. simpl. by destruct (json_last k fs). }
  induction fs as [|[k' v] fs IH]; intros o; simpl; [done|]. rewrite IH.
  destruct (json_last k fs); simpl; [done|].
  destruct (String.eqb_spec k k') as [->|Hne]; [apply own_get_set_eq | by apply own_get_set_ne].
Qed.

Lemma json_last_app k l1 l2 :
  json_last k (l1 ++ l2) = from_option Some (json_last k l1) (json_last k l2).
Proof.
  induction l1 as [|[k' v] l1 IH]; simpl; [by destruct (json_last k l2)|].
  rewrite IH. by destruct (json_last k l2).
Qed.

Lemma json_last_json_prop k k' v :
  json_last k (json_prop k' v) = if String.eqb k k' then JStr <$> v else None.
Proof. destruct v; simpl; [by destruct (String.eqb k k')|by destruct (String.eqb k k')]. Qed.

Lemma from_option_Some_None {A} (o : option A) : from_option Some None o = o.
Proof. by destruct o. Qed.

Definition read_str (o : option Json) : option (option string) :=
  match o with
  | Some (JStr s) => Some (Some s)
  | Some JNull | None => Some None
  | Some _ => None
  end.

Definition read_enum {E} (of_value : string → option E) (o : option Json) : option (option E) :=
  match o with
  | Some (JStr s) => Some <$> of_value s
  | Some JNull | None => Some None
  | Some _ => None
  end.

Lemma str_field_json_object fs k :
  k ∉ object_prototype_keys → str_field (json_object fs) k = read_str (json_last k fs).
Proof.
  intros Hk. unfold str_field, js_get. rewrite own_get_json_object.
  destruct (json_last k fs); [done|]. by rewrite bool_decide_false.
Qed.

Lemma enum_field_json_object {E} (of_value : string → option E) fs k :
  k ∉ object_prototype_keys → enum_field of_value (json_object fs) k = read_enum of_value (json_last k fs).
Proof.
  intros Hk. unfold enum_field, js_get. rewrite own_get_json_object.
  destruct (json_last k fs); [done|]. by rewrite bool_decide_false.
Qed.

(** The readers are rewritten, not unfolded, so that a field whose value
    is still symbolic keeps the shape of the lemmas below. *)
Arguments read_str : simpl never.
Arguments read_enum : simpl never.

Lemma read_str_JStr s : read_str (Some (JStr s)) = Some (Some s).
Proof. done. Qed.

Lemma read_str_JNull : read_str (Some JNull) = Some None.
Proof. done. Qed.

Lemma read_str_None : read_str None = Some None.
Proof. done. Qed.

Lemma read_enum_JStr {E} (of_value : string → option E) s :
  read_enum of_value (Some (JStr s)) = Some <$> of_value s.
Proof. done. Qed.

Lemma read_enum_JNull {E} (of_value : string → option E) : read_enum of_value (Some JNull) = Some None.
Proof. done. Qed.

Lemma read_enum_None {E} (of_value : string → option E) : read_enum of_value None = Some None.
Proof. done. Qed.

Lemma read_str_prop v : read_str (JStr <$> v) = Some v.
Proof. by destruct v. Qed.

Lemma read_str_form v : read_str (Some (if v is Some s then JStr s else JNull)) = Some v.
Proof. by destruct v. Qed.

Lemma TicketStatus_of_value_value st : TicketStatus_of_value (TicketStatus_value st) = Some st.
Proof. by apply TicketStatus_roundtrip. Qed.

Create Rewrite HintDb wire_rw.
#[export] Hint Rewrite json_last_app json_last_json_prop @from_option_Some_None
  read_str_prop read_str_form read_str_JStr read_str_JNull read_str_None
  @read_enum_JStr @read_enum_JNull @read_enum_None TicketStatus_of_value_value : wire_rw.

(** Read every destructured field of a body the client wrote. *)
Ltac read_fields :=
  rewrite ?str_field_json_object, ?enum_field_json_object by reserved;
  repeat progress (autorewrite with wire_rw; simpl).

Lemma split_on_app_no_char sep a b x xs :
  no_char sep a = true → split_on sep b = x :: xs → split_on sep (a +:+ b) = (a +:+ x) :: xs.
Proof.
  intros Ha Hb. induction a as [|c a IH]; [done|]. rewrite string_app_cons. simpl in *.
  apply andb_prop in Ha as [Hc Ha]. apply negb_true_iff in Hc. by rewrite Hc, IH.
Qed.

Lemma split_on_cons_ne sep c s x xs :
  Ascii.eqb c sep = false → split_on sep s = x :: xs → split_on sep (String c s) = String c x :: xs.
Proof. intros Hc Hs. simpl. by rewrite Hc, Hs. Qed.

(** The query string [k1=v1&k2=v2&...]. *)
Fixpoint query_of (ps : list (string * string)) : string :=
  match ps with
  | [] => ""
  | [(k, v)] => k +:+ String "=" v
  | (k, v) :: ps' => k +:+ String "=" (v +:+ String "&" (query_of ps'))
  end.

Definition query_pair_safe (kv : string * string) : bool :=
  query_safe kv.1 && negb (String.eqb kv.1 "") && query_safe kv.2.

Lemma split_query_of ps :
  ps ≠ [] → Forall (λ kv, query_pair_safe kv = true) ps →
  split_on "&" (query_of ps) = (λ '(k, v), k +:+ String "=" v) <$> ps.
Proof.
  induction ps as [|[k v] ps IH]; [done|]. intros _ Hall. inversion Hall as [|? ? Hkv Hall'].
  unfold query_pair_safe in Hkv. simpl in Hkv. apply andb_prop in Hkv as [[Hk _]%andb_prop Hv].
  rewrite fmap_cons. destruct ps as [|kv' ps].
  - apply split_on_no_char. rewrite no_char_app. simpl.
    by rewrite !no_char_safe by (done || reserved).
  - change (query_of ((k, v) :: kv' :: ps))
      with (k +:+ String "=" (v +:+ String "&" (query_of (kv' :: ps)))).
    eapply split_on_app_no_char; [by apply no_char_safe; [reserved|]|].
    apply split_on_cons_ne; [done|].
    rewrite split_on_app_sep by (apply no_char_safe; [reserved|done]).
    by rewrite IH.
Qed.

Lemma qs_pairs ps :
  Forall (λ kv, query_pair_safe kv = true) ps →
  filter (λ kv, kv.1 ≠ "") (qs_pair <$> ((λ '(k, v), k +:+ String "=" v) <$> ps)) = ps.
Proof.
  induction 1 as [|[k v] ps Hkv Hall IH]; [done|]. rewrite !fmap_cons.
  unfold query_pair_safe in Hkv. simpl in Hkv.
  apply andb_prop in Hkv as [[Hk Hk0]%andb_prop Hv]. apply negb_true_iff in Hk0.
  assert (qs_pair (k +:+ String "=" v) = (k, v)) as ->.
  { unfold qs_pair. rewrite break_at_app_sep by (apply no_char_safe; [reserved|done]).
    by rewrite !qs_decode_safe. }
  rewrite filter_cons_True by (simpl; by apply String.eqb_neq). by rewrite IH.
Qed.

Lemma qs_parse_query_of ps :
  ps ≠ [] → Forall (λ kv, query_pair_safe kv = true) ps → qs_parse (query_of ps) = ps.
Proof. intros Hne Hall. unfold qs_parse. rewrite split_query_of by done. by apply qs_pairs. Qed.

Lemma segment_safe_inv s : segment_safe s = true → query_safe s = true ∧ String.eqb s "" = false.
Proof.
  unfold segment_safe. intros (Hq & Hd)%andb_prop. split; [done|].
  apply String.eqb_neq. intros ->. by rewrite bool_decide_true in Hd by set_solver.
Qed.

(** The router, once the URL is split: the segments compared, the
    parameter checked non-empty and decoded. *)
Ltac route Hne :=
  simpl; rewrite ?Hne; simpl; rewrite ?pct_decode_safe by done; simpl.

Lemma url_ticket_comments id :
  query_safe id = true →
  url_parts ("/api/tickets/" +:+ id +:+ "/comments") = (Some ["api"; "tickets"; id; "comments"], "").
Proof.
  intros Hq. change ("/api/tickets/" +:+ id +:+ "/comments")
    with (path_of ["api"; "tickets"; id; "comments"]).
  apply url_parts_path; [done|]. repeat constructor. by apply plain_segment_safe.
Qed.

Lemma url_ticket id :
  plain_segment id = true → url_parts ("/api/tickets/" +:+ id) = (Some ["api"; "tickets"; id], "").
Proof.
  intros Hq. replace ("/api/tickets/" +:+ id) with (path_of ["api"; "tickets"; id])
    by (cbn [path_of]; by rewrite string_app_nil_r).
  apply url_parts_path; [done|]. by repeat constructor.
Qed.

(** ** Each fetch call reaches its route *)

Section Routing.
Variable mw : Hosting.

Lemma login_fetch_routed name : dispatch mw (login_fetch name) = Handled (Login (Some name)).
Proof. done. Qed.

Lemma tickets_url_routed uid role :
  query_safe uid = true → query_safe role = true →
  dispatch mw (mkHttp GET ("/api/tickets?userId=" +:+ uid +:+ "&role=" +:+ role) None) =
    Handled (GetTickets (Some uid) (Some role)).
Proof.
  intros Hid Hrole. unfold dispatch. cbn [url json method parsed_body].
  change ("/api/tickets?userId=" +:+ uid +:+ "&role=" +:+ role)
    with (path_of ["api"; "tickets"] +:+ String "?" (query_of [("userId", uid); ("role", role)])).
  rewrite url_parts_query; [|done|by repeat constructor|].
  2:{ cbn [query_of]. repeat (rewrite no_char_app; simpl).
      by rewrite !no_char_safe by (done || reserved). }
  rewrite qs_parse_query_of; [done|done|].
  repeat constructor; unfold query_pair_safe; simpl; by rewrite ?Hid, ?Hrole.
Qed.

Lemma tickets_fetch_routed u :
  query_safe (js_template u.(ClientUser.id)) = true → query_safe (js_template u.(ClientUser.role)) = true →
  dispatch mw (tickets_fetch u) =
    Handled (GetTickets (Some (js_template u.(ClientUser.id))) (Some (js_template u.(ClientUser.role)))).
Proof. apply tickets_url_routed. Qed.

Lemma stats_fetch_routed : dispatch mw stats_fetch = Handled GetStats.
Proof. done. Qed.

Lemma agents_fetch_routed : dispatch mw agents_fetch = Handled GetAgents.
Proof. done. Qed.

Lemma comments_fetch_routed id :
  segment_safe id = true → dispatch mw (comments_fetch id) = Handled (GetComments id).
Proof.
  intros [Hq Hne]%segment_safe_inv. unfold dispatch, comments_fetch. cbn [url json method parsed_body].
  rewrite url_ticket_comments by done. route Hne. done.
Qed.

End Routing.

(** ** The server reads back the bodies the client writes *)

Lemma comment_json_read uid uname text :
  comment_body_of (json_object (json_prop "userId" uid ++ json_prop "userName" uname ++
                                [("text", JStr text)])) =
    Some (CommentBody.mkCommentBody uid uname (Some text)).
Proof. unfold comment_body_of. read_fields. done. Qed.

Lemma status_json_read st uid uname :
  patch_body_of (json_object ([("status", JStr (TicketStatus_value st))] ++
                              json_prop "userId" uid ++ json_prop "userName" uname)) =
    Some (PatchBody.mkPatchBody (Some st) None None None uid uname).
Proof. unfold patch_body_of. read_fields. done. Qed.

Lemma assign_json_read uid uname :
  patch_body_of (json_object (json_prop "agentId" uid ++ json_prop "agentName" uname ++
                              [("status", JStr (TicketStatus_value IN_PROGRESS))] ++
                              json_prop "userId" uid ++ json_prop "userName" uname)) =
    Some (PatchBody.mkPatchBody (Some IN_PROGRESS) uid uname None uid uname).
Proof. unfold patch_body_of. read_fields. done. Qed.

(** The [newTicket] the form posts, once [express.json()] has parsed it,
    destructures to the body the model's handler sends. *)
Lemma newTicket_read c u f :
  form_typed f → parsed_body (Some (newTicket c u f)) ≫= ticket_body_of = Some (ticket_body c u f).
Proof.
  intros Hf. unfold form_typed in Hf.
  destruct (TicketForm.priority f) as [v|] eqn:Hp; [destruct (Hf v eq_refl) as [p Hv]|].
  all: unfold newTicket, ticket_body; simpl parsed_body; simpl mbind; unfold ticket_body_of.
  all: rewrite Hp; read_fields; rewrite ?Hv; done.
Qed.

Section BodyRoutes.
Variable mw : Hosting.

Lemma add_comment_fetch_routed u t text :
  segment_safe t.(Ticket.id) = true →
  dispatch mw (add_comment_fetch u t text) =
    Handled (PostComment t.(Ticket.id)
               (CommentBody.mkCommentBody u.(ClientUser.id) u.(ClientUser.fullName) (Some text))).
Proof.
  intros [Hq Hne]%segment_safe_inv. unfold dispatch, add_comment_fetch. cbn [url json method].
  remember (json_prop "userId" _ ++ _) as fs eqn:Hfs. simpl parsed_body.
  rewrite url_ticket_comments by done. route Hne. by rewrite Hfs, comment_json_read.
Qed.

Lemma create_fetch_routed c u f :
  form_typed f → dispatch mw (create_fetch c u f) = Handled (PostTicket (ticket_body c u f)).
Proof.
  intros Hf. pose proof (newTicket_read c u f Hf) as Hr. unfold dispatch, create_fetch.
  cbn [url json method]. destruct (parsed_body _) as [b|]; [|done]. simpl in Hr |- *.
  by rewrite Hr.
Qed.

Lemma status_fetch_routed u id st :
  segment_safe id = true →
  dispatch mw (status_fetch u id st) =
    Handled (PatchTicket id (PatchBody.mkPatchBody (Some st) None None None
                               u.(ClientUser.id) u.(ClientUser.fullName))).
Proof.
  intros [Hq Hne]%segment_safe_inv. unfold dispatch, status_fetch. cbn [url json method].
  remember ([("status", _)] ++ _) as fs eqn:Hfs. simpl parsed_body.
  rewrite url_ticket by (by apply plain_segment_safe). route Hne. by rewrite Hfs, status_json_read.
Qed.

Lemma assign_fetch_routed u id :
  segment_safe id = true →
  dispatch mw (assign_fetch u id) =
    Handled (PatchTicket id (PatchBody.mkPatchBody (Some IN_PROGRESS) u.(ClientUser.id)
                               u.(ClientUser.fullName) None u.(ClientUser.id) u.(ClientUser.fullName))).
Proof.
  intros [Hq Hne]%segment_safe_inv. unfold dispatch, assign_fetch. cbn [url json method].
  remember (json_prop "agentId" _ ++ _) as fs eqn:Hfs. simpl parsed_body.
  rewrite url_ticket by (by apply plain_segment_safe). route Hne. by rewrite Hfs, assign_json_read.
Qed.

End BodyRoutes.

(** Every fetch call whose URL text is safe reaches the request the
    model's handler sends. *)
Lemma fetch_call_dispatch mw r h :
  fetch_call r h → params_safe r = true → dispatch mw h = Handled r.
Proof.
  destruct 1 as [name|u| | |id|u t text|c u f Hf|u id st|u id]; simpl; intros Hr.
  - apply login_fetch_routed.
  - apply andb_prop in Hr as [Hid Hrole]. by apply tickets_fetch_routed.
  - apply stats_fetch_routed.
  - apply agents_fetch_routed.
  - by apply comments_fetch_routed.
  - by apply add_comment_fetch_routed.
  - by apply create_fetch_routed.
  - by apply status_fetch_routed.
  - by apply assign_fetch_routed.
Qed.

(** ** What the application does with the requests the client does not
    send *)

Lemma dispatch_passed_on mw m segs q b :
  segs ≠ [] → Forall (λ s, plain_segment s = true) segs → no_char "#" q = true →
  parsed_body b ≠ None → find_route m segs routes = None →
  dispatch mw (mkHttp m (path_of segs +:+ String "?" q) b) = PassedOn mw.
Proof.
  intros Hne Hall Hq Hb Hr. unfold dispatch. cbn [url json method].
  destruct (parsed_body b); [|done]. rewrite url_parts_query by done. cbn -[find_route].
  by rewrite Hr.
Qed.

(** A path whose first segment is not [api] matches no route. *)
Lemma find_route_not_api m s segs :
  String.eqb (string_lower s) "api" = false → find_route m (s :: segs) routes = None.
Proof. intros Hs. simpl. rewrite Hs. by repeat case_match. Qed.

(** A form whose priority is not a member's value: the handler would
    read a string the model's request cannot hold. *)
Lemma newTicket_untyped c u f v :
  f.(TicketForm.priority) = Some v → TicketPriority_of_value v = None →
  parsed_body (Some (newTicket c u f)) ≫= ticket_body_of = None.
Proof.
  intros Hp Hv. unfold newTicket. simpl parsed_body; simpl mbind; unfold ticket_body_of.
  rewrite Hp. read_fields. by rewrite Hv.
Qed.

Lemma create_fetch_untyped mw c u f v :
  f.(TicketForm.priority) = Some v → TicketPriority_of_value v = None →
  dispatch mw (create_fetch c u f) = Untyped.
Proof.
  intros Hp Hv. pose proof (newTicket_untyped c u f v Hp Hv) as Hr. unfold dispatch, create_fetch.
  cbn [url json method]. destruct (parsed_body _) as [b|] eqn:Hb.
  2:{ unfold newTicket in Hb. simpl in Hb. congruence. }
  simpl in Hr |- *.
  by rewrite Hr.
Qed.

Lemma patch_bad_escape mw id b :
  plain_segment id = true → String.eqb id "" = false → pct_decode id = None →
  parsed_body b ≠ None → dispatch mw (mkHttp PATCH ("/api/tickets/" +:+ id) b) = Rejected 400.
Proof.
  intros Hq Hne Hpct Hb. unfold dispatch. cbn [url json method].
  destruct (parsed_body b); [|done]. rewrite url_ticket by done. simpl. rewrite Hne. simpl.
  by rewrite Hpct.
Qed.

Lemma get_single_ticket_passed_on mw id :
  segment_safe id = true → dispatch mw (mkHttp GET ("/api/tickets/" +:+ id) None) = PassedOn mw.
Proof.
  intros [Hq Hne]%segment_safe_inv. unfold dispatch. cbn [url json method parsed_body].
  rewrite url_ticket by (by apply plain_segment_safe). route Hne. done.
Qed.

(** ** The HTTP layer *)

(** C12: each [fetch] call of the client reaches, through URL, JSON body,
    [express.json()], the router and the destructuring of [req.body] and
    [req.query], the route handler with exactly the request the model's
    handler passes to the server: whichever hosting middleware comes
    after the routes, for every user and body, provided the text
    interpolated into the URL is URL-safe (the ticket id a path segment,
    the user's id and role query values) and the form's priority is a
    member's value (the [select] offers no other). *)
Theorem client_requests_routed (NODE_ENV : option string) :
  (∀ name, serve NODE_ENV (login_fetch name) = Handled (Login (Some name))) ∧
  (∀ u, query_safe (js_template u.(ClientUser.id)) = true →
        query_safe (js_template u.(ClientUser.role)) = true →
        serve NODE_ENV (tickets_fetch u) =
          Handled (GetTickets (Some (js_template u.(ClientUser.id)))
                              (Some (js_template u.(ClientUser.role))))) ∧
  serve NODE_ENV stats_fetch = Handled GetStats ∧
  serve NODE_ENV agents_fetch = Handled GetAgents ∧
  (∀ id, segment_safe id = true → serve NODE_ENV (comments_fetch id) = Handled (GetComments id)) ∧
  (∀ u t text, segment_safe t.(Ticket.id) = true →
     serve NODE_ENV (add_comment_fetch u t text) =
       Handled (PostComment t.(Ticket.id)
                  (CommentBody.mkCommentBody u.(ClientUser.id) u.(ClientUser.fullName) (Some text)))) ∧
  (∀ c u f, form_typed f → serve NODE_ENV (create_fetch c u f) = Handled (PostTicket (ticket_body c u f))) ∧
  (∀ u id st, segment_safe id = true →
     serve NODE_ENV (status_fetch u id st) =
       Handled (PatchTicket id (PatchBody.mkPatchBody (Some st) None None None
                                  u.(ClientUser.id) u.(ClientUser.fullName)))) ∧
  (∀ u id, segment_safe id = true →
     serve NODE_ENV (assign_fetch u id) =
       Handled (PatchTicket id (PatchBody.mkPatchBody (Some IN_PROGRESS) u.(ClientUser.id)
                                  u.(ClientUser.fullName) None u.(ClientUser.id) u.(ClientUser.fullName)))).
Proof.
  unfold serve. split_and!; intros;
    eauto using login_fetch_routed, tickets_fetch_routed, stats_fetch_routed, agents_fetch_routed,
      comments_fetch_routed, add_comment_fetch_routed, create_fetch_routed, status_fetch_routed,
      assign_fetch_routed.
Qed.

(** C22: the requests the page does not send.  A path outside [/api] (a
    page of the application itself) and a path of the API the server
    does not route, such as [GET /api/tickets/:id], go on to the hosting
    middleware: Vite unless [NODE_ENV] is ["production"], the files of
    [dist] then; a PATCH whose ticket id holds a malformed escape is
    answered 400 by Express before the handler; so is any request whose
    JSON body is neither an object nor an array; and a ticket form whose
    priority is no member's value reaches [POST /api/tickets] with a
    value the handler's [TicketPriority] field cannot hold. *)
Theorem unrouted_requests (NODE_ENV : option string) :
  let hosting := if bool_decide (NODE_ENV = Some "production") then StaticFiles "dist"
                 else ViteMiddleware in
  (∀ m s segs q b, String.eqb (string_lower s) "api" = false →
     Forall (λ s, plain_segment s = true) (s :: segs) → no_char "#" q = true → parsed_body b ≠ None →
     serve NODE_ENV (mkHttp m (path_of (s :: segs) +:+ String "?" q) b) = PassedOn hosting) ∧
  (∀ id, segment_safe id = true →
     serve NODE_ENV (mkHttp GET ("/api/tickets/" +:+ id) None) = PassedOn hosting) ∧
  (∀ id b, plain_segment id = true → String.eqb id "" = false → pct_decode id = None →
     parsed_body b ≠ None → serve NODE_ENV (mkHttp PATCH ("/api/tickets/" +:+ id) b) = Rejected 400) ∧
  (∀ m u j, (∀ fs, j ≠ JObj fs) → (∀ l, j ≠ JArr l) →
     serve NODE_ENV (mkHttp m u (Some j)) = Rejected 400) ∧
  (∀ c u f v, f.(TicketForm.priority) = Some v → TicketPriority_of_value v = None →
     serve NODE_ENV (create_fetch c u f) = Untyped).
Proof.
  intros hosting. unfold serve. split_and!.
  - intros m s segs q b Hs Hall Hq Hb. apply dispatch_passed_on; try done.
    by apply find_route_not_api.
  - apply get_single_ticket_passed_on.
  - apply patch_bad_escape.
  - intros m u j Hobj Harr. unfold dispatch. cbn [json].
    destruct j; simpl; try done; [by destruct (Harr l) | by destruct (Hobj fields)].
  - apply create_fetch_untyped.
Qed.

(** ** Witnesses *)

Definition user1_client : ClientUser :=
  ClientUser.mkClientUser (Some "u1") (Some "user1") (Some "Usuario 1") (Some "user")
    (Some "Operaciones") (Some "user1@empresa.com").

Lemma client_requests_routed_witness :
  serve None (tickets_fetch user1_client) = Handled (GetTickets (Some "u1") (Some "user")) ∧
  serve None (status_fetch user1_client "T-1001" RESOLVED) =
    Handled (PatchTicket "T-1001" (PatchBody.mkPatchBody (Some RESOLVED) None None None
                                    (Some "u1") (Some "Usuario 1"))).
Proof.
  destruct (client_requests_routed None) as (_ & Ht & _ & _ & _ & _ & _ & Hs & _).
  split; [apply Ht | apply Hs]; reflexivity.
Defined.

Lemma unrouted_requests_witness :
  serve (Some "production") (mkHttp GET ("/api/tickets/" +:+ "T-1001") None) = PassedOn (StaticFiles "dist") ∧
  serve None (mkHttp PATCH ("/api/tickets/" +:+ "T%zz") (Some (JObj []))) = Rejected 400.
Proof.
  destruct (unrouted_requests (Some "production")) as (_ & Hget & _ & _ & _).
  destruct (unrouted_requests None) as (_ & _ & Hpatch & _ & _).
  split; [apply Hget | apply Hpatch]; try reflexivity; discriminate.
Defined.
