(* ===== verification/View.v ===== *)
(** The render function of [App] in [src/src/App.tsx] (lines 333-1033):
    what each view shows and which handler each control runs, as a pure
    function of the client state.  The styling (class names, icons,
    animations) is left out; the text a reader sees, the values shown,
    the conditions under which a block appears and the [onClick] and
    [onSubmit] handlers are kept.

    Rendering can throw: [x.charAt(0)] on a field that the JSON object
    lacks reads [undefined.charAt] and raises a [TypeError], which React
    turns into an unmounted application.  [render] answers a [Result]:
    the screen, or the exception. *)

From S2P Require Import Prelude Types Users Tickets Comments Stats Server Client.
Import JsObject Users TicketStore CommentStore Server Client.

(** ** Exceptions *)

Inductive Result (A : Type) : Type :=
| Ok (a : A)
| Throw (e : string).
Arguments Ok {A} a.
Arguments Throw {A} e.

Definition res_bind {A B} (m : Result A) (k : A → Result B) : Result B :=
  match m with Ok a => k a | Throw e => Throw e end.

Notation "'let?' x := m 'in' k" := (res_bind m (λ x, k))
  (at level 10, x binder, m at level 100, k at level 200) : ticket_scope.

Definition res_fmap {A B} (f : A → B) (m : Result A) : Result B :=
  let? a := m in Ok (f a).

(** [Array.prototype.map] with a callback that may throw: the elements
    are visited left to right and the first exception propagates. *)
Fixpoint res_map {A B} (f : A → Result B) (l : list A) : Result (list B) :=
  match l with
  | [] => Ok []
  | x :: l' => let? y := f x in let? ys := res_map f l' in Ok (y :: ys)
  end.

Definition is_throw {A} (r : Result A) : bool :=
  match r with Throw _ => true | Ok _ => false end.

Definition TypeError : string := "TypeError".

(** [s.charAt(0)] on a field read from a JSON object: [undefined] has no
    [charAt]; a string answers its first character ([""] when empty).
    Characters are the bytes of the model's strings. *)
Definition charAt0 (s : option string) : Result string :=
  match s with
  | Some s => Ok (String.substring 0 1 s)
  | None => Throw TypeError
  end.

(** [user?.fullName.charAt(0)]: the optional chain stops at a [null]
    user only; a user object without [fullName] throws. *)
Definition user_initial (u : option ClientUser) : Result (option string) :=
  match u with
  | None => Ok None
  | Some u => res_fmap Some (charAt0 u.(ClientUser.fullName))
  end.

(** [a || d] on an optional string. *)
Definition js_or (a : option string) (d : string) : string :=
  if js_truthy a then default d a else d.

(** [user?.role === r]. *)
Definition has_user_role (c : ClientState) (r : UserRole) : bool :=
  bool_decide ((c.(user) ≫= ClientUser.role) = Some (UserRole_value r)).

Module View.

(** ** Landing *)

Record RoleCard := mkRoleCard {
  card_role : UserRole;
  card_title : string;
  card_desc : string;
  card_click : Prog
}.

(** A card's [onClick]: [setSelectedRole(item.role); setView('login')]. *)
Definition role_card (r : UserRole) (title desc : string) : RoleCard :=
  mkRoleCard r title desc (Upd (SetSelectedRole (Some r)) (Upd (SetView LoginView) Done)).

Definition landing_cards : list RoleCard :=
  [role_card USER "Usuario Final" "Crear y seguir mis tickets";
   role_card AGENT "Agente IT" "Gestionar tickets asignados";
   role_card ADMIN "Administrador" "Visión global y métricas"].

(** ** Login *)

Record LoginScreen := mkLoginScreen {
  login_back : Prog;
  login_role : option string;
  login_placeholder : string;
  login_button : string;
  login_disabled : bool;
  login_submit : string → Prog
}.

(** The submit of the login form: the [required] input blocks an empty
    name and the disabled button blocks submission while loading. *)
Definition login_screen (c : ClientState) : LoginScreen :=
  mkLoginScreen (Upd (SetView Landing) Done)
    (UserRole_value <$> c.(selectedRole))
    (if bool_decide (c.(selectedRole) = Some USER) then "user1...user20"
     else if bool_decide (c.(selectedRole) = Some AGENT) then "agente1...agente4"
     else "admin1...admin3")
    (if c.(loading) then "Cargando..." else "Entrar al Sistema")
    c.(loading)
    (λ name, if c.(loading) || String.eqb name "" then Done else handleLogin name).

(** ** Sidebar and header *)

Record NavItem := mkNavItem {
  nav_label : string;
  nav_active : bool;
  nav_click : Prog
}.

Record Sidebar := mkSidebar {
  sb_nav : list NavItem;
  sb_initial : option string;
  sb_name : option string;
  sb_role : option string;
  sb_logout : Prog
}.

(** [!selectedTicket && !isCreating]: the list is on screen. *)
Definition list_active (c : ClientState) : bool :=
  negb (bool_decide (is_Some c.(selectedTicket))) && negb c.(isCreating).

Definition go_dashboard : Prog :=
  Upd (SetSelectedTicket None) (Upd (SetIsCreating false) Done).

Definition go_create : Prog :=
  Upd (SetIsCreating true) (Upd (SetSelectedTicket None) Done).

Definition nav_items (c : ClientState) : list NavItem :=
  [mkNavItem "Dashboard" (list_active c) go_dashboard;
   mkNavItem "Nuevo Ticket" c.(isCreating) go_create] ++
  (if has_user_role c AGENT
   then [mkNavItem "Mis Tickets" (list_active c) (seq_prog go_dashboard (fetchTickets c))]
   else []) ++
  [mkNavItem "Historial" false Done] ++
  (if has_user_role c ADMIN then [mkNavItem "Usuarios" false Done] else []).

(** The sidebar; "Cerrar Sesión" only switches the view. *)
Definition sidebar (c : ClientState) : Result Sidebar :=
  let? ini := user_initial c.(user) in
  Ok (mkSidebar (nav_items c) ini (c.(user) ≫= ClientUser.fullName)
        (c.(user) ≫= ClientUser.role) (Upd (SetView Landing) Done)).

Definition header_title (c : ClientState) : string :=
  if c.(isCreating) then "Crear Nuevo Ticket"
  else match c.(selectedTicket) with
       | Some t => "Ticket " +:+ t.(Ticket.id)
       | None => "Dashboard Principal"
       end.

(** ** The ticket form *)

Record FormScreen := mkFormScreen {
  form_requester : list (option string);
  form_stations : list (string * string);
  form_areas : list (string * string);
  form_area_disabled : bool;
  form_categories : list string;
  form_priorities : list string;
  form_agents : list (string * string);
  form_station_change : string → Prog;
  form_cancel : Prog;
  form_submit : TicketForm → Prog
}.

(** A [required] field is filled: submitted and not empty. *)
Definition filled (v : option string) : bool := js_truthy v.

(** The browser's constraint validation of the form: every [required]
    control is filled, except the area select while it is disabled
    (a disabled control is not validated). *)
Definition form_valid (c : ClientState) (f : TicketForm) : bool :=
  filled f.(TicketForm.station) &&
  (String.eqb c.(selectedStation) "" || filled f.(TicketForm.area)) &&
  filled f.(TicketForm.category) && filled f.(TicketForm.priority) &&
  filled f.(TicketForm.title) && filled f.(TicketForm.description).

Definition form_screen (c : ClientState) : FormScreen :=
  mkFormScreen
    [c.(user) ≫= ClientUser.fullName; c.(user) ≫= ClientUser.department;
     c.(user) ≫= ClientUser.email]
    (("", "Seleccione Estación") ::
     ((λ s, (s, s)) <$> ["Estación 1"; "Estación 2"; "Estación 3"; "Estación 4"]))
    (("", "Seleccione Área") :: ((λ a, (a, a)) <$> c.(availableAreas)))
    (String.eqb c.(selectedStation) "")
    CATEGORIES
    (TicketPriority_value <$> TicketPriority_values)
    (("", "Pendiente de Asignación") ::
     ((λ a, (a.(MockUser.id), a.(MockUser.fullName))) <$> c.(agents)))
    handleStationChange
    (Upd (SetIsCreating false) Done)
    (λ f, if form_valid c f then handleCreateTicket c f else Done).

(** ** The ticket detail *)

Record ActionPanel := mkActionPanel {
  ap_take : option Prog;
  ap_agent : option (bool * Prog * Prog);
  ap_status_options : list string;
  ap_status_value : string;
  ap_status_change : TicketStatus → Prog
}.

(** The action bar: "Tomar Ticket" for an unassigned ticket, the
    assigned agent's two buttons ("Pendiente / Espera" highlighted when
    waiting, "Marcar Resuelto"), and the status select, whose options are
    the values of [TicketStatus]. *)
Definition action_panel (c : ClientState) (t : Ticket) : option ActionPanel :=
  if show_actions c t then
    Some (mkActionPanel
            (if show_take t then Some (assignToMe c t.(Ticket.id)) else None)
            (if show_agent_buttons c t
             then Some (bool_decide (t.(Ticket.status) = WAITING),
                        updateTicketStatus c t.(Ticket.id) WAITING,
                        updateTicketStatus c t.(Ticket.id) RESOLVED)
             else None)
            (TicketStatus_value <$> TicketStatus_values)
            (TicketStatus_value t.(Ticket.status))
            (λ s, updateTicketStatus c t.(Ticket.id) s))
  else None.

Record CommentView := mkCommentView {
  cv_initial : string;
  cv_mine : bool;
  cv_name : option string;
  cv_date : nat;
  cv_text : option string
}.

(** One comment: [c.userName.charAt(0)] and [c.userId === user?.id]. *)
Definition comment_view (c : ClientState) (cm : TicketComment) : Result CommentView :=
  let? ini := charAt0 cm.(TicketComment.userName) in
  Ok (mkCommentView ini (bool_decide (cm.(TicketComment.userId) = c.(user) ≫= ClientUser.id))
        cm.(TicketComment.userName) cm.(TicketComment.createdAt) cm.(TicketComment.text)).

Record HistoryView := mkHistoryView {
  hv_connector : bool;
  hv_action : string;
  hv_user : option string;
  hv_time : nat
}.

(** The timeline: entry [i] draws a connector to the next one when
    [i !== history.length - 1]. *)
Definition history_view (h : list HistoryEntry) : list HistoryView :=
  imap (λ i e, mkHistoryView (negb (i =? length h - 1)) e.(HistoryEntry.action)
                  e.(HistoryEntry.userName) e.(HistoryEntry.timestamp)) h.

Record DetailScreen := mkDetailScreen {
  d_back : Prog;
  d_actions : option ActionPanel;
  d_title : option string;
  d_status : string;
  d_status_class : string;
  d_created : nat;
  d_priority : option string;
  d_priority_class : option string;
  d_description : option string;
  d_comments : list CommentView;
  d_no_comments : bool;
  d_comment_initial : option string;
  d_comment_text : string;
  d_comment_change : string → Prog;
  d_comment_submit : Prog;
  d_category : option string;
  d_creator : option string;
  d_dept : option string;
  d_agent : string;
  d_sla_time : string;
  d_sla_target : string;
  d_history : list HistoryView
}.

(** The detail of a ticket.  The "Tiempo SLA" card shows a fixed time and
    target, whatever the ticket. *)
Definition detail (c : ClientState) (t : Ticket) : Result DetailScreen :=
  let? cvs := res_map (comment_view c) c.(comments) in
  let? ini := user_initial c.(user) in
  Ok (mkDetailScreen (Upd (SetSelectedTicket None) Done) (action_panel c t)
        t.(Ticket.title) (TicketStatus_value t.(Ticket.status)) (STATUS_COLORS t.(Ticket.status))
        t.(Ticket.createdAt) (TicketPriority_value <$> t.(Ticket.priority))
        (PRIORITY_COLORS <$> t.(Ticket.priority)) t.(Ticket.description)
        cvs (bool_decide (c.(comments) = [])) ini c.(commentText)
        (λ v, Upd (SetCommentText v) Done) (handleAddComment c)
        t.(Ticket.category) t.(Ticket.creatorName) t.(Ticket.creatorDept)
        (js_or t.(Ticket.agentName) "Sin asignar")
        "02:45:12" "SLA Objetivo: 4 horas para prioridad Alta"
        (history_view t.(Ticket.history))).

(** ** The dashboard overview *)

Record Row := mkRow {
  row_id : string;
  row_title : option string;
  row_category : option string;
  row_status : string;
  row_status_class : string;
  row_priority : option string;
  row_priority_class : option string;
  row_initial : string;
  row_creator : option string;
  row_agent : string;
  row_date : nat;
  row_open : Prog
}.

(** A row of the ticket table: [ticket.creatorName.charAt(0)] throws for
    a ticket stored without [creatorName]. *)
Definition row (t : Ticket) : Result Row :=
  let? ini := charAt0 t.(Ticket.creatorName) in
  Ok (mkRow t.(Ticket.id) t.(Ticket.title) t.(Ticket.category)
        (TicketStatus_value t.(Ticket.status)) (STATUS_COLORS t.(Ticket.status))
        (TicketPriority_value <$> t.(Ticket.priority)) (PRIORITY_COLORS <$> t.(Ticket.priority))
        ini t.(Ticket.creatorName) (js_or t.(Ticket.agentName) "Pendiente")
        t.(Ticket.createdAt) (Upd (SetSelectedTicket (Some t)) Done)).

(** The admin's four cards, shown when [stats] has been loaded. *)
Definition admin_cards (c : ClientState) : option (list (string * nat)) :=
  if has_user_role c ADMIN then
    (λ st, [("Total Tickets", Stats.total st); ("Abiertos", Stats.open st);
            ("En Proceso", Stats.inProgress st); ("Resueltos", Stats.resolved st)])
      <$> c.(stats)
  else None.

(** The agent's counters "Mis Tickets Asignados" (neither resolved nor
    closed) and "Resueltos este mes" (resolved). *)
Definition agent_counters (ts : list Ticket) : nat * nat :=
  (length (List.filter (λ t, negb (has_status RESOLVED t) && negb (has_status CLOSED t)) ts),
   length (List.filter (has_status RESOLVED) ts)).

Definition table_title (c : ClientState) : string :=
  if has_user_role c USER then "Mis Requerimientos"
  else if has_user_role c AGENT then "Bandeja de Entrada IT"
  else "Gestión de Incidentes Global".

Record Overview := mkOverview {
  ov_admin_cards : option (list (string * nat));
  ov_agent_cards : option (nat * nat);
  ov_title : string;
  ov_badge : option nat;
  ov_rows : list Row;
  ov_empty : option Prog
}.

Definition overview (c : ClientState) : Result Overview :=
  let? rows := res_map row c.(tickets) in
  Ok (mkOverview (admin_cards c)
        (if has_user_role c AGENT then Some (agent_counters c.(tickets)) else None)
        (table_title c)
        (if has_user_role c AGENT then Some (length c.(tickets)) else None)
        rows
        (if bool_decide (c.(tickets) = []) then Some (Upd (SetIsCreating true) Done) else None)).

(** ** The whole screen *)

Inductive Main :=
| MCreate (f : FormScreen)
| MDetail (d : DetailScreen)
| MOverview (o : Overview).

Inductive Screen :=
| SLanding (cards : list RoleCard)
| SLogin (l : LoginScreen)
| SDashboard (sb : Sidebar) (title : string) (main : Main).

(** [isCreating ? form : selectedTicket ? detail : overview]. *)
Definition main_panel (c : ClientState) : Result Main :=
  if c.(isCreating) then Ok (MCreate (form_screen c))
  else match c.(selectedTicket) with
       | Some t => res_fmap MDetail (detail c t)
       | None => res_fmap MOverview (overview c)
       end.

Definition render (c : ClientState) : Result Screen :=
  match c.(view) with
  | Landing => Ok (SLanding landing_cards)
  | LoginView => Ok (SLogin (login_screen c))
  | Dashboard =>
      let? sb := sidebar c in
      let? m := main_panel c in
      Ok (SDashboard sb (header_title c) m)
  end.
End View.

Import View.

(** ** Which renders throw *)

Lemma is_throw_bind_indep {A B} (m : Result A) (k : A → Result B) b :
  (∀ a, is_throw (k a) = b) → is_throw (res_bind m k) = is_throw m || b.
Proof. intros Hk. destruct m; simpl; [apply Hk | done]. Qed.

Lemma is_throw_fmap {A B} (f : A → B) m : is_throw (res_fmap f m) = is_throw m.
Proof. by destruct m. Qed.

Lemma is_throw_res_map {A B} (f : A → Result B) l :
  is_throw (res_map f l) = existsb (λ x, is_throw (f x)) l.
Proof.
  induction l as [|x l IH]; simpl; [done|].
  destruct (f x); simpl; [|done]. rewrite <- IH. by destruct (res_map f l).
Qed.

Lemma res_map_Throw {A B} (f : A → Result B) l e :
  res_map f l = Throw e → ∃ x, x ∈ l ∧ f x = Throw e.
Proof.
  induction l as [|x l IH]; simpl; [done|].
  destruct (f x) eqn:Hf; simpl.
  - destruct (res_map f l); [done|]. intros [= <-].
    destruct IH as (y & ? & ?); [done|]. exists y. split; [by right | done].
  - intros [= <-]. exists x. split; [left | done].
Qed.

(** A [charAt(0)] followed by code that cannot throw throws a
    [TypeError] or nothing. *)
Lemma charAt0_then_Ok {B} s (g : string → B) e :
  res_bind (charAt0 s) (λ x, Ok (g x)) = Throw e → e = TypeError.
Proof. destruct s; simpl; congruence. Qed.

Lemma is_throw_charAt0_then_Ok {B} s (g : string → B) :
  is_throw (res_bind (charAt0 s) (λ x, Ok (g x))) = true ↔ s = None.
Proof. by destruct s. Qed.

(** [user?.fullName.charAt(0)] throws exactly for a user without a name. *)
Definition lacks_fullName (u : option ClientUser) : bool :=
  if u is Some x then (if x.(ClientUser.fullName) is Some _ then false else true) else false.

Lemma user_initial_Throw u e : user_initial u = Throw e → e = TypeError.
Proof. destruct u as [x|]; [|done]. simpl. by destruct (ClientUser.fullName x); intros [= <-]. Qed.

Lemma is_throw_user_initial u : is_throw (user_initial u) = lacks_fullName u.
Proof. destruct u as [x|]; [|done]. simpl. by destruct (ClientUser.fullName x). Qed.

Lemma lacks_fullName_spec u :
  lacks_fullName u = true ↔ ∃ x, u = Some x ∧ x.(ClientUser.fullName) = None.
Proof.
  destruct u as [x|]; simpl; [|naive_solver].
  destruct (ClientUser.fullName x) eqn:E; split; try naive_solver; congruence.
Qed.

(** Every exception a render raises is a [TypeError]. *)
Lemma render_Throw c e : render c = Throw e → e = TypeError.
Proof.
  unfold render, sidebar, main_panel, detail, overview, res_fmap.
  destruct (view c); [done | done |].
  destruct (user_initial (user c)) eqn:Hu; simpl; [|intros [= <-]; by eapply user_initial_Throw].
  destruct (isCreating c); [done|]. destruct (selectedTicket c) as [t|].
  - destruct (res_map (comment_view c) (comments c)) eqn:Hm; simpl; [done|].
    intros [= <-]. apply res_map_Throw in Hm as (cm & _ & Hcm). by eapply charAt0_then_Ok, Hcm.
  - destruct (res_map row (tickets c)) eqn:Hm; simpl; [done|].
    intros [= <-]. apply res_map_Throw in Hm as (t & _ & Ht). by eapply charAt0_then_Ok, Ht.
Qed.

(** Whether a render throws, as a boolean computed from the state. *)
Lemma is_throw_render c :
  is_throw (render c) =
    match c.(view) with
    | Dashboard =>
        lacks_fullName c.(user) ||
        (negb c.(isCreating) &&
         match c.(selectedTicket) with
         | Some _ => existsb (λ cm, is_throw (comment_view c cm)) c.(comments)
         | None => existsb (λ t, is_throw (row t)) c.(tickets)
         end)
    | _ => false
    end.
Proof.
  unfold render. destruct (view c); [done | done |].
  rewrite (is_throw_bind_indep _ _ (is_throw (main_panel c))).
  2: { intros a. rewrite (is_throw_bind_indep _ _ false) by done. apply orb_false_r. }
  unfold sidebar. rewrite (is_throw_bind_indep _ _ false), orb_false_r, is_throw_user_initial
    by done.
  unfold main_panel. destruct (isCreating c); simpl; [by rewrite orb_false_r|].
  destruct (selectedTicket c) as [t|]; rewrite is_throw_fmap.
  - unfold detail. rewrite (is_throw_bind_indep _ _ (lacks_fullName (user c))), is_throw_res_map.
    + by destruct (lacks_fullName _), (existsb _ _).
    + intros a. rewrite (is_throw_bind_indep _ _ false), orb_false_r, is_throw_user_initial
        by done. done.
  - unfold overview. rewrite (is_throw_bind_indep _ _ false), orb_false_r by done.
    by rewrite is_throw_res_map.
Qed.

Lemma render_throws_TypeError c : is_throw (render c) = true → render c = Throw TypeError.
Proof. destruct (render c) eqn:E; [done|]. intros _. f_equal. by eapply render_Throw. Qed.

(** A dashboard with a selected ticket, outside the form, that renders
    shows that ticket's detail under the title "Ticket <id>", and its
    comment button runs [handleAddComment] on the page's state. *)
Lemma render_detail c t :
  c.(view) = Dashboard → c.(isCreating) = false → c.(selectedTicket) = Some t →
  is_throw (render c) = false →
  ∃ sb d, render c = Ok (SDashboard sb ("Ticket " +:+ t.(Ticket.id)) (MDetail d)) ∧
          d.(d_comment_submit) = handleAddComment c.
Proof.
  intros Hv Hc Hs Ht. unfold render, main_panel, header_title in *. rewrite Hv, Hc, Hs in *.
  destruct (sidebar c) as [sb|]; [|done]. destruct (detail c t) as [d|] eqn:Hd; [|done].
  exists sb, d. split; [done|].
  unfold detail in Hd. destruct (res_map _ _); [|done]. simpl in Hd.
  destruct (user_initial _); [|done]. by injection Hd as <-.
Qed.

(** The list view renders when the user has a name and every listed
    ticket has a creator name. *)
Lemma render_list_ok c :
  c.(view) = Dashboard → lacks_fullName c.(user) = false →
  c.(isCreating) = false → c.(selectedTicket) = None →
  Forall (λ t, is_Some t.(Ticket.creatorName)) c.(tickets) →
  is_throw (render c) = false.
Proof.
  intros Hv Hu Hc Hs Hall. rewrite is_throw_render, Hv, Hu, Hc, Hs. simpl.
  apply not_true_iff_false. rewrite existsb_elem_of. intros (t & Ht & Hrow).
  rewrite Forall_forall in Hall. destruct (Hall t Ht) as [n Hn].
  unfold row in Hrow. by rewrite Hn in Hrow.
Qed.

(** C14: a render throws exactly in the dashboard, when the logged-in
    user object has no [fullName] (sidebar and comment form), or, outside
    the ticket form, when the detail shows a comment without [userName]
    or the list shows a ticket without [creatorName]; the exception is
    always a [TypeError]. *)
Theorem render_throws_iff (c : ClientState) :
  (∀ e, render c = Throw e → e = TypeError) ∧
  (is_throw (render c) = true ↔
     c.(view) = Dashboard ∧
     ((∃ u, c.(user) = Some u ∧ u.(ClientUser.fullName) = None) ∨
      (c.(isCreating) = false ∧
       match c.(selectedTicket) with
       | Some _ => ∃ cm, cm ∈ c.(comments) ∧ cm.(TicketComment.userName) = None
       | None => ∃ t, t ∈ c.(tickets) ∧ t.(Ticket.creatorName) = None
       end))).
Proof.
  split; [apply render_Throw|]. rewrite is_throw_render.
  destruct (view c); [naive_solver | naive_solver |].
  rewrite orb_true_iff, andb_true_iff, negb_true_iff, lacks_fullName_spec.
  destruct (selectedTicket c); rewrite existsb_elem_of;
    [setoid_rewrite is_throw_charAt0_then_Ok | setoid_rewrite is_throw_charAt0_then_Ok];
    naive_solver.
Qed.

Section Scenarios.
Context `{Env}.

(** C15: one [POST /api/tickets] whose body has no [creatorName] (the
    server stores the body's fields unchecked) breaks the dashboard of
    every administrator: the next reload of the list brings the ticket
    into the table, and rendering its row throws a [TypeError]. *)
Theorem ticket_without_creator_breaks_dashboard (b : TicketBody) (s : Server) (w : io)
    (c : ClientState) (u : ClientUser) :
  b.(TicketBody.creatorName) = None →
  c.(view) = Dashboard → c.(isCreating) = false → c.(selectedTicket) = None →
  c.(user) = Some u → u.(ClientUser.role) = Some (UserRole_value ADMIN) →
  let '((_, s1), w1) := handle (PostTicket b) s w in
  let '((c', _), _) := exec (fetchTickets c) c s1 w1 in
  render c' = Throw TypeError.
Proof.
  intros Hb Hv Hcr Hsel Hu Hr. rewrite handle_post_ticket.
  pose proof (create_ticket_fields b (Server.tickets s) w) as Hf.
  pose proof (create_ticket_copies b (Server.tickets s) w) as Hc.
  destruct (create_ticket b (Server.tickets s) w) as [[t ts] w1]; simpl in Hc.
  destruct Hf as (-> & _). destruct Hc as (_ & _ & _ & Hn & _).
  rewrite exec_fetchTickets, Hu. apply render_throws_TypeError. rewrite is_throw_render.
  destruct c; simpl in *; subst. rewrite Hr. simpl.
  rewrite orb_true_iff. right. apply existsb_elem_of. exists t.
  split; [apply elem_of_app; right; by left|]. unfold row. apply is_throw_charAt0_then_Ok. congruence.
Qed.

(** C16: logging in with a name inherited from [Object.prototype] (such as
    ["constructor"]) enters the dashboard with an empty user object, and
    the first render of the dashboard throws a [TypeError]: the
    application is left blank.  The server is not changed. *)
Theorem prototype_login_breaks_render (k : string) (c : ClientState) (s : Server) (w : io) :
  k ∈ object_prototype_keys →
  let '((c', s'), w') := exec (handleLogin k) c s w in
  s' = s ∧ c'.(view) = Dashboard ∧ render c' = Throw TypeError.
Proof.
  intros Hk. unfold handleLogin. cbn [exec handle]. rewrite (login_prototype_key k Hk).
  destruct c; simpl. split_and!; reflexivity.
Qed.
End Scenarios.

(** ** The history timeline *)

(** The timeline of a ticket shows its history entries in order,
    one per entry, and draws a connector below every entry but the last. *)
Lemma history_timeline (h : list HistoryEntry) :
  hv_action <$> history_view h = HistoryEntry.action <$> h ∧
  hv_connector <$> history_view h =
    replicate (length h - 1) true ++ (if h is [] then [] else [false]).
Proof.
  unfold history_view. rewrite !fmap_imap. split.
  - by rewrite <- imap_const.
  - rewrite <- (imap_not_last h 0). by apply imap_ext.
Qed.

(** ** The agent's counters *)

Lemma agent_counters_partition (ts : list Ticket) :
  (agent_counters ts).1 + (agent_counters ts).2 + count_where (has_status CLOSED) ts = length ts.
Proof.
  unfold agent_counters, count_where, has_status; simpl.
  induction ts as [|t ts IH]; simpl; [done|].
  destruct (Ticket.status t); simpl; lia.
Qed.

(** C33: in an agent's dashboard the two counters, "Mis Tickets
    Asignados" and "Resueltos este mes", together with the closed tickets
    add up to the "Tickets Asignados" badge: closed tickets are counted in
    neither card, and "Resueltos este mes" counts every resolved ticket
    whatever its date. *)
Theorem agent_counters_badge (c : ClientState) (o : Overview) :
  has_user_role c AGENT = true → overview c = Ok o →
  ∃ p r n, o.(ov_agent_cards) = Some (p, r) ∧ o.(ov_badge) = Some n ∧
    n = length c.(tickets) ∧
    p + r + count_where (has_status CLOSED) c.(tickets) = n ∧
    r = count_where (has_status RESOLVED) c.(tickets).
Proof.
  intros Hag Ho. unfold overview in Ho. destruct (res_map row (tickets c)); [|done].
  injection Ho as <-. simpl. rewrite Hag.
  eexists _, _, _. split_and!; [done | done | done | apply agent_counters_partition | done].
Qed.

(** ** The ticket form and the priorities it sends *)

Section Form.
Context `{Env}.

(** C32: a ticket filed from the form with any of the priorities the
    form's select offers is stored with a priority (never [undefined]),
    the one whose wire value was chosen; the form submits only when its
    [required] controls are filled. *)
Theorem form_priority_typed (c : ClientState) (u : ClientUser) (f : TicketForm) (v : string)
    (s : Server) (w : io) :
  c.(user) = Some u → v ∈ (form_screen c).(form_priorities) →
  f.(TicketForm.priority) = Some v → form_valid c f = true →
  let '((c', s'), w') := exec ((form_screen c).(form_submit) f) c s w in
  ∃ t p, s'.(Server.tickets) = s.(Server.tickets) ++ [t] ∧
    t.(Ticket.priority) = Some p ∧ TicketPriority_value p = v.
Proof.
  intros Hu Hv Hf Hval. cbn [form_screen form_submit]. rewrite Hval.
  rewrite (exec_handleCreateTicket _ _ _ _ _ Hu).
  pose proof (create_ticket_fields (ticket_body c u f) (Server.tickets s) w) as Hc.
  destruct (create_ticket _ _ _) as [[t ts] w1].
  destruct Hc as (-> & _ & _ & _ & Hp & _). rewrite exec_fetchTickets.
  apply list_elem_of_fmap in Hv as (p & -> & _).
  exists t, p. split_and!; [done | | done].
  rewrite Hp. simpl. rewrite Hf. simpl. by apply TicketPriority_roundtrip.
Qed.
End Form.

(** ** Witnesses, in the environment whose clock advances one millisecond
    per reading *)

#[local] Existing Instance ticking_env.

Lemma ticket_without_creator_breaks_dashboard_witness :
  let b := TicketBody.mkTicketBody (Some "Sin red") None (Some LOW) None (Some "u9")
             None None None None None None None in
  let u := ClientUser.mkClientUser (Some "admin1") (Some "admin1") (Some "Administrador 1")
             (Some "admin") (Some "IT Management") (Some "admin1@enterprise.com") in
  let c := mkClientState Dashboard None (Some u) [] None false None false "" [] [] "" [] in
  let '((_, s1), w1) := handle (PostTicket b) (fst (init (mk_io 0 0))) (mk_io 3 0) in
  let '((c', _), _) := exec (fetchTickets c) c s1 w1 in
  render c' = Throw TypeError.
Proof. intros b u c. apply (ticket_without_creator_breaks_dashboard b _ _ c u); reflexivity. Defined.

Lemma prototype_login_breaks_render_witness :
  let c := mkClientState LoginView (Some USER) None [] None false None false "" [] [] "" [] in
  "constructor" ∈ object_prototype_keys ∧
  let '((c', s'), w') := exec (handleLogin "constructor") c (fst (init (mk_io 0 0))) (mk_io 3 0) in
  s' = fst (init (mk_io 0 0)) ∧ c'.(view) = Dashboard ∧ render c' = Throw TypeError.
Proof. intros c. split; [decide_by_eval | apply prototype_login_breaks_render; decide_by_eval]. Defined.

Lemma agent_counters_badge_witness :
  let u := ClientUser.mkClientUser (Some "a1") (Some "agente1") (Some "Agente IT 1")
             (Some "agent") (Some "IT Support") (Some "agente1@enterprise.com") in
  let c := mkClientState Dashboard None (Some u) (fst (initial_tickets (mk_io 0 0))) None false
             None false "" [] [] "" [] in
  ∃ o, overview c = Ok o ∧
  ∃ p r n, o.(ov_agent_cards) = Some (p, r) ∧ o.(ov_badge) = Some n ∧
    n = length c.(tickets) ∧
    p + r + count_where (has_status CLOSED) c.(tickets) = n ∧
    r = count_where (has_status RESOLVED) c.(tickets).
Proof.
  intros u c. eexists. split; [reflexivity|].
  apply agent_counters_badge; reflexivity.
Defined.

Lemma form_priority_typed_witness :
  let u := ClientUser.mkClientUser (Some "u5") (Some "user5") (Some "Usuario 5")
             (Some "user") (Some "Marketing") (Some "user5@enterprise.com") in
  let c := mkClientState Dashboard None (Some u) [] None true None false "" []
             (list_agents MOCK_USERS) "Estación 1" ["Ventas"; "Auditoría"; "Caja"] in
  let f := TicketForm.mkTicketForm (Some "Sin VPN") (Some "No conecta") (Some "Alta")
             (Some "Red") (Some "Estación 1") (Some "Ventas") (Some "") in
  "Alta" ∈ (form_screen c).(form_priorities) ∧
  let '((c', s'), w') := exec ((form_screen c).(form_submit) f) c (fst (init (mk_io 0 0)))
                              (mk_io 3 0) in
  ∃ t p, s'.(Server.tickets) = (fst (init (mk_io 0 0))).(Server.tickets) ++ [t] ∧
    t.(Ticket.priority) = Some p ∧ TicketPriority_value p = "Alta".
Proof.
  intros u c f. split; [decide_by_eval|].
  apply (form_priority_typed c u f "Alta"); [reflexivity | decide_by_eval | reflexivity | reflexivity].
Defined.
