(* ===== verification/Widgets.v ===== *)
(** The generic components of [src/src/App.tsx] (lines 33-112): [Badge],
    [Card], [Button], [Input] and [Select], as the element each renders:
    its class attribute (a template literal over the props), the
    attributes it forwards and its handler.  Children are left out.

    The class attribute is read as the DOM reads it, a list of tokens
    separated by white space ([class_tokens]).  A template literal prints
    an absent prop as ["undefined"] ([js_template]); a destructuring
    default ([className = '']) replaces an absent prop only.  No theorem
    is stated here: the findings on [className] (the token ["undefined"]
    of a [Card] or [Badge] without it, the [className] that [Input] and
    [Select] drop) read off these definitions. *)

From S2P Require Import Prelude Types Users Tickets Comments Stats Server Client.
Import Client.

(** ** Class lists *)

Definition flush (cur : string) : list string :=
  if String.eqb cur "" then [] else [cur].

(** The tokens of a class attribute: the maximal runs of characters that
    are not white space, in order. *)
Fixpoint tokens_from (cur : string) (s : string) : list string :=
  match s with
  | EmptyString => flush cur
  | String c s' =>
      if js_is_space c then flush cur ++ tokens_from "" s'
      else tokens_from (cur +:+ String c EmptyString) s'
  end.

Definition class_tokens (s : string) : list string := tokens_from "" s.

Module Widgets.

(** [<span className={`px-2.5 ... border ${className}`}>]. *)
Definition Badge_class (className : option string) : string :=
  "px-2.5 py-0.5 rounded-full text-xs font-medium border" +:+ " " +:+ js_template className.

Record CardEl := mkCardEl {
  card_class : string;
  card_click : option Prog
}.

(** [Card]: the hover classes when an [onClick] is given, then the
    caller's [className]. *)
Definition Card (className : option string) (onClick : option Prog) : CardEl :=
  mkCardEl
    ("bg-white rounded-xl border border-slate-200 shadow-sm overflow-hidden" +:+ " " +:+
     (if onClick is Some _
      then "cursor-pointer hover:border-indigo-300 hover:shadow-md transition-all" else "") +:+
     " " +:+ js_template className)
    onClick.

Inductive Variant := primary | secondary | outline | danger | ghost.

(** The [variants] table of [Button]. *)
Definition variants (v : Variant) : string :=
  match v with
  | primary => "bg-indigo-600 text-white hover:bg-indigo-700 shadow-indigo-200"
  | secondary => "bg-slate-800 text-white hover:bg-slate-900 shadow-slate-200"
  | outline => "bg-white text-slate-700 border border-slate-200 hover:bg-slate-50"
  | danger => "bg-red-600 text-white hover:bg-red-700 shadow-red-200"
  | ghost => "bg-transparent text-slate-600 hover:bg-slate-100"
  end.

Inductive ButtonType := TButton | TSubmit.

Record ButtonEl := mkButtonEl {
  btn_type : ButtonType;
  btn_click : option Prog;
  btn_disabled : bool;
  btn_class : string
}.

(** [Button], with the defaults of its destructuring: [variant =
    'primary'], [className = ''], [type = 'button'], [disabled = false]. *)
Definition Button (variant : option Variant) (className : option string) (onClick : option Prog)
    (type : option ButtonType) (disabled : option bool) : ButtonEl :=
  mkButtonEl (default TButton type) onClick (default false disabled)
    ("px-4 py-2 rounded-lg font-medium transition-all flex items-center justify-center gap-2 disabled:opacity-50 disabled:cursor-not-allowed" +:+
     " " +:+ variants (default primary variant) +:+ " " +:+ default "" className).

(** The attributes a caller passes to [Input] or [Select] besides
    [label] (and [options]). *)
Record FieldProps := mkFieldProps {
  fp_name : option string;
  fp_placeholder : option string;
  fp_required : bool;
  fp_value : option string;
  fp_className : option string;
  fp_onChange : option (string → Prog)
}.

(** [<input {...props} className="...">]: the attributes are spread,
    then [className] is written over the spread one. *)
Definition spread_with_class (p : FieldProps) (cls : string) : FieldProps :=
  mkFieldProps p.(fp_name) p.(fp_placeholder) p.(fp_required) p.(fp_value) (Some cls)
    p.(fp_onChange).

Record FieldEl := mkFieldEl {
  field_label : option string;
  field_props : FieldProps;
  field_options : list (string * string * string)
}.

(** [{label && <label>{label}</label>}]: an empty or absent label renders
    nothing. *)
Definition label_el (label : option string) : option string :=
  if js_truthy label then label else None.

Definition INPUT_CLASS : string :=
  "w-full px-3 py-2 bg-white border border-slate-200 rounded-lg focus:outline-none focus:ring-2 focus:ring-indigo-500/20 focus:border-indigo-500 transition-all".

Definition Input (label : option string) (props : FieldProps) : FieldEl :=
  mkFieldEl (label_el label) (spread_with_class props INPUT_CLASS) [].

(** [Select]: one [<option key={opt} value={opt}>{opt}</option>] per
    option, in order. *)
Definition Select (label : option string) (options : list string) (props : FieldProps) : FieldEl :=
  mkFieldEl (label_el label) (spread_with_class props (INPUT_CLASS +:+ " appearance-none"))
    ((λ opt, (opt, opt, opt)) <$> options).
End Widgets.

Import Widgets.
