(* ===== verification/Runtime.v ===== *)
(** React's effects in [App] of [src/src/App.tsx] (lines 235-247) and the
    loop that runs them: after a handler's state updates are committed,
    an effect runs again when one of its dependencies changed.  The first
    effect ([view], [user]) loads the dashboard's data, the second
    ([selectedTicket]) loads the selected ticket's comments.

    A dependency "changes" when its new value differs from the one of the
    previous commit.  React compares with [Object.is], by reference for
    objects; the model compares values, so an object replaced by an equal
    copy counts as unchanged (the handlers of the client always store
    a ticket or user that differs from the previous one when it is
    fresh from the server: its [updatedAt], history or identity moved).

    The loop is given fuel; the theorems show one round is enough (the
    effects never write their own dependencies), so the fuel chosen,
    [rounds], is the exact number of rounds React runs. *)

From S2P Require Import Prelude Types Users Tickets Comments Stats Server Client View.
Import JsObject Users TicketStore CommentStore Server Client View.

Module Runtime.

(** The second [useEffect]: [fetchComments(selectedTicket.id)] when a
    ticket is selected.  A selected ticket is always an object with an
    [id], so the [typeof] and [in] tests only exclude [null]. *)
Definition selection_effect (c : ClientState) : Prog :=
  match c.(selectedTicket) with
  | Some t => fetchComments t.(Ticket.id)
  | None => Done
  end.

Definition deps_dashboard (c : ClientState) : View * option ClientUser :=
  (c.(view), c.(user)).

Definition deps_selection (c : ClientState) : option Ticket := c.(selectedTicket).

(** An effect is due when a dependency changed since the last commit. *)
Definition dashboard_due (prev c : ClientState) : bool :=
  negb (bool_decide (deps_dashboard prev = deps_dashboard c)).

Definition selection_due (prev c : ClientState) : bool :=
  negb (bool_decide (deps_selection prev = deps_selection c)).

(** The effects due after a commit, in declaration order. *)
Definition effects (prev c : ClientState) : Prog :=
  seq_prog (if dashboard_due prev c then dashboard_effect c else Done)
           (if selection_due prev c then selection_effect c else Done).

(** On mount every effect runs once. *)
Definition mount_effects (c : ClientState) : Prog :=
  seq_prog (dashboard_effect c) (selection_effect c).

(** The number of effect rounds after a handler. *)
Definition rounds : nat := 1.

Section WithEnv.
Context `{Env}.

(** Effect rounds: run the due effects, commit, and look again. *)
Fixpoint settle (fuel : nat) (prev c : ClientState) (s : Server) : IO (ClientState * Server) :=
  match fuel with
  | 0 => io_ret (c, s)
  | S n =>
      if dashboard_due prev c || selection_due prev c then
        let! r := exec (effects prev c) c s in settle n c r.1 r.2
      else io_ret (c, s)
  end.

(** An event: the handler runs, then the effects its updates made due. *)
Definition dispatch (p : Prog) (c : ClientState) (s : Server) : IO (ClientState * Server) :=
  let! r := exec p c s in settle rounds c r.1 r.2.

(** The first render: the effects run once, then as they make due. *)
Definition mount (c : ClientState) (s : Server) : IO (ClientState * Server) :=
  let! r := exec (mount_effects c) c s in settle rounds c r.1 r.2.
End WithEnv.
End Runtime.

Import Runtime.

(** ** Effects only write data *)

(** The setters of the fetched data: [tickets], [stats], [agents],
    [comments]. *)
Definition data_update (u : Update) : bool :=
  match u with
  | SetTickets _ | SetStats _ | SetAgents _ | SetComments _ => true
  | _ => false
  end.

(** A program whose updates, on every answer, only write fetched data. *)
Inductive data_only : Prog → Prop :=
| data_done : data_only Done
| data_upd u k : data_update u = true → data_only k → data_only (Upd u k)
| data_fetch r k : (∀ res, data_only (k res)) → data_only (Fetch r k).

#[export] Hint Constructors data_only : tickets.

Lemma data_only_seq p q : data_only p → data_only q → data_only (seq_prog p q).
Proof. intros Hp Hq. induction Hp; simpl; auto with tickets. Qed.

#[export] Hint Resolve data_only_seq : tickets.

(** Each fetch helper writes only its data, whatever the answer. *)
Ltac data_only_fetch := constructor; intros []; simpl; repeat case_match; auto with tickets.

Lemma data_only_fetchTickets c : data_only (fetchTickets c).
Proof. unfold fetchTickets. destruct (user c); [data_only_fetch | constructor]. Qed.

Lemma data_only_fetchStats c : data_only (fetchStats c).
Proof. unfold fetchStats. case_bool_decide; [data_only_fetch | constructor]. Qed.

Lemma data_only_fetchAgents : data_only fetchAgents.
Proof. data_only_fetch. Qed.

Lemma data_only_fetchComments id : data_only (fetchComments id).
Proof. data_only_fetch. Qed.

#[export] Hint Resolve data_only_fetchTickets data_only_fetchStats data_only_fetchAgents
  data_only_fetchComments : tickets.

Lemma data_only_effects prev c : data_only (effects prev c).
Proof.
  unfold effects, dashboard_effect, selection_effect.
  apply data_only_seq; repeat case_match; auto with tickets.
Qed.

Lemma data_only_mount_effects c : data_only (mount_effects c).
Proof.
  unfold mount_effects, dashboard_effect, selection_effect.
  apply data_only_seq; repeat case_match; auto with tickets.
Qed.

Section WithEnv.
Context `{Env}.

(** A data-only program leaves both effects' dependencies as they were. *)
Lemma exec_data_only p c s w :
  data_only p →
  let '((c', s'), w') := exec p c s w in
  deps_dashboard c' = deps_dashboard c ∧ deps_selection c' = deps_selection c.
Proof.
  intros Hp. revert c s w. induction Hp as [|u k Hu Hk IH|r k Hk IH]; intros c s w; simpl.
  - done.
  - pose proof (IH (apply_update u c) s w) as Hr. destruct (exec k _ s w) as [[c' s'] w'].
    destruct Hr as [-> ->]. by destruct u, c.
  - unfold io_bind. destruct (handle r s w) as [[res s1] w1]. apply IH.
Qed.

Lemma settle_after_data_only prev c s w n :
  data_only (effects prev c) →
  settle (S n) prev c s w = settle 1 prev c s w.
Proof.
  intros Hd. simpl. destruct (_ || _); [|done]. unfold io_bind.
  pose proof (exec_data_only _ c s w Hd) as Hdeps.
  destruct (exec (effects prev c) c s w) as [[c' s'] w']. destruct Hdeps as [Hd1 Hd2].
  destruct n; [done|]. simpl. unfold dashboard_due, selection_due.
  by rewrite Hd1, Hd2, !bool_decide_eq_true_2.
Qed.

(** A seeded login from the login view, with the effects it makes due:
    the handler sets the user and the dashboard view, the effect on
    [[view, user]] loads the tickets, the statistics (for an admin) and
    the agents; nothing else moves, the server and the environment
    readings included. *)
Lemma dispatch_handleLogin_seeded name m c s w :
  own_get name MOCK_USERS = Some m → c.(view) = LoginView →
  dispatch (handleLogin name) c s w =
    ((mkClientState Dashboard c.(selectedRole) (user_of_login (LoginUser (without_password m)))
        (list_tickets (Some m.(MockUser.id)) (Some (UserRole_value m.(MockUser.role)))
           s.(Server.tickets))
        c.(selectedTicket) c.(isCreating)
        (if bool_decide (m.(MockUser.role) = ADMIN)
         then Some (Stats.stats s.(Server.tickets)) else c.(stats))
        false c.(commentText) c.(comments) (list_agents MOCK_USERS)
        c.(selectedStation) c.(availableAreas), s), w).
Proof.
  intros Hm Hv. unfold dispatch, handleLogin. cbn [exec handle].
  unfold login, js_get, js_key, js_template. rewrite Hm. unfold io_bind, io_ret; simpl.
  unfold rounds, effects, dashboard_due, selection_due, deps_dashboard, deps_selection; simpl.
  destruct c; simpl in *; subst.
  rewrite bool_decide_eq_false_2 by congruence. rewrite bool_decide_eq_true_2 by done.
  simpl. unfold io_bind, io_ret; simpl. rewrite !exec_seq_prog, exec_fetchStats; simpl.
  by destruct (MockUser.role m).
Qed.
End WithEnv.

(** The tickets a listing answers are tickets of the store. *)
Lemma list_tickets_elem_of uid role ts t : t ∈ list_tickets uid role ts → t ∈ ts.
Proof.
  unfold list_tickets. repeat case_bool_decide; [done | |];
    by intros [? _]%elem_of_List_filter.
Qed.

Section Props.
Context `{Env}.

(** C23: the effect loop terminates after one round: the effects only
    write fetched data, never their own dependencies, so no effect is due
    after they ran and more fuel changes nothing.  There is no
    fetch-render-fetch cycle. *)
Theorem effects_settle (prev c : ClientState) (s : Server) (w : io) (n : nat) :
  1 ≤ n →
  settle n prev c s w = settle rounds prev c s w ∧
  let '((c', _), _) := settle rounds prev c s w in
  dashboard_due c c' = false ∧ selection_due c c' = false.
Proof.
  intros Hn. split.
  { destruct n as [|n]; [lia|]. apply settle_after_data_only, data_only_effects. }
  unfold rounds. simpl. destruct (_ || _).
  - unfold io_bind. pose proof (exec_data_only _ c s w (data_only_effects prev c)) as Hd.
    destruct (exec (effects prev c) c s w) as [[c' s'] w']. destruct Hd as [Hd1 Hd2].
    simpl. unfold dashboard_due, selection_due. by rewrite Hd1, Hd2, !bool_decide_eq_true_2.
  - simpl. unfold dashboard_due, selection_due. by rewrite !bool_decide_eq_true_2.
Qed.

(** C24: logging in with a seeded name eventually shows a loaded
    dashboard: after the handler and the effects it makes due, the view
    is the dashboard, the user is the account without password, the list
    holds the tickets the server filters for that role, the agents are
    loaded, an admin also has the statistics, nothing changed on the
    server; and when every stored ticket has a creator name, the
    dashboard renders without exception. *)
Theorem seeded_login_loads_dashboard (name : string) (m : MockUser) (c : ClientState)
    (s : Server) (w : io) :
  own_get name MOCK_USERS = Some m → c.(view) = LoginView →
  let '((c', s'), w') := dispatch (handleLogin name) c s w in
  s' = s ∧ c'.(view) = Dashboard ∧
  c'.(user) = user_of_login (LoginUser (without_password m)) ∧
  c'.(tickets) = list_tickets (Some m.(MockUser.id)) (Some (UserRole_value m.(MockUser.role)))
                   s.(Server.tickets) ∧
  c'.(agents) = list_agents MOCK_USERS ∧
  c'.(stats) = (if bool_decide (m.(MockUser.role) = ADMIN)
                then Some (Stats.stats s.(Server.tickets)) else c.(stats)) ∧
  (Forall (λ t, is_Some t.(Ticket.creatorName)) s.(Server.tickets) →
   c.(isCreating) = false → c.(selectedTicket) = None → is_throw (render c') = false).
Proof.
  intros Hm Hv. rewrite (dispatch_handleLogin_seeded name m c s w Hm Hv). simpl.
  split_and!; try done. intros Hall Hc Hs. apply render_list_ok; simpl; try done.
  rewrite Forall_forall in Hall |- *. intros t Ht%list_tickets_elem_of. by apply Hall.
Qed.

(** C31: opening a ticket from the list (its row's button) selects it,
    and the effect on [selectedTicket] then loads that ticket's comments
    from the server; nothing else is requested and the server is not
    changed. *)
Theorem open_ticket_loads_comments (c : ClientState) (t : Ticket) (r : Row)
    (s : Server) (w : io) :
  row t = Ok r → c.(selectedTicket) ≠ Some t →
  let '((c', s'), w') := dispatch r.(row_open) c s w in
  s' = s ∧ w' = w ∧ c'.(selectedTicket) = Some t ∧
  c'.(comments) = list_comments t.(Ticket.id) s.(Server.comments).
Proof.
  intros Hr Hsel. unfold row in Hr. destruct (charAt0 _); [|done]. injection Hr as <-.
  unfold dispatch, rounds. simpl. unfold io_bind, io_ret.
  unfold dashboard_due, selection_due, deps_dashboard, deps_selection.
  destruct c; simpl in *.
  rewrite bool_decide_eq_true_2, bool_decide_eq_false_2 by done. simpl.
  unfold effects, dashboard_due, selection_due, deps_dashboard, deps_selection; simpl.
  rewrite bool_decide_eq_true_2, bool_decide_eq_false_2 by done. done.
Qed.
End Props.

(** ** Witnesses, in the environment whose clock advances one millisecond
    per reading *)

#[local] Existing Instance ticking_env.

Lemma effects_settle_witness :
  let u := ClientUser.mkClientUser (Some "admin1") (Some "admin1") (Some "Administrador 1")
             (Some "admin") (Some "IT Management") (Some "admin1@enterprise.com") in
  let prev := mkClientState LoginView (Some ADMIN) None [] None false None false "" [] [] "" [] in
  let c := mkClientState Dashboard (Some ADMIN) (Some u) [] None false None false "" [] [] "" [] in
  settle 3 prev c (fst (init (mk_io 0 0))) (mk_io 3 0) =
    settle rounds prev c (fst (init (mk_io 0 0))) (mk_io 3 0) ∧
  let '((c', _), _) := settle rounds prev c (fst (init (mk_io 0 0))) (mk_io 3 0) in
  dashboard_due c c' = false ∧ selection_due c c' = false.
Proof. intros u prev c. apply effects_settle. lia. Defined.

Lemma seeded_login_loads_dashboard_witness :
  let c := mkClientState LoginView (Some AGENT) None [] None false None false "" [] [] "" [] in
  own_get "agente2" MOCK_USERS = Some (agent_entry 2) ∧
  let '((c', s'), w') := dispatch (handleLogin "agente2") c (fst (init (mk_io 0 0))) (mk_io 3 0) in
  s' = fst (init (mk_io 0 0)) ∧ c'.(view) = Dashboard ∧
  c'.(user) = user_of_login (LoginUser (without_password (agent_entry 2))) ∧
  c'.(tickets) = list_tickets (Some (agent_entry 2).(MockUser.id))
                   (Some (UserRole_value (agent_entry 2).(MockUser.role)))
                   (fst (init (mk_io 0 0))).(Server.tickets) ∧
  c'.(agents) = list_agents MOCK_USERS ∧
  c'.(stats) = (if bool_decide ((agent_entry 2).(MockUser.role) = ADMIN)
                then Some (Stats.stats (fst (init (mk_io 0 0))).(Server.tickets)) else c.(stats)) ∧
  (Forall (λ t, is_Some t.(Ticket.creatorName)) (fst (init (mk_io 0 0))).(Server.tickets) →
   c.(isCreating) = false → c.(selectedTicket) = None → is_throw (render c') = false).
Proof.
  intros c. split; [vm_compute; reflexivity|].
  apply seeded_login_loads_dashboard; [vm_compute; reflexivity | reflexivity].
Defined.

Lemma open_ticket_loads_comments_witness :
  let c := mkClientState Dashboard None None [] None false None false "" [] [] "" [] in
  ∃ t r, (fst (init (mk_io 0 0))).(Server.tickets) = [t] ∧ row t = Ok r ∧
  let '((c', s'), w') := dispatch r.(row_open) c (fst (init (mk_io 0 0))) (mk_io 3 0) in
  s' = fst (init (mk_io 0 0)) ∧ w' = mk_io 3 0 ∧ c'.(selectedTicket) = Some t ∧
  c'.(comments) = list_comments t.(Ticket.id) (fst (init (mk_io 0 0))).(Server.comments).
Proof.
  intros c. eexists _, _. split; [reflexivity|]. split; [reflexivity|].
  apply open_ticket_loads_comments; [reflexivity | discriminate].
Defined.
