(* ===== verification/Interleave.v ===== *)
(** Concurrent event handlers of the client ([src/src/App.tsx]) against
    the server ([src/server.ts]).

    The handlers of [App] are [async] functions: between a [fetch] and
    the code after its [await] the browser runs other handlers, and the
    network may deliver requests and answers in any order.  A thread is
    a handler at one of three points: running its next statement,
    waiting for the server to receive its request, or waiting for the
    answer to come back.  A schedule lists which thread moves at each
    step.  The server handles one request at a time ([handle] runs to
    completion, as the Express handlers do: none of them awaits), so
    every interleaving of the clients is a sequence of server steps.

    The client state is shared by all threads: [setX(v)] writes the
    current state whatever handler calls it, while each handler keeps the
    state of the render that created it in its closure. *)

From S2P Require Import Prelude Types Users Tickets Comments Stats Server Client.
Import TicketStore Server Client.

Module Interleave.

Inductive Thread :=
| TRun (p : Prog)
| TSent (r : Request) (k : Response → Prog)
| TRecv (res : Response) (k : Response → Prog).

Record Config := mkConfig {
  client : ClientState;
  server : Server;
  threads : list Thread
}.

Section WithEnv.
Context `{Env}.

(** Thread [i] moves one step; a finished or absent thread does not. *)
Definition step (i : nat) (cfg : Config) : IO Config :=
  match cfg.(threads) !! i with
  | Some (TRun (Upd u k)) =>
      io_ret (mkConfig (apply_update u cfg.(client)) cfg.(server) (<[i := TRun k]> cfg.(threads)))
  | Some (TRun (Fetch r k)) =>
      io_ret (mkConfig cfg.(client) cfg.(server) (<[i := TSent r k]> cfg.(threads)))
  | Some (TSent r k) =>
      let! res := handle r cfg.(server) in
      io_ret (mkConfig cfg.(client) res.2 (<[i := TRecv res.1 k]> cfg.(threads)))
  | Some (TRecv res k) =>
      io_ret (mkConfig cfg.(client) cfg.(server) (<[i := TRun (k res)]> cfg.(threads)))
  | Some (TRun Done) | None => io_ret cfg
  end.

Fixpoint run_sched (sched : list nat) (cfg : Config) : IO Config :=
  match sched with
  | [] => io_ret cfg
  | i :: rest => let! cfg' := step i cfg in run_sched rest cfg'
  end.
End WithEnv.
End Interleave.

Import Interleave.

Section Props.
Context `{Env}.

Lemma run_sched_app s1 s2 cfg w :
  run_sched (s1 ++ s2) cfg w = let '(cfg', w') := run_sched s1 cfg w in run_sched s2 cfg' w'.
Proof.
  revert cfg w. induction s1 as [|i s1 IH]; intros cfg w; simpl; [done|].
  unfold io_bind. destruct (step i cfg w) as [cfg1 w1]. apply IH.
Qed.

Lemma insert_lookup_same {A} (l : list A) j x y : l !! j = Some y → <[j := x]> l !! j = Some x.
Proof. intros Hj. apply list_lookup_insert_eq. by eapply lookup_lt_Some. Qed.

(** The four moves of a thread. *)
Lemma step_upd j u k c s ths w :
  ths !! j = Some (TRun (Upd u k)) →
  step j (mkConfig c s ths) w = (mkConfig (apply_update u c) s (<[j := TRun k]> ths), w).
Proof. intros Hj. unfold step. simpl. by rewrite Hj. Qed.

Lemma step_fetch j r k c s ths w :
  ths !! j = Some (TRun (Fetch r k)) →
  step j (mkConfig c s ths) w = (mkConfig c s (<[j := TSent r k]> ths), w).
Proof. intros Hj. unfold step. simpl. by rewrite Hj. Qed.

Lemma step_sent j r k c s ths w :
  ths !! j = Some (TSent r k) →
  step j (mkConfig c s ths) w =
    let '((res, s'), w') := handle r s w in (mkConfig c s' (<[j := TRecv res k]> ths), w').
Proof. intros Hj. unfold step. simpl. rewrite Hj. unfold io_bind. by destruct (handle r s w) as [[]]. Qed.

Lemma step_recv j res k c s ths w :
  ths !! j = Some (TRecv res k) →
  step j (mkConfig c s ths) w = (mkConfig c s (<[j := TRun (k res)]> ths), w).
Proof. intros Hj. unfold step. simpl. by rewrite Hj. Qed.

(** A thread scheduled alone runs its handler as [exec] does, the other
    threads untouched. *)
Lemma thread_exec p c s ths j w :
  ths !! j = Some (TRun p) →
  ∃ n, let '((c', s'), w') := exec p c s w in
       run_sched (replicate n j) (mkConfig c s ths) w = (mkConfig c' s' (<[j := TRun Done]> ths), w').
Proof.
  revert c s ths w. induction p as [|u k IH|r k IH]; intros c s ths w Hj.
  - exists 0. simpl. by rewrite list_insert_id.
  - destruct (IH (apply_update u c) s (<[j := TRun k]> ths) w) as [n Hn];
      [by eapply insert_lookup_same|].
    exists (S n). cbn [replicate run_sched exec]. unfold io_bind. rewrite (step_upd _ _ _ _ _ _ _ Hj).
    destruct (exec k _ s w) as [[c' s'] w']. by rewrite Hn, list_insert_insert_eq.
  - cbn [exec]. unfold io_bind. destruct (handle r s w) as [[res s1] w1] eqn:Hh.
    destruct (IH res c s1 (<[j := TRun (k res)]> ths) w1) as [n Hn];
      [by eapply insert_lookup_same|].
    exists (3 + n). cbn [replicate run_sched Nat.add]. unfold io_bind.
    rewrite (step_fetch _ _ _ _ _ _ _ Hj).
    rewrite (step_sent j r k) by (repeat eapply insert_lookup_same; eassumption).
    rewrite Hh. cbv beta iota. cbn [fst snd].
    rewrite (step_recv j res k) by (repeat eapply insert_lookup_same; eassumption).
    rewrite !list_insert_insert_eq.
    destruct (exec (k res) c s1 w1) as [[c' s'] w']. by rewrite Hn, list_insert_insert_eq.
Qed.
End Props.

(** ** Two status changes in flight *)

Section Stale.
Context `{ClockMonotone}.

(** The answer of a successful status change: the handler selects the
    ticket answered and reloads the list (and the statistics for an
    administrator), from whatever state the page is in when the answer
    arrives. *)
Lemma updateTicketStatus_answer c u id st :
  c.(user) = Some u →
  ∃ k, updateTicketStatus c id st =
         Fetch (PatchTicket id (PatchBody.mkPatchBody (Some st) None None None
                                  u.(ClientUser.id) u.(ClientUser.fullName))) k ∧
       ∀ t' c' s w, ∃ c'', exec (k (mkResponse 200 (BTicket t'))) c' s w = ((c'', s), w) ∧
         c''.(selectedTicket) = Some t' ∧
         c''.(tickets) = list_tickets (Some (js_template u.(ClientUser.id)))
                           (Some (js_template u.(ClientUser.role))) s.(Server.tickets).
Proof.
  intros Hu. unfold updateTicketStatus. rewrite Hu. eexists. split; [reflexivity|].
  intros t' c' s w. cbn [res_ok code body exec]. simpl.
  rewrite exec_seq_prog, exec_fetchTickets. cbv beta iota.
  rewrite exec_fetchStats, Hu. eexists. split; [reflexivity|]. destruct c'; case_bool_decide; split; reflexivity.
Qed.

(** C18: the status handlers do not order their answers.  Whatever the
    page's user, the server's (invariant) store and the ticket, two
    status changes of the same ticket in flight at once, to [st1] and
    then to [st2], can end with the detail panel showing the ticket at
    [st1] while the server holds it at [st2], and the list reloaded from
    the server: when the server receives the first request first but
    the answer to the second arrives first, each handler selects the
    ticket its own answer carries, and the first handler's stale answer
    is selected last. *)
Theorem concurrent_status_clicks_stale (c : ClientState) (u : ClientUser) (s : Server) (w : io)
    (i : nat) (t : Ticket) (st1 st2 : TicketStatus) :
  c.(user) = Some u → server_ok s w → s.(Server.tickets) !! i = Some t →
  ∃ sched,
    let '(cfg, _) :=
      run_sched sched (mkConfig c s [TRun (updateTicketStatus c (ticket_id i) st1);
                                     TRun (updateTicketStatus c (ticket_id i) st2)]) w in
    (Ticket.status <$> cfg.(client).(selectedTicket)) = Some st1 ∧
    (Ticket.status <$> cfg.(server).(Server.tickets) !! i) = Some st2 ∧
    cfg.(client).(tickets) = list_tickets (Some (js_template u.(ClientUser.id)))
                               (Some (js_template u.(ClientUser.role))) cfg.(server).(Server.tickets) ∧
    cfg.(threads) = [TRun Done; TRun Done].
Proof.
  intros Hu Hok Hi.
  destruct (updateTicketStatus_answer c u (ticket_id i) st1 Hu) as (k1 & -> & Hk1).
  destruct (updateTicketStatus_answer c u (ticket_id i) st2 Hu) as (k2 & -> & Hk2).
  set (b1 := PatchBody.mkPatchBody (Some st1) None None None u.(ClientUser.id) u.(ClientUser.fullName)).
  set (b2 := PatchBody.mkPatchBody (Some st2) None None None u.(ClientUser.id) u.(ClientUser.fullName)).
  pose proof (update_ticket_fields b1 t w) as F1.
  pose proof (handle_patch_located i b1 s w t Hok Hi) as Hh1.
  destruct (update_ticket b1 t w) as [t1 w1]. destruct F1 as (_ & Hst1 & _).
  set (s1 := mkServer (<[i := t1]> s.(Server.tickets)) s.(Server.comments)) in Hh1.
  pose proof (handle_preserves _ _ _ _ _ _ Hok Hh1) as Hok1.
  assert (Hi1 : s1.(Server.tickets) !! i = Some t1) by (by eapply insert_lookup_same).
  pose proof (update_ticket_fields b2 t1 w1) as F2.
  pose proof (handle_patch_located i b2 s1 w1 t1 Hok1 Hi1) as Hh2.
  destruct (update_ticket b2 t1 w1) as [t2 w2]. destruct F2 as (_ & Hst2 & _).
  set (s2 := mkServer (<[i := t2]> s1.(Server.tickets)) s1.(Server.comments)) in Hh2.
  set (r1 := mkResponse 200 (BTicket t1)). set (r2 := mkResponse 200 (BTicket t2)).
  destruct (Hk2 t2 c s2 w2) as (ca & Ea & _ & _). fold r2 in Ea.
  destruct (thread_exec (k2 r2) c s2 [TRecv r1 k1; TRun (k2 r2)] 1 w2 eq_refl) as [n1 Hn1].
  rewrite Ea in Hn1.
  destruct (Hk1 t1 ca s2 w2) as (cb & Eb & Selb & Tkb). fold r1 in Eb.
  destruct (thread_exec (k1 r1) ca s2 (<[0 := TRun (k1 r1)]> (<[1 := TRun Done]> [TRecv r1 k1; TRun (k2 r2)]))
              0 w2 ltac:(by vm_compute)) as [n0 Hn0].
  rewrite Eb in Hn0.
  exists ([0; 1; 0; 1; 1] ++ replicate n1 1 ++ [0] ++ replicate n0 0).
  assert (Hpre : run_sched [0; 1; 0; 1; 1]
                   (mkConfig c s [TRun (Fetch (PatchTicket (ticket_id i) b1) k1);
                                  TRun (Fetch (PatchTicket (ticket_id i) b2) k2)]) w =
                 (mkConfig c s2 [TRecv r1 k1; TRun (k2 r2)], w2)).
  { cbn [run_sched]. unfold io_bind.
    rewrite (step_fetch 0 (PatchTicket (ticket_id i) b1) k1) by (by vm_compute). cbv beta iota.
    rewrite (step_fetch 1 (PatchTicket (ticket_id i) b2) k2) by (by vm_compute). cbv beta iota.
    rewrite (step_sent 0 (PatchTicket (ticket_id i) b1) k1) by (by vm_compute). rewrite Hh1. cbv beta iota.
    rewrite (step_sent 1 (PatchTicket (ticket_id i) b2) k2) by (by vm_compute). rewrite Hh2. cbv beta iota.
    rewrite (step_recv 1 r2 k2) by (by vm_compute). cbv beta iota delta [io_ret].
    by vm_compute. }
  rewrite run_sched_app, Hpre. cbv beta iota.
  rewrite run_sched_app, Hn1. cbv beta iota.
  rewrite run_sched_app. cbn [run_sched]. unfold io_bind.
  rewrite (step_recv 0 r1 k1) by (by vm_compute). cbv beta iota delta [io_ret].
  rewrite Hn0. cbv beta iota. cbn [client server threads].
  assert (Hlt : i < length (Server.tickets s1)) by (eapply lookup_lt_Some; exact Hi1).
  split_and!.
  - rewrite Selb. simpl. by rewrite Hst1.
  - unfold s2. cbn [Server.tickets]. rewrite list_lookup_insert_eq by done. simpl. by rewrite Hst2.
  - exact Tkb.
  - by vm_compute.
Qed.
End Stale.

#[local] Existing Instance ticking_env.

Lemma concurrent_status_clicks_stale_witness :
  let u := ClientUser.mkClientUser (Some "a1") (Some "agente1") (Some "Agente IT 1")
             (Some "agent") (Some "IT Support") (Some "agente1@enterprise.com") in
  let c := mkClientState Dashboard None (Some u) [] None false None false "" [] [] "" [] in
  ∃ t, c.(user) = Some u ∧ server_ok (fst (init (mk_io 0 0))) (mk_io 3 0) ∧
    (fst (init (mk_io 0 0))).(Server.tickets) !! 0 = Some t ∧
    ∃ sched,
      let '(cfg, _) :=
        run_sched sched (mkConfig c (fst (init (mk_io 0 0)))
                           [TRun (updateTicketStatus c (ticket_id 0) RESOLVED);
                            TRun (updateTicketStatus c (ticket_id 0) WAITING)]) (mk_io 3 0) in
      (Ticket.status <$> cfg.(client).(selectedTicket)) = Some RESOLVED ∧
      (Ticket.status <$> cfg.(server).(Server.tickets) !! 0) = Some WAITING ∧
      cfg.(client).(tickets) = list_tickets (Some (js_template u.(ClientUser.id)))
                                 (Some (js_template u.(ClientUser.role))) cfg.(server).(Server.tickets) ∧
      cfg.(threads) = [TRun Done; TRun Done].
Proof.
  intros u c. eexists.
  assert (Hok : server_ok (fst (init (mk_io 0 0))) (mk_io 3 0))
    by (apply store_okb_sound; vm_compute; reflexivity).
  split_and!; [reflexivity | exact Hok | reflexivity |].
  exact (concurrent_status_clicks_stale c u _ _ 0 _ RESOLVED WAITING eq_refl Hok eq_refl).
Defined.
