(* ===== verification/Browser.v ===== *)
(** The whole application in the browser: the page of [App]
    ([src/src/App.tsx]) driven by the user's events against the server
    ([src/server.ts]).

    A page is the client state of the hooks and the server it talks to.
    The user acts on a control of the rendered screen: an event names the
    control (a landing card, the login form, a sidebar entry, a button of
    the detail, a row of the table, ...), the control found on the screen
    [render] answers carries the handler to run, and the event is that
    handler followed by the effects its updates make due ([dispatch] of
    [Runtime.v]) when the render of the updated state succeeds.  An event
    naming a control the screen does not show does nothing.  A render
    that throws unmounts the application: the effects do not run, no
    control is left, and the page stays as it is.

    The page starts with the initial values of the [useState] hooks,
    against a server that has just started; mounting runs every effect
    once.

    Two tools for theorems about whole sessions follow.  Every event
    keeps the server reachable ([ui_run_reachable_from]).  And an
    invariant of the page ([PageInv]: a predicate on each update, request,
    answer, client state and server state) holds after any session as
    soon as each handler establishes it ([PageInvLaws]: each handler is a
    [prog_ok] program, [handle] answers admissible requests with
    admissible answers); the render's controls, the effects and [settle]
    are covered once here ([session_ok]).  Last come the lemmas that run
    a session a step at a time.  [Sessions.v] gives the instances and the
    theorems. *)

From S2P Require Import Prelude Types Users Tickets Comments Stats Server Client View Runtime.
Import JsObject Users TicketStore CommentStore Server Client View Runtime.

Module Browser.

(** The values of [useState(...)] in [App]. *)
Definition initial_client : ClientState :=
  mkClientState Landing None None [] None false None false "" [] [] "" [].

(** What the user does, by the control acted on.  A [select] submits one
    of its options; the status select's options are the statuses. *)
Inductive Event :=
| EvRoleCard (i : nat)
| EvLoginBack
| EvLoginSubmit (name : string)
| EvNav (i : nat)
| EvLogout
| EvFormCancel
| EvFormSubmit (f : TicketForm)
| EvStation (station : string)
| EvDetailBack
| EvTake
| EvWaiting
| EvResolved
| EvStatusSelect (st : TicketStatus)
| EvCommentType (text : string)
| EvCommentSubmit
| EvOpenRow (i : nat)
| EvCreateFirst.

(** The handler of the control of the main panel the event names. *)
Definition main_control (m : Main) (e : Event) : option Prog :=
  match m, e with
  | MCreate f, EvFormCancel => Some f.(form_cancel)
  | MCreate f, EvFormSubmit x => Some (f.(form_submit) x)
  | MCreate f, EvStation st =>
      if bool_decide (st ∈ fst <$> f.(form_stations)) then Some (f.(form_station_change) st)
      else None
  | MDetail d, EvDetailBack => Some d.(d_back)
  | MDetail d, EvTake => d.(d_actions) ≫= ap_take
  | MDetail d, EvWaiting => (λ '(_, pw, _), pw) <$> (d.(d_actions) ≫= ap_agent)
  | MDetail d, EvResolved => (λ '(_, _, pr), pr) <$> (d.(d_actions) ≫= ap_agent)
  | MDetail d, EvStatusSelect st => (λ ap, ap.(ap_status_change) st) <$> d.(d_actions)
  | MDetail d, EvCommentType text => Some (d.(d_comment_change) text)
  | MDetail d, EvCommentSubmit => Some d.(d_comment_submit)
  | MOverview o, EvOpenRow i => row_open <$> o.(ov_rows) !! i
  | MOverview o, EvCreateFirst => o.(ov_empty)
  | _, _ => None
  end.

(** The handler the control named by the event runs, when the screen
    shows it. *)
Definition control (scr : Screen) (e : Event) : option Prog :=
  match scr, e with
  | SLanding cards, EvRoleCard i => card_click <$> cards !! i
  | SLogin l, EvLoginBack => Some l.(login_back)
  | SLogin l, EvLoginSubmit name => Some (l.(login_submit) name)
  | SDashboard sb _ _, EvNav i => nav_click <$> sb.(sb_nav) !! i
  | SDashboard sb _ _, EvLogout => Some sb.(sb_logout)
  | SDashboard _ _ m, e => main_control m e
  | _, _ => None
  end.

Section WithEnv.
Context `{Env}.

(** A handler and the commit of its updates: a render that throws
    unmounts the application before the effects run; otherwise the
    effects the updates made due run ([dispatch]). *)
Definition commit (p : Prog) (c : ClientState) (s : Server) : IO (ClientState * Server) :=
  let! r := exec p c s in
  if is_throw (render r.1) then io_ret r else settle rounds c r.1 r.2.

(** One event on the page. *)
Definition ui_step (e : Event) (c : ClientState) (s : Server) : IO (ClientState * Server) :=
  match render c with
  | Ok scr =>
      match control scr e with
      | Some p => commit p c s
      | None => io_ret (c, s)
      end
  | Throw _ => io_ret (c, s)
  end.

Fixpoint ui_run (es : list Event) (c : ClientState) (s : Server) : IO (ClientState * Server) :=
  match es with
  | [] => io_ret (c, s)
  | e :: es' => let! r := ui_step e c s in ui_run es' r.1 r.2
  end.

(** A session: the server starts, the page mounts, the user acts. *)
Definition session (es : list Event) : IO (ClientState * Server) :=
  let! s := init in
  let! r := mount initial_client s in
  ui_run es r.1 r.2.
End WithEnv.
End Browser.

Import Browser.

(** ** The server stays reachable *)

Section Reachable.
Context `{Env}.

Lemma exec_reachable p c s w :
  reachable s w → let '((_, s'), w') := exec p c s w in reachable s' w'.
Proof.
  revert c s w. induction p as [|u k IH|r k IH]; intros c s w Hr; simpl; [done | by apply IH|].
  unfold io_bind. destruct (handle r s w) as [[res s1] w1] eqn:Hh.
  apply IH. by eapply reachable_step.
Qed.

Lemma settle_reachable n prev c s w :
  reachable s w → let '((_, s'), w') := settle n prev c s w in reachable s' w'.
Proof.
  revert prev c s w. induction n as [|n IH]; intros prev c s w Hr; simpl; [done|].
  destruct (_ || _); [|done]. unfold io_bind.
  pose proof (exec_reachable (effects prev c) c s w Hr) as He.
  destruct (exec _ c s w) as [[c1 s1] w1]. by apply IH.
Qed.

Lemma commit_reachable p c s w :
  reachable s w → let '((_, s'), w') := commit p c s w in reachable s' w'.
Proof.
  intros Hr. unfold commit, io_bind.
  pose proof (exec_reachable p c s w Hr) as He.
  destruct (exec p c s w) as [[c1 s1] w1]. cbn [fst snd].
  destruct (is_throw _); [done | by apply settle_reachable].
Qed.

Lemma ui_run_reachable_from es c s w :
  reachable s w → let '((_, s'), w') := ui_run es c s w in reachable s' w'.
Proof.
  revert c s w. induction es as [|e es IH]; intros c s w Hr; simpl; [done|].
  unfold io_bind, ui_step.
  assert (Hs : let '((_, s1), w1) := ui_step e c s w in reachable s1 w1).
  { unfold ui_step. destruct (render c) as [scr|]; [|done].
    destruct (control scr e); [by apply commit_reachable | done]. }
  unfold ui_step in Hs. destruct (match render c with _ => _ end w) as [[c1 s1] w1].
  by apply IH.
Qed.
End Reachable.

(** ** Invariants of the page

    An invariant of the page says what it asks of the client state, of
    the server, of a state update, of a request, of the body of an answer
    and of a user event ([PageInv]).  Its laws ([PageInvLaws]) ask that
    every update it allows keeps the client state in it, that the server
    answers every request it allows with a body it allows and stays in
    it, and that every handler of [App] only makes allowed updates and
    requests, whatever allowed answers it receives ([prog_ok]).  The
    laws hold one handler at a time; the lemmas of this section carry
    them through effects, events and whole sessions. *)

Record PageInv := {
  pi_upd : Update → Prop;
  pi_req : Request → Prop;
  pi_body : Body → Prop;
  pi_client : ClientState → Prop;
  pi_server : Server → Prop;
  pi_event : Event → Prop
}.

(** A handler that only makes updates and requests the invariant allows,
    whatever allowed answers it receives. *)
Inductive prog_ok (I : PageInv) : Prog → Prop :=
| ok_done : prog_ok I Done
| ok_upd u k : I.(pi_upd) u → prog_ok I k → prog_ok I (Upd u k)
| ok_fetch r k : I.(pi_req) r → (∀ res, I.(pi_body) res.(body) → prog_ok I (k res)) →
    prog_ok I (Fetch r k).

#[export] Hint Constructors prog_ok : tickets.

(** The updates a control makes by itself, outside the handlers that
    fetch. *)
Definition ui_update (u : Update) : bool :=
  match u with
  | SetView _ | SetSelectedRole _ | SetSelectedTicket None | SetIsCreating _
  | SetCommentText _ | SetSelectedStation _ | SetAvailableAreas _ => true
  | _ => false
  end.

Class PageInvLaws (I : PageInv) := {
  inv_update u c : I.(pi_client) c → I.(pi_upd) u → I.(pi_client) (apply_update u c);
  inv_handle `{Env} r s w : I.(pi_server) s → I.(pi_req) r →
    let '((res, s'), _) := handle r s w in I.(pi_body) res.(body) ∧ I.(pi_server) s';
  inv_ui u : ui_update u = true → I.(pi_upd) u;
  inv_select c t : I.(pi_client) c → t ∈ c.(tickets) → I.(pi_upd) (SetSelectedTicket (Some t));
  inv_fetchTickets c : I.(pi_client) c → prog_ok I (fetchTickets c);
  inv_fetchStats c : I.(pi_client) c → prog_ok I (fetchStats c);
  inv_fetchAgents : prog_ok I fetchAgents;
  inv_fetchComments c t : I.(pi_client) c → c.(selectedTicket) = Some t →
    prog_ok I (fetchComments t.(Ticket.id));
  inv_login name : I.(pi_event) (EvLoginSubmit name) → prog_ok I (handleLogin name);
  inv_create c f : I.(pi_client) c → prog_ok I (handleCreateTicket c f);
  inv_status c t st : I.(pi_client) c → c.(selectedTicket) = Some t →
    prog_ok I (updateTicketStatus c t.(Ticket.id) st);
  inv_assign c t : I.(pi_client) c → c.(selectedTicket) = Some t →
    prog_ok I (assignToMe c t.(Ticket.id));
  inv_comment c : I.(pi_client) c → prog_ok I (handleAddComment c);
  inv_init `{Env} w0 : I.(pi_server) (init w0).1;
  inv_initial : I.(pi_client) initial_client
}.

Section Invariant.
Context (I : PageInv) `{!PageInvLaws I}.

Lemma seq_prog_ok p q : prog_ok I p → prog_ok I q → prog_ok I (seq_prog p q).
Proof. intros Hp Hq. induction Hp; simpl; auto with tickets. Qed.

(** Updates a control makes by itself, then the end. *)
Ltac ui_upds := repeat first [apply ok_done | apply ok_upd; [by apply inv_ui |]].

Lemma effects_ok prev c : I.(pi_client) c → prog_ok I (effects prev c).
Proof.
  intros Hc. unfold effects, dashboard_effect, selection_effect.
  apply seq_prog_ok; repeat case_match; try apply ok_done;
    repeat apply seq_prog_ok; eauto using inv_fetchTickets, inv_fetchStats, inv_fetchAgents,
      inv_fetchComments.
Qed.

Lemma mount_effects_ok c : I.(pi_client) c → prog_ok I (mount_effects c).
Proof.
  intros Hc. unfold mount_effects, dashboard_effect, selection_effect.
  apply seq_prog_ok; repeat case_match; try apply ok_done;
    repeat apply seq_prog_ok; eauto using inv_fetchTickets, inv_fetchStats, inv_fetchAgents,
      inv_fetchComments.
Qed.

Lemma res_map_Forall {A B} (f : A → Result B) (P : B → Prop) l ys :
  (∀ x y, x ∈ l → f x = Ok y → P y) → res_map f l = Ok ys → Forall P ys.
Proof.
  intros Hf. revert ys. induction l as [|x l IH]; intros ys; simpl; [by intros [= <-]|].
  destruct (f x) eqn:Hx; simpl; [|done]. destruct (res_map f l) eqn:Hl; simpl; [|done].
  intros [= <-]. constructor; [eapply Hf; [left | done] |].
  apply IH; [|done]. intros x' y' Hx'. apply Hf. by right.
Qed.

Lemma fmap_lookup_Forall {A B} (P : B → Prop) (g : A → B) (l : list A) i b :
  Forall (λ x, P (g x)) l → g <$> l !! i = Some b → P b.
Proof.
  intros Hall. destruct (l !! i) eqn:Hi; simpl; [|done]. intros [= <-].
  exact (Forall_lookup_1 _ _ _ _ Hall Hi).
Qed.

(** Every element of a literal list. *)
Ltac each tac := repeat (apply List.Forall_cons; [tac|]); apply List.Forall_nil.

Lemma landing_ok : Forall (λ rc, prog_ok I rc.(card_click)) landing_cards.
Proof. each ui_upds. Qed.

Lemma nav_items_ok c : I.(pi_client) c → Forall (λ n, prog_ok I n.(nav_click)) (nav_items c).
Proof.
  intros Hc. unfold nav_items, go_dashboard, go_create.
  repeat case_match; simpl; each ltac:(ui_upds; try by apply inv_fetchTickets).
Qed.

(** A row opens the ticket it shows, one of the page's tickets. *)
Lemma rows_ok c rows :
  I.(pi_client) c → res_map row c.(tickets) = Ok rows → Forall (λ r, prog_ok I r.(row_open)) rows.
Proof.
  intros Hc. apply res_map_Forall. intros t r Ht. unfold row. destruct (charAt0 _); [|done].
  intros [= <-]. apply ok_upd; [by apply (inv_select c) | apply ok_done].
Qed.

Lemma action_panel_ok c t ap :
  I.(pi_client) c → c.(selectedTicket) = Some t → action_panel c t = Some ap →
  (∀ p, ap.(ap_take) = Some p → prog_ok I p) ∧
  (∀ b pw pr, ap.(ap_agent) = Some (b, pw, pr) → prog_ok I pw ∧ prog_ok I pr) ∧
  (∀ st, prog_ok I (ap.(ap_status_change) st)).
Proof.
  intros Hc Ht. unfold action_panel. case_match; [|done]. intros [= <-]. simpl.
  split_and!; intros; repeat case_match; simplify_eq;
    auto using inv_assign, inv_status.
Qed.

(** The closing step for a control: the updates it makes and the
    handlers it calls. *)
Ltac control_step :=
  repeat case_match; simplify_eq; ui_upds; auto using inv_create, inv_comment.

Lemma main_control_ok c m e p :
  I.(pi_client) c → main_panel c = Ok m → main_control m e = Some p → prog_ok I p.
Proof.
  intros Hc Hm Hp. unfold main_panel in Hm.
  destruct (isCreating c); [injection Hm as <-; destruct e; simpl in Hp; try done; control_step|].
  destruct (selectedTicket c) as [t|] eqn:Hsel.
  - unfold detail in Hm. destruct (res_map _ _); [|done]. destruct (user_initial _); [|done].
    injection Hm as <-. destruct e; simpl in Hp; try done;
      try (destruct (action_panel c t) as [ap|] eqn:Hap; [|done];
           destruct (action_panel_ok c t ap Hc Hsel Hap) as (Htake & Hag & Hst); simpl in Hp);
      control_step;
      destruct (ap_agent ap) as [[[b pw] pr]|]; simplify_eq/=;
      first [by eapply proj1, Hag | by eapply proj2, Hag].
  - unfold overview in Hm. destruct (res_map row _) as [rows|] eqn:Hrows; [|done].
    injection Hm as <-. destruct e; simpl in Hp; try done; [|control_step].
    eapply fmap_lookup_Forall; [by eapply rows_ok | exact Hp].
Qed.

(** Every control of a page in the invariant runs a handler of the
    invariant, for the events it allows. *)
Lemma control_ok c scr e p :
  I.(pi_client) c → I.(pi_event) e → render c = Ok scr → control scr e = Some p → prog_ok I p.
Proof.
  intros Hc He Hr Hp. unfold render in Hr. destruct (view c).
  - injection Hr as <-. destruct e; simpl in Hp; try done.
    eapply fmap_lookup_Forall; [exact landing_ok | exact Hp].
  - injection Hr as <-. destruct e; simpl in Hp; try done; simplify_eq; [ui_upds|].
    case_match; [constructor | by apply inv_login].
  - destruct (sidebar c) as [sb|] eqn:Hsb; [|done]. simpl in Hr.
    destruct (main_panel c) as [m|] eqn:Hm; [|done]. simpl in Hr. injection Hr as <-.
    unfold sidebar in Hsb. destruct (user_initial _); simplify_eq/=.
    destruct e; simpl in Hp; try (by eapply main_control_ok).
    + eapply fmap_lookup_Forall; [by apply nav_items_ok | exact Hp].
    + simplify_eq. ui_upds.
Qed.

Context `{Env}.

Lemma exec_ok p c s w :
  prog_ok I p → I.(pi_client) c → I.(pi_server) s →
  let '((c', s'), _) := exec p c s w in I.(pi_client) c' ∧ I.(pi_server) s'.
Proof.
  intros Hp. revert c s w. induction Hp as [|u k Hu Hk IH|r k Hr Hk IH]; intros c s w Hc Hs;
    simpl; [done | apply IH; [by apply inv_update | done] |].
  unfold io_bind. pose proof (inv_handle r s w Hs Hr) as Hh.
  destruct (handle r s w) as [[res s1] w1]. destruct Hh as [Hb Hs1]. by apply IH.
Qed.

Lemma settle_ok n prev c s w :
  I.(pi_client) c → I.(pi_server) s →
  let '((c', s'), _) := settle n prev c s w in I.(pi_client) c' ∧ I.(pi_server) s'.
Proof.
  revert prev c s w. induction n as [|n IH]; intros prev c s w Hc Hs; simpl; [done|].
  destruct (_ || _); [|done]. unfold io_bind.
  pose proof (exec_ok (effects prev c) c s w (effects_ok prev c Hc) Hc Hs) as He.
  destruct (exec _ c s w) as [[c1 s1] w1]. destruct He. by apply IH.
Qed.

Lemma commit_ok p c s w :
  prog_ok I p → I.(pi_client) c → I.(pi_server) s →
  let '((c', s'), _) := commit p c s w in I.(pi_client) c' ∧ I.(pi_server) s'.
Proof.
  intros Hp Hc Hs. unfold commit, io_bind.
  pose proof (exec_ok p c s w Hp Hc Hs) as He.
  destruct (exec p c s w) as [[c1 s1] w1]. destruct He. cbn [fst snd].
  destruct (is_throw _); [done | by apply settle_ok].
Qed.

Lemma ui_run_ok es c s w :
  Forall I.(pi_event) es → I.(pi_client) c → I.(pi_server) s →
  let '((c', s'), _) := ui_run es c s w in I.(pi_client) c' ∧ I.(pi_server) s'.
Proof.
  intros Hes. revert c s w. induction Hes as [|e es He Hes IH]; intros c s w Hc Hs;
    simpl; [done|].
  unfold io_bind, ui_step. destruct (render c) as [scr|] eqn:Hr; [|by apply IH].
  destruct (control scr e) as [p|] eqn:Hp; [|by apply IH].
  pose proof (commit_ok p c s w (control_ok c scr e p Hc He Hr Hp) Hc Hs) as Hd.
  destruct (commit p c s w) as [[c1 s1] w1]. destruct Hd. by apply IH.
Qed.

(** A session whose events the invariant allows stays in the
    invariant. *)
Lemma session_ok es w0 :
  Forall I.(pi_event) es →
  let '((c, s), _) := session es w0 in I.(pi_client) c ∧ I.(pi_server) s.
Proof.
  intros Hes. unfold session, mount, io_bind.
  pose proof (inv_init w0) as Hs. destruct (init w0) as [s w]; simpl in Hs.
  pose proof (exec_ok _ initial_client s w (mount_effects_ok initial_client inv_initial)
                inv_initial Hs) as He.
  destruct (exec _ initial_client s w) as [[c1 s1] w1]. destruct He as [Hc1 Hs1].
  pose proof (settle_ok rounds initial_client c1 s1 w1 Hc1 Hs1) as Hst.
  destruct (settle _ _ _ _ _) as [[c2 s2] w2]. destruct Hst. by apply ui_run_ok.
Qed.

(** After such a session, the handler of the next event, on whatever
    control it acts, is a program of the invariant. *)
Lemma session_next_ok es w0 e :
  Forall I.(pi_event) es → I.(pi_event) e →
  let '((c, s), _) := session es w0 in
  I.(pi_client) c ∧ I.(pi_server) s ∧
  ∀ scr p, render c = Ok scr → control scr e = Some p → prog_ok I p.
Proof.
  intros Hes He. pose proof (session_ok es w0 Hes) as Hs.
  destruct (session es w0) as [[c s] w]. destruct Hs as [Hc Hs].
  split_and!; [done | done |]. intros scr p Hr Hp. by eapply control_ok.
Qed.
End Invariant.

(** ** Sessions step by step *)

Section Journeys.
Context `{Env}.

Lemma ui_run_app es1 es2 c s w :
  ui_run (es1 ++ es2) c s w = let '((c1, s1), w1) := ui_run es1 c s w in ui_run es2 c1 s1 w1.
Proof.
  revert c s w. induction es1 as [|e es1 IH]; intros c s w; simpl; [done|].
  unfold io_bind. destruct (ui_step e c s w) as [[c1 s1] w1]. apply IH.
Qed.

(** A page whose render throws ignores every event. *)
Lemma ui_run_frozen es c s w : is_throw (render c) = true → ui_run es c s w = ((c, s), w).
Proof.
  intros Ht. induction es as [|e es IH]; simpl; [done|].
  unfold io_bind, ui_step. by destruct (render c).
Qed.

(** When the updated state renders, the commit is the handler followed by
    its effects. *)
Lemma commit_dispatch p c s w :
  is_throw (render (exec p c s w).1.1) = false → commit p c s w = dispatch p c s w.
Proof.
  unfold commit, dispatch, io_bind. destruct (exec p c s w) as [[c1 s1] w1]. simpl.
  by intros ->.
Qed.

(** Mounting the landing page runs no request, and clicking the landing
    card of a role selects it and opens the login form. *)
Lemma session_role_card i r w0 :
  card_role <$> landing_cards !! i = Some r →
  session [EvRoleCard i] w0 =
    ((mkClientState LoginView (Some r) None [] None false None false "" [] [] "" [],
      (init w0).1), (init w0).2).
Proof.
  destruct (init w0) as [s w] eqn:Hi. unfold session, mount, io_bind. rewrite Hi.
  destruct i as [|[|[|i]]]; simpl; [intros [= <-]; reflexivity..|].
  by destruct i.
Qed.
Lemma session_app es1 es2 w0 :
  session (es1 ++ es2) w0 = let '((c, s), w) := session es1 w0 in ui_run es2 c s w.
Proof.
  unfold session, io_bind. destruct (init w0) as [s w].
  destruct (mount initial_client s w) as [[c1 s1] w1]. apply ui_run_app.
Qed.

(** Submitting the login form while it is not loading, with a name. *)
Lemma ui_step_login name c s w :
  c.(view) = LoginView → c.(loading) = false → name ≠ "" →
  ui_step (EvLoginSubmit name) c s w = commit (handleLogin name) c s w.
Proof.
  intros Hv Hl Hn. unfold ui_step, render. rewrite Hv. simpl. rewrite Hl. simpl.
  by rewrite (proj2 (String.eqb_neq _ _) Hn).
Qed.

(** Off the dashboard, with the selected ticket unchanged, no effect
    has anything to do: the commit ends where the handler ended. *)
Lemma settle_off_dashboard prev c s w :
  c.(view) ≠ Dashboard → deps_selection prev = deps_selection c →
  settle rounds prev c s w = ((c, s), w).
Proof.
  intros Hv Hsel. unfold rounds; simpl. unfold effects, selection_due, dashboard_effect.
  rewrite Hsel, bool_decide_eq_true_2 by done. simpl.
  destruct (dashboard_due prev c); [|done]. by destruct (view c).
Qed.

(** A handler that leaves the page off the dashboard, with the same
    selected ticket, commits without effects. *)
Lemma commit_off_dashboard p c s w c1 s1 w1 :
  exec p c s w = ((c1, s1), w1) → c1.(view) ≠ Dashboard →
  deps_selection c = deps_selection c1 → commit p c s w = ((c1, s1), w1).
Proof.
  intros He Hv Hsel. unfold commit, io_bind. rewrite He. cbn [fst snd].
  rewrite is_throw_render. destruct (view c1) eqn:E; [| |done]; cbv beta iota;
    apply settle_off_dashboard; by rewrite ?E.
Qed.

(** "Cerrar Sesión" on a dashboard that renders only switches the view
    to the landing page: the user, the tickets and the selected ticket
    stay, and no request is sent. *)
Lemma ui_step_logout c s w :
  c.(view) = Dashboard → is_throw (render c) = false →
  ui_step EvLogout c s w = ((apply_update (SetView Landing) c, s), w).
Proof.
  intros Hv Ht. unfold ui_step. unfold render in *. rewrite Hv in *.
  destruct (sidebar c) as [sb|] eqn:Hsb; [|done].
  destruct (main_panel c) as [m|]; [|done]. cbn -[commit].
  unfold sidebar in Hsb. destruct (user_initial _); [|done]. injection Hsb as <-.
  apply commit_off_dashboard; [reflexivity | by destruct c | by destruct c].
Qed.

(** A role card on the landing page selects its role and opens the
    login form, whatever the rest of the state. *)
Lemma ui_step_role_card i r c s w :
  c.(view) = Landing → card_role <$> landing_cards !! i = Some r →
  ui_step (EvRoleCard i) c s w =
    ((apply_update (SetView LoginView) (apply_update (SetSelectedRole (Some r)) c), s), w).
Proof.
  intros Hv Hr. unfold ui_step, render. rewrite Hv.
  destruct i as [|[|[|i]]]; [..|by destruct i]; cbn -[commit] in *; injection Hr as <-;
    apply commit_off_dashboard; first [reflexivity | by destruct c].
Qed.

Lemma seeded_name_ok name m :
  own_get name MOCK_USERS = Some m → name ≠ "" ∧ name ∉ object_prototype_keys.
Proof.
  intros Hm. split.
  - intros ->. by vm_compute in Hm.
  - intros Hk%prototype_keys_not_seeded. apply own_get_None_iff in Hk. congruence.
Qed.
End Journeys.
