(* ===== verification/Sessions.v ===== *)
(** Whole sessions of the application ([src/src/App.tsx] against
    [src/server.ts]): two invariants of the page, each an instance of the
    [PageInvLaws] interface of [Browser.v], and what they give for every
    sequence of user events.

    - [named_inv]: every ticket has a creator name, every comment an
      author name and the user a full name, on both sides: the fields the
      render reads with [charAt(0)].  It holds for every event except a
      login typed with a name inherited from [Object.prototype].
    - [keys_inv]: the server numbers its tickets by position and the
      page's ticket list has pairwise distinct identifiers, the React
      keys of the ticket table ([key={ticket.id}]).  It holds for every
      event.

    The theorems at the end: the server stays reachable and the keys
    distinct in every session; the page never throws without a prototype
    login; a seeded login from any role card reaches the account's
    dashboard; in any session, a user who logs in after another's logout
    lands on the ticket the other left open. *)

From S2P Require Import Prelude Types Users Tickets Comments Stats Server Client View Runtime Browser.
Import JsObject Users TicketStore CommentStore Server Client View Runtime Browser.

(** ** The names the render reads *)

(** The fields a render reads with [charAt(0)]: a ticket's creator
    name, a comment's author name, the user's full name. *)
Definition named_ticket (t : Ticket) : Prop := is_Some t.(Ticket.creatorName).
Definition named_comment (cm : TicketComment) : Prop := is_Some cm.(TicketComment.userName).

Record server_named (s : Server) : Prop := {
  sn_tickets : Forall named_ticket s.(Server.tickets);
  sn_comments : Forall named_comment s.(Server.comments)
}.

Record client_named (c : ClientState) : Prop := {
  cn_user : lacks_fullName c.(user) = false;
  cn_tickets : Forall named_ticket c.(tickets);
  cn_comments : Forall named_comment c.(comments)
}.

(** A request that keeps the server named and whose answer is named. *)
Definition req_named (r : Request) : Prop :=
  match r with
  | Login u => js_key u ∉ object_prototype_keys
  | PostTicket b => is_Some b.(TicketBody.creatorName)
  | PostComment _ b => is_Some b.(CommentBody.userName)
  | _ => True
  end.

Definition body_named (b : Body) : Prop :=
  match b with
  | BLogin lb => lb ≠ LoginEmpty
  | BTickets ts => Forall named_ticket ts
  | BTicket t => named_ticket t
  | BComments cs => Forall named_comment cs
  | BComment cm => named_comment cm
  | _ => True
  end.

Definition upd_named (u : Update) : Prop :=
  match u with
  | SetUser u => lacks_fullName u = false
  | SetTickets ts => Forall named_ticket ts
  | SetComments cs => Forall named_comment cs
  | _ => True
  end.

Definition event_named (e : Event) : Prop :=
  if e is EvLoginSubmit name then name ∉ object_prototype_keys else True.

Definition named_inv : PageInv :=
  {| pi_upd := upd_named; pi_req := req_named; pi_body := body_named;
     pi_client := client_named; pi_server := server_named; pi_event := event_named |}.

(** A render of a named state does not throw. *)
Lemma render_named c : client_named c → is_throw (render c) = false.
Proof.
  intros [Hu Ht Hc]. rewrite is_throw_render, Hu. simpl.
  destruct (view c); [done | done|]. apply andb_false_iff.
  destruct (isCreating c); [by left | right].
  destruct (selectedTicket c); apply not_true_iff_false; rewrite existsb_elem_of;
    intros (x & Hx & Hthrow).
  - rewrite Forall_forall in Hc. destruct (Hc x Hx) as [n Hn].
    unfold comment_view in Hthrow. by rewrite Hn in Hthrow.
  - rewrite Forall_forall in Ht. destruct (Ht x Hx) as [n Hn].
    unfold row in Hthrow. by rewrite Hn in Hthrow.
Qed.

Lemma apply_update_named u c : client_named c → upd_named u → client_named (apply_update u c).
Proof. intros [] Hu. destruct u, c; simpl in *; by constructor. Qed.

Lemma Forall_filter_sub {A} (P : A → Prop) (f : A → bool) l :
  Forall P l → Forall P (List.filter f l).
Proof. rewrite !Forall_forall. intros Hall x (Hx & _)%elem_of_List_filter. by apply Hall. Qed.

#[export] Hint Resolve Forall_filter_sub : tickets.

Section Server.
Context `{Env}.

Lemma update_ticket_creatorName b t w :
  (update_ticket b t w).1.(Ticket.creatorName) = t.(Ticket.creatorName).
Proof.
  unfold update_ticket, apply_fields, io_bind, io_ret, now; simpl.
  by destruct (PatchBody.status b), (js_truthy _), (PatchBody.priority b), (resolves _).
Qed.

Lemma patch_ticket_named id b ts w :
  Forall named_ticket ts →
  let '((r, ts'), _) := patch_ticket id b ts w in
  Forall named_ticket ts' ∧ (if r is Patched t then named_ticket t else True).
Proof.
  intros Hall. destruct (patch_ticket_cases id b ts w) as [[-> _] | (i & t & Hi & _ & _ & ->)];
    [done|].
  pose proof (update_ticket_creatorName b t w) as Hn.
  destruct (update_ticket b t w) as [t' w']. simpl in Hn.
  assert (named_ticket t') as Ht'
    by (unfold named_ticket; rewrite Hn; exact (Forall_lookup_1 _ _ _ _ Hall Hi)).
  split; [by apply Forall_insert | done].
Qed.

(** The server answers a named request with a named body and stays
    named. *)
Lemma handle_named r s w :
  server_named s → req_named r →
  let '((res, s'), _) := handle r s w in body_named res.(body) ∧ server_named s'.
Proof.
  intros [Ht Hc] Hr. destruct r as [u| |uid role|b|id b|id|id b|]; simpl in Hr |- *.
  - unfold login, js_get. destruct (own_get _ _); [done|].
    case_bool_decide; [done | by constructor].
  - by constructor.
  - split; [|by constructor]. rewrite Forall_forall in Ht |- *.
    intros t Htl. apply Ht. by eapply list_tickets_elem_of.
  - unfold io_bind. pose proof (create_ticket_fields b (Server.tickets s) w) as Hf.
    pose proof (create_ticket_copies b (Server.tickets s) w) as Hcp.
    destruct (create_ticket b (Server.tickets s) w) as [[t ts] w1]; simpl in *.
    destruct Hf as [-> _]. destruct Hcp as (_ & _ & _ & Hn & _).
    assert (named_ticket t) by (unfold named_ticket; by rewrite Hn).
    split; [done|]. constructor; simpl; [|done]. apply Forall_app; auto.
  - unfold io_bind. pose proof (patch_ticket_named id b (Server.tickets s) w Ht) as Hp.
    destruct (patch_ticket id b (Server.tickets s) w) as [[[t|] ts] w1]; simpl in *;
      destruct Hp; split; try done; by constructor.
  - split; [by apply Forall_filter_sub | by constructor].
  - unfold add_comment, io_bind, io_ret, random_id, now; simpl.
    split; [done|]. constructor; [done|]. simpl. apply Forall_app; auto.
  - by constructor.
Qed.

Lemma init_named w0 : server_named (init w0).1.
Proof.
  unfold init, initial_tickets, io_bind, io_ret, now; simpl.
  split; repeat constructor. unfold named_ticket. simpl. by eexists.
Qed.
End Server.

(** ** Every handler of the page is named *)

(** A login body other than the empty object gives a user with a name,
    or none. *)
Lemma user_of_login_named b : b ≠ LoginEmpty → lacks_fullName (user_of_login b) = false.
Proof. by destruct b. Qed.

(** Updates whose values are named, then the end. *)
Ltac named_upds :=
  repeat first [apply ok_done | apply ok_upd;
    [simpl; first [done | by constructor | by apply user_of_login_named] |]].

(** A fetch whose continuation writes what the answer holds. *)
Ltac named_fetch :=
  apply ok_fetch; [done|]; intros [? []] Hb; simpl in *; repeat case_match; named_upds.

Lemma fetchTickets_named c : prog_ok named_inv (fetchTickets c).
Proof. unfold fetchTickets. destruct (user c); [named_fetch | constructor]. Qed.

Lemma fetchStats_named c : prog_ok named_inv (fetchStats c).
Proof. unfold fetchStats. case_bool_decide; [named_fetch | constructor]. Qed.

Lemma fetchAgents_named : prog_ok named_inv fetchAgents.
Proof. named_fetch. Qed.

Lemma fetchComments_named id : prog_ok named_inv (fetchComments id).
Proof. named_fetch. Qed.

#[export] Hint Resolve fetchTickets_named fetchStats_named : tickets.

Lemma handleLogin_named name : name ∉ object_prototype_keys → prog_ok named_inv (handleLogin name).
Proof.
  intros Hk. unfold handleLogin. named_upds. apply ok_fetch; [exact Hk|].
  intros [code []] Hb; simpl in *; apply seq_prog_ok; repeat case_match; named_upds.
Qed.

(** The user of a named state has a name. *)
Lemma named_user_fullName c u : client_named c → c.(user) = Some u → is_Some u.(ClientUser.fullName).
Proof. intros [Hu _ _] Hc. rewrite Hc in Hu. simpl in Hu. by destruct (ClientUser.fullName u). Qed.

Lemma handleCreateTicket_named c f : client_named c → prog_ok named_inv (handleCreateTicket c f).
Proof.
  intros Hc. unfold handleCreateTicket. destruct (user c) as [u|] eqn:Hu; [|constructor].
  apply ok_fetch; [by eapply named_user_fullName|]. intros res _. case_match; named_upds.
  auto with tickets.
Qed.

Lemma patch_handler_named id (b : PatchBody) (k : Ticket → Prog) :
  (∀ t, prog_ok named_inv (k t)) →
  prog_ok named_inv (Fetch (PatchTicket id b)
                (λ res, if res_ok res then
                          match res.(body) with BTicket t => k t | _ => Done end
                        else Done)).
Proof. intros Hk. apply ok_fetch; [done|]. intros res _. repeat case_match; named_upds; auto. Qed.

Lemma updateTicketStatus_named c id st : prog_ok named_inv (updateTicketStatus c id st).
Proof.
  unfold updateTicketStatus. destruct (user c); [|constructor].
  apply patch_handler_named. intros t. named_upds. apply seq_prog_ok; auto with tickets.
Qed.

Lemma assignToMe_named c id : prog_ok named_inv (assignToMe c id).
Proof.
  unfold assignToMe. destruct (user c); [|constructor].
  apply patch_handler_named. intros t. named_upds. auto with tickets.
Qed.

Lemma handleAddComment_named c : client_named c → prog_ok named_inv (handleAddComment c).
Proof.
  intros Hc. unfold handleAddComment. destruct (user c) as [u|] eqn:Hu; [|constructor].
  destruct (selectedTicket c); [|constructor]. case_match; [constructor|].
  apply ok_fetch; [by eapply named_user_fullName|]. intros res _. case_match; named_upds.
  apply fetchComments_named.
Qed.

#[export] Instance named_laws : PageInvLaws named_inv.
Proof.
  split.
  - exact apply_update_named.
  - exact @handle_named.
  - by intros [] ?.
  - done.
  - intros. apply fetchTickets_named.
  - intros. apply fetchStats_named.
  - exact fetchAgents_named.
  - intros. apply fetchComments_named.
  - exact handleLogin_named.
  - exact handleCreateTicket_named.
  - intros. apply updateTicketStatus_named.
  - intros. apply assignToMe_named.
  - exact handleAddComment_named.
  - exact @init_named.
  - by constructor.
Qed.

(** ** The keys of the ticket table *)

(** The server's identifiers follow the positions: [T-(1001+i)] at [i]. *)
Definition ids_by_position (ts : list Ticket) : Prop :=
  ∀ i t, ts !! i = Some t → t.(Ticket.id) = ticket_id i.

(** [key={ticket.id}] is a valid React key for every row. *)
Definition distinct_ids (ts : list Ticket) : Prop := NoDup (Ticket.id <$> ts).

Definition keys_inv : PageInv :=
  {| pi_upd u := if u is SetTickets ts then distinct_ids ts else True;
     pi_req _ := True;
     pi_body b := if b is BTickets ts then distinct_ids ts else True;
     pi_client c := distinct_ids c.(tickets);
     pi_server s := ids_by_position s.(Server.tickets);
     pi_event _ := True |}.

Lemma ids_by_position_snoc ts t :
  ids_by_position ts → t.(Ticket.id) = ticket_id (length ts) → ids_by_position (ts ++ [t]).
Proof.
  intros Hid Ht i t' Hi. apply lookup_app_Some in Hi as [Hi | [Hge Hi]]; [by apply Hid|].
  apply list_lookup_singleton_Some in Hi as [Hi ->]. rewrite Ht. f_equal. lia.
Qed.

Lemma ids_by_position_insert ts i t t' :
  ids_by_position ts → ts !! i = Some t → t'.(Ticket.id) = t.(Ticket.id) →
  ids_by_position (<[i := t']> ts).
Proof.
  intros Hid Hi Ht j t'' Hj. destruct (decide (i = j)) as [<-|Hne].
  - rewrite list_lookup_insert_eq in Hj by (by eapply lookup_lt_Some).
    injection Hj as <-. rewrite Ht. by apply Hid.
  - rewrite list_lookup_insert_ne in Hj by done. by apply Hid.
Qed.

(** A listing of a store numbered by position has distinct identifiers. *)
Lemma list_tickets_distinct uid role ts :
  ids_by_position ts → distinct_ids (list_tickets uid role ts).
Proof.
  intros Hid. eapply sublist_NoDup; [by apply ids_by_position_NoDup|].
  apply fmap_sublist. unfold list_tickets.
  repeat case_bool_decide; [done | apply List_filter_sublist_of..].
Qed.

Section KeysServer.
Context `{Env}.

Lemma handle_keys r s w :
  ids_by_position s.(Server.tickets) →
  let '((res, s'), _) := handle r s w in
  (if res.(body) is BTickets ts then distinct_ids ts else True) ∧
  ids_by_position s'.(Server.tickets).
Proof.
  intros Hid. destruct r as [u| |uid role|b|id b|id|id b|]; simpl.
  - by destruct (login _ _).
  - done.
  - split; [by apply list_tickets_distinct | done].
  - unfold io_bind. pose proof (create_ticket_fields b (Server.tickets s) w) as Hf.
    destruct (create_ticket b (Server.tickets s) w) as [[t ts] w1]; simpl.
    destruct Hf as (-> & Ht & _). split; [done|]. by apply ids_by_position_snoc.
  - unfold io_bind.
    destruct (patch_ticket_cases id b (Server.tickets s) w) as [[-> _] | (i & t & Hi & _ & _ & ->)];
      simpl; [done|].
    pose proof (update_ticket_fields b t w) as Hu.
    destruct (update_ticket b t w) as [t' w']. destruct Hu as [Ht' _]. simpl.
    split; [done|]. by eapply ids_by_position_insert.
  - done.
  - by unfold io_bind, add_comment, io_ret, random_id, now.
  - done.
Qed.
End KeysServer.

(** Every handler only writes listings it received. *)
Ltac keys_prog :=
  repeat first [ apply ok_done | apply ok_upd; [simpl; first [done | apply NoDup_nil_2] |]
               | apply ok_fetch; [done | intros [? []] ?] | apply seq_prog_ok
               | progress case_match | progress simpl in * ].

Lemma fetchTickets_keys c : prog_ok keys_inv (fetchTickets c).
Proof. unfold fetchTickets. keys_prog. Qed.

#[export] Instance keys_laws : PageInvLaws keys_inv.
Proof.
  split; intros; try done.
  - destruct u, c; simpl in *; done.
  - by apply handle_keys.
  - by destruct u.
  - apply fetchTickets_keys.
  - unfold fetchStats. keys_prog.
  - unfold fetchAgents. keys_prog.
  - unfold fetchComments. keys_prog.
  - unfold handleLogin. keys_prog.
  - unfold handleCreateTicket. keys_prog; apply fetchTickets_keys.
  - unfold updateTicketStatus. keys_prog; try apply fetchTickets_keys.
    unfold fetchStats. keys_prog.
  - unfold assignToMe. keys_prog; apply fetchTickets_keys.
  - unfold handleAddComment, fetchComments. keys_prog.
  - unfold init, initial_tickets, io_bind, io_ret, now. simpl.
    intros [|i] t Hi; [|done]. by injection Hi as <-.
  - apply NoDup_nil_2.
Qed.


(** ** What a session guarantees *)

(** Picking the [i]-th role card of the landing page, then submitting
    [name] in the login form. *)
Definition card_login (i : nat) (name : string) : list Event := [EvRoleCard i; EvLoginSubmit name].

Section Claims.
Context `{Env}.

(** C20: whatever the user does in a session, every state the server goes
    through is one of its reachable states (the page only reaches the
    server through [handle], one request at a time, so the invariants of
    [Server.v] hold for a server driven by the user interface), and the
    ticket table never holds two tickets with the same identifier: its
    React keys [key={ticket.id}] stay distinct. *)
Theorem session_invariants (es : list Event) (w0 : io) :
  let '((c, s), w) := session es w0 in
  reachable s w ∧ distinct_ids c.(tickets).
Proof.
  pose proof (session_ok keys_inv es w0 ltac:(by apply Forall_true)) as Hk.
  revert Hk. unfold session, mount, io_bind. destruct (init w0) as [s w] eqn:Hi.
  pose proof (reachable_init w0 s w Hi) as Hr.
  pose proof (exec_reachable (mount_effects initial_client) initial_client s w Hr) as He.
  destruct (exec _ initial_client s w) as [[c1 s1] w1].
  pose proof (settle_reachable rounds initial_client c1 s1 w1 He) as Hs.
  destruct (settle _ _ _ _ _) as [[c2 s2] w2]. cbn [fst snd].
  pose proof (ui_run_reachable_from es c2 s2 w2 Hs) as Hu.
  destruct (ui_run es c2 s2 w2) as [[c3 s3] w3]. intros [Hd _]. by split.
Qed.

(** C13: in a session where no name inherited from [Object.prototype] is
    typed at the login, the page never throws: after any sequence of
    events the render answers a screen, every ticket the server stores
    has a creator name and every comment an author name.  The
    [TypeError]s of [View.v] need data that the user interface never
    sends. *)
Theorem session_never_throws (es : list Event) (w0 : io) :
  (∀ name, EvLoginSubmit name ∈ es → name ∉ object_prototype_keys) →
  let '((c, s), _) := session es w0 in
  is_throw (render c) = false ∧
  Forall named_ticket s.(Server.tickets) ∧ Forall named_comment s.(Server.comments).
Proof.
  intros Hes. pose proof (session_ok named_inv es w0) as Hn.
  destruct (session es w0) as [[c s] w]. destruct Hn as [Hc [Hst Hcm]].
  - apply Forall_forall. intros [] He; simpl; auto.
  - split_and!; [by apply render_named | done | done].
Qed.

(** C21: from the landing page, clicking any of the three role cards and
    logging in with a seeded name ends on that account's dashboard, with
    the tickets the server lists for its role, whatever card was chosen:
    the card only changes the login form's placeholder, and the role
    selected stays the card's.  The server and the environment readings
    are those of the server's start. *)
Theorem login_from_any_card (i : nat) (name : string) (m : MockUser) (w0 : io) :
  i < 3 → own_get name MOCK_USERS = Some m →
  let '((c, s), w) := session (card_login i name) w0 in
  (s, w) = init w0 ∧ c.(view) = Dashboard ∧
  c.(selectedRole) = card_role <$> landing_cards !! i ∧
  c.(user) = user_of_login (LoginUser (without_password m)) ∧
  c.(tickets) = list_tickets (Some m.(MockUser.id)) (Some (UserRole_value m.(MockUser.role)))
                  s.(Server.tickets) ∧
  is_throw (render c) = false.
Proof.
  intros Hi Hm. unfold card_login. destruct (seeded_name_ok name m Hm) as [Hne Hk].
  pose proof (session_ok named_inv [EvRoleCard i; EvLoginSubmit name] w0
                ltac:(by repeat constructor)) as Hn.
  destruct (card_role <$> landing_cards !! i) as [r|] eqn:Hr;
    [|destruct i as [|[|[|i]]]; simpl in Hr; done || lia].
  rewrite (session_app [EvRoleCard i] [EvLoginSubmit name]), (session_role_card i r w0 Hr)
    in Hn |- *.
  cbn [ui_run] in Hn |- *. unfold io_bind in Hn |- *. rewrite ui_step_login in Hn |- * by done.
  set (c1 := mkClientState LoginView (Some r) None [] None false None false "" [] [] "" []).
  assert (Hc1 : client_named c1) by (by constructor).
  pose proof (exec_ok named_inv (handleLogin name) c1 (init w0).1 (init w0).2
                (handleLogin_named name Hk) Hc1 (init_named w0)) as He.
  rewrite commit_dispatch in Hn |- *.
  2, 3: destruct (exec _ _ _ _) as [[c2 s2] w2]; destruct He; simpl; by apply render_named.
  rewrite (dispatch_handleLogin_seeded name m c1) in Hn |- * by done.
  simpl in Hn |- *. destruct Hn as [Hn _].
  split_and!; try done. by apply render_named.
Qed.

(** C17: "Cerrar Sesión" only switches the view, so whoever logs in next
    on the page inherits the ticket left open.  In any session (no
    prototype login) that ends on a dashboard showing a ticket [t],
    logging out, picking any role card and logging in with any seeded
    name lands on the new account's dashboard, with the tickets the
    server lists for it, still on the detail of [t], whether or not [t]
    is among them; the comment button there runs [handleAddComment],
    which posts to [t].  Nothing reaches the server but the login and
    the listings. *)
Theorem logout_keeps_selected_ticket (es : list Event) (w0 : io) (c : ClientState) (s : Server)
    (w : io) (t : Ticket) (i : nat) (name : string) (m : MockUser) :
  Forall event_named es → session es w0 = ((c, s), w) →
  c.(view) = Dashboard → c.(loading) = false → c.(isCreating) = false →
  c.(selectedTicket) = Some t → i < 3 → own_get name MOCK_USERS = Some m →
  let '((c', s'), w') := session (es ++ EvLogout :: card_login i name) w0 in
  (s', w') = (s, w) ∧ c'.(view) = Dashboard ∧
  c'.(user) = user_of_login (LoginUser (without_password m)) ∧
  c'.(tickets) = list_tickets (Some m.(MockUser.id)) (Some (UserRole_value m.(MockUser.role)))
                   s.(Server.tickets) ∧
  c'.(selectedTicket) = Some t ∧
  ∃ sb d, render c' = Ok (SDashboard sb ("Ticket " +:+ t.(Ticket.id)) (MDetail d)) ∧
          d.(d_comment_submit) = handleAddComment c'.
Proof.
  intros Hes Hses Hv Hl Hcr Hsel Hi Hm. destruct (seeded_name_ok name m Hm) as [Hne Hk].
  pose proof (session_ok named_inv es w0 Hes) as Hn. rewrite Hses in Hn. destruct Hn as [Hc Hs].
  assert (Hes' : Forall event_named (es ++ EvLogout :: card_login i name))
    by (apply Forall_app_2; [done | repeat constructor; done]).
  pose proof (session_ok named_inv _ w0 Hes') as Hn'.
  rewrite session_app, Hses in Hn' |- *.
  destruct (card_role <$> landing_cards !! i) as [r|] eqn:Hr;
    [|destruct i as [|[|[|i]]]; simpl in Hr; done || lia].
  set (c2 := apply_update (SetView LoginView)
               (apply_update (SetSelectedRole (Some r)) (apply_update (SetView Landing) c))).
  assert (Hc2 : client_named c2) by (unfold c2; do 3 (apply apply_update_named; [|exact I]); exact Hc).
  assert (Hrun : ui_run (EvLogout :: card_login i name) c s w = dispatch (handleLogin name) c2 s w).
  { unfold card_login. cbn [ui_run]. unfold io_bind.
    rewrite ui_step_logout by (done || by apply render_named). cbn [fst snd].
    rewrite (ui_step_role_card i r) by (done || by destruct c). cbn [fst snd].
    rewrite ui_step_login by (done || by destruct c; simpl in *). rewrite commit_dispatch.
    - fold c2. by destruct (dispatch _ _ _ _) as [[]].
    - fold c2.
      pose proof (exec_ok named_inv (handleLogin name) c2 s w (handleLogin_named name Hk) Hc2 Hs)
        as He.
      destruct (exec _ c2 s w) as [[c3 s3] w3]. by apply render_named, He. }
  rewrite Hrun, (dispatch_handleLogin_seeded name m) in Hn' |- * by (done || by destruct c).
  destruct Hn' as [Hc' _]. unfold c2 in *. destruct c; simpl in *.
  split_and!; try done. apply render_detail; try done. by apply render_named.
Qed.
End Claims.

(** ** Witnesses, in the environment whose clock advances one millisecond
    per reading *)

#[local] Existing Instance ticking_env.

(** An administrator's session: log in, open the seeded ticket, take it,
    comment on it. *)
Definition admin_session : list Event :=
  [EvRoleCard 2; EvLoginSubmit "admin1"; EvOpenRow 0; EvTake; EvCommentType "Revisando";
   EvCommentSubmit].

Lemma session_never_throws_witness :
  (∀ name, EvLoginSubmit name ∈ admin_session → name ∉ object_prototype_keys) ∧
  let '((c, s), _) := session admin_session (mk_io 0 0) in
  is_throw (render c) = false ∧
  Forall (λ t, is_Some t.(Ticket.creatorName)) s.(Server.tickets) ∧
  Forall (λ cm, is_Some cm.(TicketComment.userName)) s.(Server.comments).
Proof.
  assert (Hok : ∀ name, EvLoginSubmit name ∈ admin_session → name ∉ object_prototype_keys).
  { intros name Hn. unfold admin_session in Hn. rewrite !elem_of_cons, elem_of_nil in Hn.
    destruct Hn as [?|[Hn|[?|[?|[?|[?|[]]]]]]]; simplify_eq. decide_by_eval. }
  split; [exact Hok|]. apply (session_never_throws admin_session (mk_io 0 0)). exact Hok.
Defined.

Lemma login_from_any_card_witness :
  2 < 3 ∧ own_get "agente2" MOCK_USERS = Some (agent_entry 2) ∧
  let '((c, s), w) := session [EvRoleCard 2; EvLoginSubmit "agente2"] (mk_io 0 0) in
  (s, w) = init (mk_io 0 0) ∧ c.(view) = Dashboard ∧
  c.(selectedRole) = card_role <$> landing_cards !! 2 ∧
  c.(user) = user_of_login (LoginUser (without_password (agent_entry 2))) ∧
  c.(tickets) = list_tickets (Some (agent_entry 2).(MockUser.id))
                  (Some (UserRole_value (agent_entry 2).(MockUser.role))) s.(Server.tickets) ∧
  is_throw (render c) = false.
Proof.
  split; [lia|]. split; [vm_compute; reflexivity|].
  apply login_from_any_card; [lia | vm_compute; reflexivity].
Defined.

(** An administrator opens the seeded ticket; then an ordinary user logs
    in on the same page. *)
Definition admin_opens_ticket : list Event := [EvRoleCard 2; EvLoginSubmit "admin1"; EvOpenRow 0].

Lemma logout_keeps_selected_ticket_witness :
  ∃ c s w t,
    Forall event_named admin_opens_ticket ∧ session admin_opens_ticket (mk_io 0 0) = ((c, s), w) ∧
    c.(view) = Dashboard ∧ c.(loading) = false ∧ c.(isCreating) = false ∧
    c.(selectedTicket) = Some t ∧ 0 < 3 ∧ own_get "user2" MOCK_USERS = Some (user_entry 2) ∧
    let '((c', s'), w') :=
      session (admin_opens_ticket ++ EvLogout :: card_login 0 "user2") (mk_io 0 0) in
    (s', w') = (s, w) ∧ c'.(view) = Dashboard ∧
    c'.(user) = user_of_login (LoginUser (without_password (user_entry 2))) ∧
    c'.(tickets) = list_tickets (Some (user_entry 2).(MockUser.id))
                     (Some (UserRole_value (user_entry 2).(MockUser.role))) s.(Server.tickets) ∧
    c'.(selectedTicket) = Some t ∧
    ∃ sb d, render c' = Ok (SDashboard sb ("Ticket " +:+ t.(Ticket.id)) (MDetail d)) ∧
            d.(d_comment_submit) = handleAddComment c'.
Proof.
  destruct (session admin_opens_ticket (mk_io 0 0)) as [[c s] w] eqn:E.
  assert (Hv : c.(view) = Dashboard ∧ c.(loading) = false ∧ c.(isCreating) = false ∧
               is_Some c.(selectedTicket)).
  { vm_compute in E. injection E as <- <- <-. split_and!; [reflexivity.. | eexists; reflexivity]. }
  destruct Hv as (Hv & Hl & Hcr & [t Ht]).
  assert (Hes : Forall event_named admin_opens_ticket)
    by (repeat constructor; simpl; decide_by_eval).
  assert (Hm : own_get "user2" MOCK_USERS = Some (user_entry 2)) by (vm_compute; reflexivity).
  exists c, s, w, t. split_and!; [done..| lia | done |].
  exact (logout_keeps_selected_ticket admin_opens_ticket (mk_io 0 0) c s w t 0 "user2" _
           Hes E Hv Hl Hcr Ht ltac:(lia) Hm).
Defined.
