(* ===== verification/Transport.v ===== *)
(** Whole sessions over the wire: the requests the page sends in a
    session, as the [fetch] calls of [src/src/App.tsx] write them, reach
    the route handlers of [src/server.ts] with exactly the requests the
    model of [Client.v] runs.

    The client builds its URLs with template literals and never escapes
    what it interpolates (the user's [id] and [role], a ticket's [id]).
    [Wire.v] shows each fetch call is routed as intended when that text
    is URL-safe.  This file shows it always is: an instance [url_inv] of
    the [PageInvLaws] interface of [Browser.v] whose client invariant is
    that the user's id and role and every ticket id the page holds are
    URL-safe, and whose requests are those Express delivers unchanged.
    The ids come from two places: the seeded accounts of [MOCK_USERS]
    (or ["undefined"] after a login with an inherited name), and the
    server's numbering [T-(1001+i)], which [keys_inv] of [Sessions.v]
    keeps. *)

From S2P Require Import Prelude Types Users Tickets Comments Stats Server Client Wire View Runtime Browser Sessions.
Import JsObject Users TicketStore CommentStore Server Client Wire View Runtime Browser.

(** ** URL-safe identifiers *)

Definition user_safe (u : option ClientUser) : Prop :=
  ∀ x, u = Some x →
    query_safe (js_template x.(ClientUser.id)) = true ∧
    query_safe (js_template x.(ClientUser.role)) = true.

Definition ticket_safe (t : Ticket) : Prop := segment_safe t.(Ticket.id) = true.

Record client_safe (c : ClientState) : Prop := {
  cs_user : user_safe c.(user);
  cs_tickets : Forall ticket_safe c.(tickets);
  cs_selected : ∀ t, c.(selectedTicket) = Some t → ticket_safe t
}.

Section Routed.
Variable NODE_ENV : option string.

(** A request Express delivers unchanged, in whichever form a fetch call
    of the client writes it. *)
Definition routed (r : Request) : Prop :=
  ∀ h, fetch_call r h → serve NODE_ENV h = Handled r.

Definition upd_safe (u : Update) : Prop :=
  match u with
  | SetUser u => user_safe u
  | SetTickets ts => Forall ticket_safe ts
  | SetSelectedTicket (Some t) => ticket_safe t
  | _ => True
  end.

Definition body_safe (b : Body) : Prop :=
  match b with
  | BLogin lb => user_safe (user_of_login lb)
  | BTickets ts => Forall ticket_safe ts
  | BTicket t => ticket_safe t
  | _ => True
  end.

Definition url_inv : PageInv :=
  {| pi_upd := upd_safe; pi_req := routed; pi_body := body_safe;
     pi_client := client_safe; pi_server s := ids_by_position s.(Server.tickets);
     pi_event _ := True |}.

End Routed.

(** ** The identifiers the server hands out are URL-safe *)

Lemma str_forall_app p a b : str_forall p (a +:+ b) = str_forall p a && str_forall p b.
Proof.
  induction a as [|c a IH]; [done|]. rewrite string_app_cons. simpl. by rewrite IH, andb_assoc.
Qed.

Lemma pretty_N_go_safe x s : query_safe s = true → query_safe (pretty_N_go x s) = true.
Proof.
  revert s. induction (N.lt_wf_0 x) as [x _ IH]; intros s Hs.
  destruct (decide (x = 0%N)) as [->|Hx]; [by rewrite pretty_N_go_0|].
  rewrite pretty_N_go_step by lia. apply IH; [apply N.div_lt; lia|].
  unfold query_safe in *. simpl. rewrite Hs, andb_true_r. unfold pretty_N_char. by repeat case_match.
Qed.

Lemma pretty_nat_safe (n : nat) : query_safe (pretty n) = true.
Proof.
  unfold pretty, pretty_nat, pretty, pretty_N. case_decide; [done|]. by apply pretty_N_go_safe.
Qed.

Lemma ticket_id_safe i : segment_safe (ticket_id i) = true.
Proof.
  unfold segment_safe, query_safe, ticket_id. rewrite str_forall_app, pretty_nat_safe.
  rewrite bool_decide_false; [done|]. rewrite !elem_of_cons, elem_of_nil.
  intros [H|[H|[H|[]]]]; rewrite string_app_cons in H; discriminate.
Qed.

Lemma ids_by_position_safe ts t : ids_by_position ts → t ∈ ts → ticket_safe t.
Proof.
  intros Hid (i & Hi)%list_elem_of_lookup. unfold ticket_safe. rewrite (Hid i t Hi).
  apply ticket_id_safe.
Qed.

(** ** The accounts the login answers are URL-safe *)

Lemma own_get_values {V} k (o : obj V) v : own_get k o = Some v → v ∈ obj_values o.
Proof.
  induction o as [|[k' v'] o IH]; simpl; [done|].
  destruct (String.eqb k k'); [intros [= ->]; left | intros Hv; right; by apply IH].
Qed.

Lemma MOCK_USERS_safe :
  Forall (λ m, query_safe m.(MockUser.id) = true ∧ query_safe (UserRole_value m.(MockUser.role)) = true)
    (obj_values MOCK_USERS).
Proof.
  apply Forall_forall. intros m Hm.
  assert (forallb (λ m, query_safe m.(MockUser.id) && query_safe (UserRole_value m.(MockUser.role)))
            (obj_values MOCK_USERS) = true) as Hall by (vm_compute; reflexivity).
  rewrite forallb_forall in Hall. apply list_elem_of_In in Hm. apply Hall in Hm.
  by apply andb_prop in Hm.
Qed.

Lemma login_user_safe u : user_safe (user_of_login (login MOCK_USERS u).2).
Proof.
  unfold login, js_get. destruct (own_get _ _) as [m|] eqn:Hm; [|case_bool_decide]; simpl.
  - intros x [= <-]. simpl.
    pose proof MOCK_USERS_safe as Hall. rewrite Forall_forall in Hall.
    apply Hall. by eapply own_get_values.
  - intros x [= <-]. split; reflexivity.
  - by intros x [=].
Qed.

(** ** The server answers URL-safe identifiers *)

Lemma list_tickets_elem uid role ts t : t ∈ list_tickets uid role ts → t ∈ ts.
Proof.
  unfold list_tickets. repeat case_bool_decide; [done | rewrite elem_of_List_filter; naive_solver..].
Qed.

Section Server.
Context `{Env}.

Lemma handle_body_safe r s w :
  ids_by_position s.(Server.tickets) →
  let '((res, _), _) := handle r s w in body_safe res.(body).
Proof.
  intros Hid. destruct r as [u| |uid role|b|id b|id|id b|]; simpl; try done.
  - pose proof (login_user_safe u) as Hu. by destruct (login _ _).
  - apply Forall_forall. intros t Ht. eapply ids_by_position_safe; [done|].
    by eapply list_tickets_elem.
  - unfold io_bind. pose proof (create_ticket_fields b (Server.tickets s) w) as Hf.
    destruct (create_ticket b (Server.tickets s) w) as [[t ts] w1]; simpl.
    destruct Hf as (_ & Ht & _). unfold ticket_safe. rewrite Ht. apply ticket_id_safe.
  - unfold io_bind.
    destruct (patch_ticket_cases id b (Server.tickets s) w) as [[-> _] | (i & t & Hi & _ & _ & ->)];
      simpl; [done|].
    pose proof (update_ticket_fields b t w) as Hu.
    destruct (update_ticket b t w) as [t' w']. destruct Hu as [Ht' _]. simpl.
    unfold ticket_safe. rewrite Ht', (Hid i t Hi). apply ticket_id_safe.
Qed.

End Server.

(** ** Every handler sends routed requests *)

Section Handlers.
Variable NODE_ENV : option string.
Abbreviation I := (url_inv NODE_ENV).

Lemma routed_of_safe r : params_safe r = true → routed NODE_ENV r.
Proof. intros Hr h Hh. by apply fetch_call_dispatch. Qed.

(** Updates of safe values, requests with safe text, and any answer. *)
Ltac url_prog :=
  repeat first [ apply ok_done | apply ok_upd; [simpl; first [done | constructor]|]
               | apply seq_prog_ok | progress case_match | progress simpl in * ].

Lemma fetchTickets_url c : client_safe c → prog_ok I (fetchTickets c).
Proof.
  intros Hc. unfold fetchTickets. destruct (user c) as [u|] eqn:Hu; [|apply ok_done].
  destruct (cs_user c Hc u Hu) as [Hid Hrole].
  apply ok_fetch; [apply routed_of_safe; simpl; by rewrite Hid, Hrole|].
  intros [code []] Hb; url_prog.
Qed.

Lemma fetchStats_url c : prog_ok I (fetchStats c).
Proof.
  unfold fetchStats. case_bool_decide; [|apply ok_done].
  apply ok_fetch; [by apply routed_of_safe|]. intros [code []] Hb; url_prog.
Qed.

Lemma fetchAgents_url : prog_ok I fetchAgents.
Proof. apply ok_fetch; [by apply routed_of_safe|]. intros [code []] Hb; url_prog. Qed.

Lemma fetchComments_url t : ticket_safe t → prog_ok I (fetchComments t.(Ticket.id)).
Proof. intros Ht. apply ok_fetch; [by apply routed_of_safe|]. intros [code []] Hb; url_prog. Qed.

Lemma handleLogin_url name : prog_ok I (handleLogin name).
Proof.
  unfold handleLogin. apply ok_upd; [done|]. apply ok_fetch; [by apply routed_of_safe|].
  intros [code []] Hb; url_prog.
Qed.

Lemma handleCreateTicket_url c f : client_safe c → prog_ok I (handleCreateTicket c f).
Proof.
  intros Hc. unfold handleCreateTicket. destruct (user c); [|apply ok_done].
  apply ok_fetch; [by apply routed_of_safe|]. intros res _. url_prog. by apply fetchTickets_url.
Qed.

Lemma updateTicketStatus_url c t st :
  client_safe c → c.(selectedTicket) = Some t → prog_ok I (updateTicketStatus c t.(Ticket.id) st).
Proof.
  intros Hc Ht. pose proof (cs_selected c Hc t Ht) as Hs. unfold updateTicketStatus.
  destruct (user c); [|apply ok_done]. apply ok_fetch; [by apply routed_of_safe|].
  intros [code []] Hb; url_prog; auto using fetchTickets_url, fetchStats_url.
Qed.

Lemma assignToMe_url c t :
  client_safe c → c.(selectedTicket) = Some t → prog_ok I (assignToMe c t.(Ticket.id)).
Proof.
  intros Hc Ht. pose proof (cs_selected c Hc t Ht) as Hs. unfold assignToMe.
  destruct (user c); [|apply ok_done]. apply ok_fetch; [by apply routed_of_safe|].
  intros [code []] Hb; url_prog; auto using fetchTickets_url.
Qed.

Lemma handleAddComment_url c : client_safe c → prog_ok I (handleAddComment c).
Proof.
  intros Hc. unfold handleAddComment.
  destruct (user c); [|apply ok_done]. destruct (selectedTicket c) as [t|] eqn:Ht; [|apply ok_done].
  pose proof (cs_selected c Hc t Ht) as Hs. case_match; [apply ok_done|].
  apply ok_fetch; [by apply routed_of_safe|]. intros res _. url_prog. by apply fetchComments_url.
Qed.

End Handlers.

#[export] Instance url_laws NODE_ENV : PageInvLaws (url_inv NODE_ENV).
Proof.
  split.
  - intros u c [Hu Hts Hsel] Hup. destruct u as [| |u'|ts|sel| | | | | | | |], c; simpl in *;
      constructor; simpl; try done. by intros t ->.
  - intros ? r s w Hs _. pose proof (handle_body_safe r s w Hs) as Hb.
    pose proof (handle_keys r s w Hs) as Hk.
    destruct (handle r s w) as [[res s'] w']. by destruct Hk.
  - intros [| | | |[t|]| | | | | | | |]; done.
  - intros c t Hc Ht. simpl. eapply Forall_forall; [apply (cs_tickets c Hc) | done].
  - intros c Hc. by apply fetchTickets_url.
  - intros c _. apply fetchStats_url.
  - apply fetchAgents_url.
  - intros c t Hc Ht. apply fetchComments_url. by apply (cs_selected c Hc).
  - intros name _. apply handleLogin_url.
  - intros c f Hc. by apply handleCreateTicket_url.
  - intros c t st Hc Ht. by apply updateTicketStatus_url.
  - intros c t Hc Ht. by apply assignToMe_url.
  - intros c Hc. by apply handleAddComment_url.
  - intros ? w0. exact (@inv_init keys_inv keys_laws _ w0).
  - constructor; simpl; [by intros ? [=] | constructor | by intros ? [=]].
Qed.

Section Sessions.
Context `{Env}.

(** C19: whatever the user has done in a session, the user id and role
    and every ticket id the page holds are URL-safe, and the handler of
    the next event, on whatever control of the screen it acts, sends only
    requests that the [fetch] call writing them gets delivered by Express
    to the route handler unchanged: the same route, the same ticket id,
    the same query values and the same body fields as the request the
    model runs (for every answer the server can give, and whatever
    hosting middleware [NODE_ENV] selects).  The client escapes none of
    the text it puts in its URLs; it does not need to. *)
Theorem session_requests_routed (NODE_ENV : option string) (es : list Event) (w0 : io) (e : Event) :
  let '((c, s), _) := session es w0 in
  user_safe c.(user) ∧ Forall ticket_safe c.(tickets) ∧
  ∀ scr p, render c = Ok scr → control scr e = Some p → prog_ok (url_inv NODE_ENV) p.
Proof.
  pose proof (session_next_ok (url_inv NODE_ENV) es w0 e ltac:(by apply Forall_true) I) as Hn.
  destruct (session es w0) as [[c s] w]. destruct Hn as ([Hu Hts _] & _ & Hp). by split_and!.
Qed.
End Sessions.

#[local] Existing Instance ticking_env.

(** An administrator opens the seeded ticket; the "Tomar Ticket" button
    then sends its PATCH to the route that handles it. *)
Lemma session_requests_routed_witness :
  let '((c, s), _) := session [EvRoleCard 2; EvLoginSubmit "admin1"; EvOpenRow 0] (mk_io 0 0) in
  user_safe c.(user) ∧
  ∃ scr p, render c = Ok scr ∧ control scr EvTake = Some p ∧ prog_ok (url_inv None) p.
Proof.
  pose proof (session_requests_routed None [EvRoleCard 2; EvLoginSubmit "admin1"; EvOpenRow 0]
                (mk_io 0 0) EvTake) as Hr.
  destruct (session _ _) as [[c s] w] eqn:E. destruct Hr as (Hu & _ & Hp). split; [exact Hu|].
  vm_compute in E. injection E as <- <- <-.
  eexists _, _. split; [reflexivity|]. split; [reflexivity|]. eapply Hp; reflexivity.
Defined.
